(** * lsp-bench: the position index and the edit simulator

    A shallow embedding of [src/line_table.ts] and of [parseOptions] and
    [main] in [src/index.ts], with the properties of the benchmark driver
    proved over it.

    JavaScript strings are sequences of UTF-16 code units; integers are
    modelled in [Z].  The one place where the source leaves the integers,
    the [>>] of [getLowerBound], has its conversion to a signed 32-bit
    integer written out.  The readings of the clock and the times
    computed from them are IEEE 754 double-precision numbers. *)

From Stdlib Require Import ZArith NArith List Lia Bool.
From Stdlib Require Import Floats.
From Stdlib Require Import String Ascii Sorted.
From Equations Require Import Equations.
Import ListNotations.
Local Open Scope Z_scope.

(** ** JavaScript strings, arrays and numbers *)

Module Js.

(** A string is its list of UTF-16 code units. *)
Definition CodeUnit := N.
Definition JsString := list CodeUnit.

(** An ASCII literal as a JavaScript string. *)
Definition js (s : string) : JsString :=
  map N_of_ascii (list_ascii_of_string s).

(** [s.length] and [array.length]. *)
Definition len {A : Type} (l : list A) : Z := Z.of_nat (List.length l).

(** [array[i]]: [None] is [undefined] (an index outside the array). *)
Definition index {A : Type} (array : list A) (i : Z) : option A :=
  if i <? 0 then None else nth_error array (Z.to_nat i).

(** [s.charCodeAt(i)]: [None] is [NaN]. *)
Definition charCodeAt (s : JsString) (i : Z) : option CodeUnit := index s i.

(** [ch === c] for a code [ch] that may be [NaN]. *)
Definition isChar (ch : option CodeUnit) (c : CodeUnit) : bool :=
  match ch with
  | Some x => N.eqb x c
  | None => false
  end.

(** [s.substring(start, end)]: both ends are clamped to [0, s.length] and
    swapped when out of order. *)
Definition substring (s : JsString) (start stop : Z) : JsString :=
  let finalStart := Z.min (Z.max start 0) (len s) in
  let finalEnd := Z.min (Z.max stop 0) (len s) in
  let from := Z.min finalStart finalEnd in
  let to := Z.max finalStart finalEnd in
  firstn (Z.to_nat (to - from)) (skipn (Z.to_nat from) s).

(** [s.substring(start)]. *)
Definition substringFrom (s : JsString) (start : Z) : JsString :=
  substring s start (len s).

(** The conversion of an integer to a signed 32-bit integer that the
    bit operators apply to their operands. *)
Definition ToInt32 (x : Z) : Z :=
  let m := x mod 2 ^ 32 in
  if m >=? 2 ^ 31 then m - 2 ^ 32 else m.

(** [x >> n]: sign-propagating right shift of the 32-bit value. *)
Definition sar (x n : Z) : Z := Z.shiftr (ToInt32 x) (n mod 32).

(** A number that may be [NaN] (here: an integer minus [undefined]). *)
Inductive Number : Type :=
| Num (z : Z)
| NaN.

Definition addNum (x : Number) (k : Z) : Number :=
  match x with
  | Num z => Num (z + k)
  | NaN => NaN
  end.

(** [value < elem] and [value >= elem] where [elem] may be [undefined]:
    a comparison with [undefined] is false. *)
Definition ltElem (value : Z) (elem : option Z) : bool :=
  match elem with
  | Some a => value <? a
  | None => false
  end.

Definition geElem (value : Z) (elem : option Z) : bool :=
  match elem with
  | Some a => value >=? a
  | None => false
  end.

End Js.

Import Js.

(** Keeping the equation of a scrutinee in a [with] clause. *)
Definition inspect {A : Type} (a : A) : {b : A | a = b} := exist _ a eq_refl.

(** ** src/line_table.ts *)

Module Chars.
Definition lineFeed : CodeUnit := 10%N.
Definition carriageReturn : CodeUnit := 13%N.
End Chars.

(** 1-based line and column numbers. *)
Record LineAndColumn1 : Type := mkLineAndColumn1 {
  line : Z;
  column : Number
}.

(** The [for] loop of the constructor, from index [i] with the line starts
    pushed so far.  Where a line feed follows the carriage return, the
    inner [++i] makes [i + 1 + 1] both the value pushed and the next
    index. *)
Equations? scanLines (text : JsString) (i : Z) (lineStarts : list Z) : list Z
  by wf (Z.to_nat (len text - i)) lt :=
  scanLines text i lineStarts with inspect (i <? len text) => {
    | exist _ false _ := lineStarts;
    | exist _ true Hlt :=
        if isChar (charCodeAt text i) Chars.lineFeed then
          scanLines text (i + 1) (lineStarts ++ [i + 1])
        else if isChar (charCodeAt text i) Chars.carriageReturn then
          if (i + 1 <? len text) && isChar (charCodeAt text (i + 1)) Chars.lineFeed
          then scanLines text (i + 1 + 1) (lineStarts ++ [i + 1 + 1])
          else scanLines text (i + 1) (lineStarts ++ [i + 1])
        else scanLines text (i + 1) lineStarts }.
Proof.
  all: apply Z.ltb_lt in Hlt; lia.
Qed.

(** The [while] loop of [getLowerBound].  Each unit of [fuel] pays for one
    iteration; [None] is a loop still running when the fuel is spent. *)
Fixpoint getLowerBound_loop (fuel : nat) (array : list Z) (value low high : Z)
  : option Z :=
  if low <? high then
    match fuel with
    | O => None
    | S fuel' =>
        let mid := high - sar (high - low) 1 in (* Get middle, rounding up. *)
        if ltElem value (index array mid)
        then getLowerBound_loop fuel' array value low (mid - 1)
        else getLowerBound_loop fuel' array value mid high
    end
  else Some low.

(** Returns the last element of [array] that is less than or equal to
    [value], or its first element if all elements are greater than [value].
    The array must be sorted and non-empty. *)
Definition getLowerBound (array : list Z) (value : Z) : option Z :=
  let low := 0 in
  let high := len array - 1 in
  if ltElem value (index array 0) then Some 0
  else if geElem value (index array high) then Some high
  else getLowerBound_loop (List.length array) array value low high.

(** Translates between offsets and 0-based line/column numbers. *)
Module LineTable.

Record t : Type := mk {
  lineStarts : list Z
}.

(** [new LineTable(text)]: the scan, then the end of the text as a last
    entry unless the last line start already is the end of the text. *)
Definition new (text : JsString) : t :=
  let lineStarts := scanLines text 0 [0] in
  let lineStarts :=
    match index lineStarts (len lineStarts - 1) with
    | Some lastStart =>
        if lastStart =? len text then lineStarts else lineStarts ++ [len text]
    | None => lineStarts ++ [len text]
    end in
  mk lineStarts.

(** [None] is [undefined]. *)
Definition getStartOfLine (this : t) (line : Z) : option Z :=
  index (lineStarts this) line.

(** [None] is a search that has not ended when its fuel is spent. *)
Definition getLineFromOffset (this : t) (offset : Z) : option Z :=
  getLowerBound (lineStarts this) offset.

(** [offset - start], which is [NaN] when [lineStarts[line]] is
    [undefined]. *)
Definition getColumnFromLineAndOffset (this : t) (line offset : Z) : Number :=
  match index (lineStarts this) line with
  | Some start => Num (offset - start)
  | None => NaN
  end.

Definition get1BasedLineAndColumn (this : t) (offset : Z)
  : option LineAndColumn1 :=
  match getLineFromOffset this offset with
  | Some line =>
      let column := getColumnFromLineAndOffset this line offset in
      Some (mkLineAndColumn1 (line + 1) (addNum column 1))
  | None => None
  end.

End LineTable.

(** ** src/index.ts: values received from the server *)

Set Warnings "-register-all,-inexact-float".

(** A value decoded from a response.  Only integral numbers are modelled:
    the program tests a number for being zero and nothing else. *)
Inductive JsValue : Type :=
| JUndefined
| JNull
| JBool (b : bool)
| JNumber (n : Z)
| JString (s : JsString)
| JArray (elems : list JsValue)
| JObject (fields : list (JsString * JsValue)).

(** The value of an own property of a decoded object, which binds each key
    once; the first binding is taken. *)
Fixpoint lookup (key : JsString) (fields : list (JsString * JsValue))
  : option JsValue :=
  match fields with
  | [] => None
  | (k, v) :: rest =>
      if list_eq_dec N.eq_dec k key then Some v else lookup key rest
  end.

(** [!v] is [negb (truthy v)]. *)
Definition truthy (v : JsValue) : bool :=
  match v with
  | JUndefined | JNull => false
  | JBool b => b
  | JNumber n => negb (n =? 0)
  | JString s => match s with [] => false | _ :: _ => true end
  | JArray _ | JObject _ => true
  end.

(** [Array.isArray(v)]. *)
Definition isArray (v : JsValue) : bool :=
  match v with
  | JArray _ => true
  | _ => false
  end.

(** ['items' in v]: a [TypeError] ([None]) when [v] is not an object; an
    array has its indices and [length] and no [items]. *)
Definition hasItems (v : JsValue) : option bool :=
  match v with
  | JObject fields =>
      Some (match lookup (js "items") fields with Some _ => true | None => false end)
  | JArray _ => Some false
  | _ => None
  end.

(** [v.length]: a [TypeError] ([None]) on [undefined] and [null]. *)
Definition getLength (v : JsValue) : option JsValue :=
  match v with
  | JUndefined | JNull => None
  | JArray elems => Some (JNumber (len elems))
  | JString s => Some (JNumber (len s))
  | JObject fields =>
      Some (match lookup (js "length") fields with
            | Some l => l
            | None => JUndefined
            end)
  | JBool _ | JNumber _ => Some JUndefined
  end.

(** [v.items] for a [v] that passed the [in] test. *)
Definition getItems (v : JsValue) : JsValue :=
  match v with
  | JObject fields =>
      match lookup (js "items") fields with
      | Some items => items
      | None => JUndefined
      end
  | _ => JUndefined
  end.

(** The [if] chain computing [numberOfResults] from [result];
    [None] is a thrown [TypeError]. *)
Definition numberOfResults (result : JsValue) : option JsValue :=
  if negb (truthy result) then Some (JNumber 0)
  else if isArray result then getLength result
  else
    match hasItems result with
    | None => None
    | Some true => getLength (getItems result)
    | Some false => Some (JNumber 1)
    end.

(** ** The regular expressions of [main] *)

(** A code unit within [lo, hi]. *)
Definition inRange (c lo hi : CodeUnit) : bool :=
  (N.leb lo c && N.leb c hi)%bool.

(** [[a-z_]] under the [i] flag: the class is compared after case folding,
    and no code unit outside ASCII folds into it. *)
Definition isWordStart (c : CodeUnit) : bool :=
  (inRange c 97 122 || inRange c 65 90 || N.eqb c 95)%N.

(** [[a-z_0-9]] under the [i] flag. *)
Definition isWordPart (c : CodeUnit) : bool :=
  (isWordStart c || inRange c 48 57)%N.

(** [\s]: the white space and line terminator code units. *)
Definition isWhiteSpace (c : CodeUnit) : bool :=
  (inRange c 9 13 || N.eqb c 32 || N.eqb c 160 || N.eqb c 5760 ||
   inRange c 8192 8202 || N.eqb c 8232 || N.eqb c 8233 || N.eqb c 8239 ||
   N.eqb c 8287 || N.eqb c 12288 || N.eqb c 65279)%N.

(** The first position at or after offset [i] of the text whose character
    can begin a word, with the characters from there on; [s] is the text
    from offset [i]. *)
Fixpoint findWordStart (s : JsString) (i : Z) : option (Z * JsString) :=
  match s with
  | [] => None
  | c :: rest =>
      if isWordStart c then Some (i, s) else findWordStart rest (i + 1)
  end.

(** The longest run of word characters at the head of [s]. *)
Fixpoint takeWordPart (s : JsString) : JsString :=
  match s with
  | [] => []
  | c :: rest => if isWordPart c then c :: takeWordPart rest else []
  end.

(** [wordRegex.exec(text)] with the regular expression's [lastIndex]:
    the next match of [/[a-z_][a-z_0-9]*/ig] as [(match.index, match[0])].
    A match leaves [lastIndex] at its end; [null] resets it to 0. *)
Definition wordRegex_exec (text : JsString) (lastIndex : Z)
  : option (Z * JsString) :=
  if len text <? lastIndex then None
  else
    match findWordStart (skipn (Z.to_nat lastIndex) text) lastIndex with
    | Some (matchIndex, c :: rest) => Some (matchIndex, c :: takeWordPart rest)
    | _ => None
    end.

(** [s] begins with [prefix]. *)
Fixpoint startsWith (prefix s : JsString) : bool :=
  match prefix, s with
  | [], _ => true
  | p :: prefix', c :: s' => N.eqb p c && startsWith prefix' s'
  | _ :: _, [] => false
  end.

(** The alternatives [(\*|\/\*|\/\/)] at the head of [s]. *)
Definition commentStart (s : JsString) : bool :=
  startsWith (js "*") s || startsWith (js "/*") s || startsWith (js "//") s.

(** [\s*(\*|\/\*|\/\/)] at the head of [s]: the greedy star first takes a
    white-space character, and gives it back when the rest does not
    match. *)
Fixpoint commentRegex_match (s : JsString) : bool :=
  match s with
  | [] => commentStart []
  | c :: rest =>
      (isWhiteSpace c && commentRegex_match rest) || commentStart s
  end.

(** [commentRegex.test(arg)] for [/^\s*(\*|\/\*|\/\/)/]; an [undefined]
    argument is tested as the string "undefined". *)
Definition commentRegex_test (arg : option JsString) : bool :=
  match arg with
  | Some s => commentRegex_match s
  | None => commentRegex_match (js "undefined")
  end.

(** [text.split(/\r\n?|\n/)], with the piece read since the last
    separator. *)
Fixpoint split_loop (s piece : JsString) : list JsString :=
  match s with
  | [] => [piece]
  | c :: rest =>
      if N.eqb c Chars.carriageReturn then
        match rest with
        | d :: rest' =>
            if N.eqb d Chars.lineFeed
            then piece :: split_loop rest' []
            else piece :: split_loop rest []
        | [] => piece :: split_loop rest []
        end
      else if N.eqb c Chars.lineFeed then piece :: split_loop rest []
      else split_loop rest (piece ++ [c])
  end.

Definition splitLines (text : JsString) : list JsString := split_loop text [].

(** ** Messages and measurements *)

(** [lsp.Position.create(line, character)]. *)
Module Position.
Record t : Type := create {
  line : Z;
  character : Number
}.
End Position.

(** What the program writes to the connection for a file.  A
    [didChange] notification carries one content change, the full text; a
    request carries the versioned identifier of the probe. *)
Inductive Message : Type :=
| DidOpenTextDocument (uri languageId : JsString) (version : Z) (text : JsString)
| DidChangeTextDocument (uri : JsString) (version : Z) (text : JsString)
| DefinitionRequest (uri : JsString) (version : Z) (position : Position.t)
| CompletionRequest (uri : JsString) (version : Z) (position : Position.t).

(** How an awaited request settles: with the result of the response
    ([undefined] when the response has none), or rejected. *)
Inductive Response : Type :=
| Result (result : JsValue)
| ResponseError.

Module Measurement.
Record t : Type := mk {
  file : JsString;
  line : Z;
  column : Number;
  time : float;
  numberOfResults : JsValue
}.
End Measurement.

(** [2 ^ 52]: a double of at least this magnitude is an integer. *)
Definition two52 : float := 4503599627370496%float.

(** [Math.round(x)] on doubles: [x] itself when it is [NaN], infinite or
    an integer (so [-0] stays [-0]); otherwise the integer nearest to [x],
    the greater one of two that are as near, and a zero with the sign of
    [x].  For a magnitude [a] below [2 ^ 52], adding and subtracting
    [2 ^ 52] gives an integer [r] next to [a], from which the floor [f]
    of [a] and the fraction [a - f] are exact. *)
Definition round (x : float) : float :=
  let a := PrimFloat.abs x in
  if PrimFloat.ltb a two52 then
    let r := PrimFloat.sub (PrimFloat.add a two52) two52 in
    if PrimFloat.eqb r a then x
    else
      let f := if PrimFloat.ltb a r then PrimFloat.sub r 1%float else r in
      let fraction := PrimFloat.sub a f in
      if PrimFloat.ltb x 0%float then
        if PrimFloat.leb fraction 0.5%float then PrimFloat.opp f
        else PrimFloat.opp (PrimFloat.add f 1%float)
      else
        if PrimFloat.leb 0.5%float fraction then PrimFloat.add f 1%float
        else f
  else x.

(** ** The loop of [main] over the words of a file *)

(** The locals of the loop ([versionNumber], the [lastIndex] of
    [wordRegex]), the messages written to the connection and the
    measurements handed to the reporter, oldest first. *)
Record State : Type := mkState {
  versionNumber : Z;
  lastIndex : Z;
  sent : list Message;
  reported : list Measurement.t
}.

(** How a run ends: the loop ran to its end; an awaited request was
    rejected or a [TypeError] was thrown, which rejects the promise of
    [main]; or the fuel of the model was spent. *)
Inductive Status : Type :=
| Completed
| Rejected
| OutOfFuel.

Section Main.

(** [options.jumpToDef]. *)
Variable jumpToDef : bool.

(** The server: how the request that ends the given messages settles. *)
Variable server : list Message -> Response.

(** [performance.now()] once the given messages have been written and the
    given measurements reported; a reading is a double, in
    milliseconds. *)
Variable now : list Message -> list Measurement.t -> float.

(** [fs.readFileSync(file, 'utf8')] and
    [pathToFileURL(fs.realpathSync(file)).toString()]. *)
Variable readFileSync : JsString -> JsString.
Variable fileUri : JsString -> JsString.

Section File.

Variables file uri text : JsString.
Variable lines : list JsString.
Variable lineTable : LineTable.t.

(** The body of the [while] loop for one match.  It returns the state it
    leaves and how it ends: [None] lets the loop go on (the body ran to
    its end, or left by [continue]). *)
Definition loopBody (matchIndex : Z) (replacedWord : JsString) (st : State)
  : State * option Status :=
  let matchEndIndex := matchIndex + len replacedWord in
  match LineTable.get1BasedLineAndColumn lineTable matchIndex with
  | None => (st, Some OutOfFuel)
  | Some lc =>
      let line := line lc in
      let column := column lc in
      if commentRegex_test (index lines (line - 1)) then (st, None)
      else
        let startPos := Position.create line column in
        let endPos := Position.create line (addNum column (len replacedWord)) in
        let startTime := now (sent st) (reported st) in
        let versionNumber := versionNumber st + 1 in
        let modifiedVersion := versionNumber in
        let replacedText :=
          if jumpToDef
          then (* jump-to-def: Insert a space afterward. *)
            substring text 0 matchEndIndex ++ js " " ++ substringFrom text matchEndIndex
          else (* completions: Delete the word. *)
            substring text 0 matchIndex ++ substringFrom text matchEndIndex in
        let sent1 :=
          sent st ++ [DidChangeTextDocument uri modifiedVersion replacedText] in
        let request :=
          if jumpToDef
          then DefinitionRequest uri modifiedVersion startPos
          else CompletionRequest uri modifiedVersion startPos in
        let sent2 := sent1 ++ [request] in
        match server sent2 with
        | ResponseError =>
            (mkState versionNumber (lastIndex st) sent2 (reported st),
             Some Rejected)
        | Result result =>
            (* Restore the original document, but bump version number again. *)
            let versionNumber := versionNumber + 1 in
            let sent3 := sent2 ++ [DidChangeTextDocument uri versionNumber text] in
            let endTime := now sent3 (reported st) in
            match numberOfResults result with
            | None =>
                (mkState versionNumber (lastIndex st) sent3 (reported st),
                 Some Rejected)
            | Some numberOfResults =>
                let measurement :=
                  Measurement.mk file line column
                    (round (endTime - startTime)%float) numberOfResults in
                (mkState versionNumber (lastIndex st) sent3
                   (reported st ++ [measurement]), None)
            end
        end
  end.

(** [while ((match = wordRegex.exec(text)) != null) { ... }]; each unit of
    [fuel] pays for one run of the body. *)
Fixpoint wordLoop (fuel : nat) (st : State) : State * Status :=
  match wordRegex_exec text (lastIndex st) with
  | None => (mkState (versionNumber st) 0 (sent st) (reported st), Completed)
  | Some (matchIndex, replacedWord) =>
      match fuel with
      | O => (st, OutOfFuel)
      | S fuel' =>
          let st1 := mkState (versionNumber st) (matchIndex + len replacedWord)
                             (sent st) (reported st) in
          match loopBody matchIndex replacedWord st1 with
          | (st2, None) => wordLoop fuel' st2
          | (st2, Some status) => (st2, status)
          end
      end
  end.

End File.

(** The body of [for (let file of config.files)], from the messages and
    measurements of the files before. *)
Definition benchFile (file : JsString) (sent0 : list Message)
  (reported0 : list Measurement.t) : State * Status :=
  let uri := fileUri file in
  let text := readFileSync file in
  let lines := splitLines text in
  let lineTable := LineTable.new text in
  let versionNumber := 1 in
  let sent1 := sent0 ++ [DidOpenTextDocument uri (js "codeql") versionNumber text] in
  wordLoop file uri text lines lineTable (List.length text)
    (mkState versionNumber 0 sent1 reported0).

(** [for (let file of config.files) { ... }]. *)
Fixpoint benchFiles (files : list JsString) (sent0 : list Message)
  (reported0 : list Measurement.t) : list Message * list Measurement.t * Status :=
  match files with
  | [] => (sent0, reported0, Completed)
  | file :: files' =>
      match benchFile file sent0 reported0 with
      | (st, Completed) => benchFiles files' (sent st) (reported st)
      | (st, status) => (sent st, reported st, status)
      end
  end.

End Main.
(** ** Reading the line table *)

(** A strictly increasing array, read by index. *)
Definition increasing (a : list Z) : Prop :=
  forall i j x y, i < j -> index a i = Some x -> index a j = Some y -> x < y.

(** A sorted array (equal neighbours allowed), read by index. *)
Definition sorted (a : list Z) : Prop :=
  forall i j x y, i <= j -> index a i = Some x -> index a j = Some y -> x <= y.


(** The offsets that follow the line terminators of [s], where [s] begins at
    offset [i] of the text: a reading of the constructor's scan by recursion
    on the remaining characters. *)
Fixpoint lineBreaks (s : JsString) (i : Z) : list Z :=
  match s with
  | [] => []
  | c :: rest =>
      if N.eqb c Chars.lineFeed then (i + 1) :: lineBreaks rest (i + 1)
      else if N.eqb c Chars.carriageReturn then
        match rest with
        | d :: rest' =>
            if N.eqb d Chars.lineFeed
            then (i + 1 + 1) :: lineBreaks rest' (i + 1 + 1)
            else (i + 1) :: lineBreaks rest (i + 1)
        | [] => (i + 1) :: lineBreaks rest (i + 1)
        end
      else lineBreaks rest (i + 1)
  end.


(** A line terminator character: line feed or carriage return. *)
Definition isTerminator (c : CodeUnit) : bool :=
  N.eqb c Chars.lineFeed || N.eqb c Chars.carriageReturn.

(** [l] is the line of [text] that holds [offset], between [before] and
    [after]: it has no terminator, holds the character at [offset], begins
    at the start of the text or after a terminator and ends at the end of
    the text or before a terminator. *)
Definition LineAt (text : JsString) (offset : Z) (before l after : JsString)
  : Prop :=
  text = before ++ l ++ after /\
  len before <= offset < len before + len l /\
  Forall (fun c => isTerminator c = false) l /\
  (before = [] \/ exists b c, before = b ++ [c] /\ isTerminator c = true) /\
  (after = [] \/ exists c a, after = c :: a /\ isTerminator c = true).

(** The cut between [b] and [s] does not fall between a carriage return
    and its line feed. *)
Definition cleanCut (b s : JsString) : bool :=
  negb (N.eqb (last b 0%N) Chars.carriageReturn
        && match s with
           | c :: _ => N.eqb c Chars.lineFeed
           | [] => false
           end).

(** ** Reading a run of the loop *)

(** A word of the text: a letter or underscore, then letters, digits and
    underscores. *)
Definition isWord (w : JsString) : Prop :=
  exists c rest, w = c :: rest /\ isWordStart c = true /\
                 Forall (fun d => isWordPart d = true) rest.

(** What follows a match of the word regular expression: the end of the
    text, or a character that cannot continue the word. *)
Definition endsWord (post : JsString) : Prop :=
  forall d post', post = d :: post' -> isWordPart d = false.

(** The versions carried by the [didOpen] and [didChange] notifications, in
    the order sent. *)
Fixpoint docVersions (msgs : list Message) : list Z :=
  match msgs with
  | [] => []
  | DidOpenTextDocument _ _ v _ :: rest => v :: docVersions rest
  | DidChangeTextDocument _ v _ :: rest => v :: docVersions rest
  | _ :: rest => docVersions rest
  end.

(** The text that the notifications sent so far leave at the server: that
    of the last [didOpen] or [didChange], starting from [doc]. *)
Fixpoint documentAfter (msgs : list Message) (doc : option JsString)
  : option JsString :=
  match msgs with
  | [] => doc
  | DidOpenTextDocument _ _ _ t :: rest => documentAfter rest (Some t)
  | DidChangeTextDocument _ _ t :: rest => documentAfter rest (Some t)
  | _ :: rest => documentAfter rest doc
  end.

(** The integers [first, first + 1, ...], [count] of them. *)
Fixpoint countFrom (first : Z) (count : nat) : list Z :=
  match count with
  | O => []
  | S count' => first :: countFrom (first + 1) count'
  end.

Section RunSpec.

Variable jumpToDef : bool.
Variable server : list Message -> Response.
Variable now : list Message -> list Measurement.t -> float.
Variables file uri text : JsString.

(** Everything written to the connection up to and including the
    [didOpen] of this file, and everything reported before this file. *)
Variable opened : list Message.
Variable reported0 : list Measurement.t.

(** The text of a probe for the word [w] between [pre] and [post]. *)
Definition probeText (pre w post : JsString) : JsString :=
  if jumpToDef then pre ++ w ++ js " " ++ post else pre ++ post.

(** The measured request of a probe. *)
Definition requestAt (version : Z) (position : Position.t) : Message :=
  if jumpToDef
  then DefinitionRequest uri version position
  else CompletionRequest uri version position.

(** The messages [tr] written after [opened] and the measurements [ms]
    reported after [reported0] by a sequence of completed cycles: each
    cycle is a probe of a word [w] of the text, between [pre] and [post],
    that is not on a comment line, the request at the position of
    the word, and the revert, and it reports one measurement. *)
Inductive Cycles : list Message -> list Measurement.t -> Prop :=
| Cycles_nil : Cycles [] []
| Cycles_snoc (tr : list Message) (ms : list Measurement.t)
    (pre w post : JsString) (lc : LineAndColumn1) (result n : JsValue) :
    Cycles tr ms ->
    text = pre ++ w ++ post ->
    isWord w ->
    endsWord post ->
    LineTable.get1BasedLineAndColumn (LineTable.new text) (len pre) = Some lc ->
    commentRegex_test (index (splitLines text) (line lc - 1)) = false ->
    let v := 1 + 2 * len ms in
    let probe := DidChangeTextDocument uri (v + 1) (probeText pre w post) in
    let request := requestAt (v + 1) (Position.create (line lc) (column lc)) in
    let revert := DidChangeTextDocument uri (v + 2) text in
    server (opened ++ tr ++ [probe; request]) = Result result ->
    numberOfResults result = Some n ->
    Cycles (tr ++ [probe; request; revert])
      (ms ++ [Measurement.mk file (line lc) (column lc)
                (round (now (opened ++ tr ++ [probe; request; revert])
                            (reported0 ++ ms)
                        - now (opened ++ tr) (reported0 ++ ms))%float)
                n]).

(** The state at the head of the loop: completed cycles only. *)
Definition AtHead (st : State) : Prop :=
  exists tr ms,
    sent st = opened ++ tr /\ reported st = reported0 ++ ms /\
    Cycles tr ms /\
    versionNumber st = 1 + 2 * len ms.

(** The state when the run ends: completed cycles, then the messages of a
    cycle cut short by a rejection. *)
Definition AtEnd (st : State) (status : Status) : Prop :=
  exists tr ms extra,
    sent st = opened ++ tr ++ extra /\ reported st = reported0 ++ ms /\
    Cycles tr ms /\
    (status = Completed -> extra = [] /\ versionNumber st = 1 + 2 * len ms).

End RunSpec.

(** The versions of the notifications written since [sent0] count up from 1
    to the current [versionNumber]. *)
Definition Versioned (sent0 : list Message) (st : State) : Prop :=
  exists tr,
    sent st = sent0 ++ tr /\ 0 <= versionNumber st /\
    docVersions tr = countFrom 1 (Z.to_nat (versionNumber st)).


(** The messages written and the measurements reported by the run of one
    file, which began with [sent0] written and [reported0] reported. *)
Definition written (sent0 : list Message) (st : State) : list Message :=
  skipn (List.length sent0) (sent st).

Definition measured (reported0 : list Measurement.t) (st : State)
  : list Measurement.t :=
  skipn (List.length reported0) (reported st).

(** A line whose first characters after its leading white space are "*",
    "/*" or "//". *)
Definition CommentLine (l : JsString) : Prop :=
  exists ws rest tail,
    l = ws ++ rest /\
    Forall (fun c => isWhiteSpace c = true) ws /\
    (rest = js "*" ++ tail \/ rest = js "/*" ++ tail \/ rest = js "//" ++ tail).

(** ** A concrete run, for the examples *)

(** A server that answers every request with [null], a clock that stands
    still, and a file system with one text. *)
Definition nullServer (sent : list Message) : Response := Result JNull.

Definition stillClock (sent : list Message) (reported : list Measurement.t)
  : float := 0%float.

Definition oneText (text : JsString) (file : JsString) : JsString := text.

Definition exampleUri (file : JsString) : JsString := js "file:///" ++ file.

(** The run of lsp-bench on a file "a.ql" that holds [text]. *)
Definition exampleRun (jumpToDef : bool) (text : JsString) : State * Status :=
  benchFile jumpToDef nullServer stillClock (oneText text) exampleUri
    (js "a.ql") [] [].

(** ** The matches that the loop of [main] visits *)

(** The matches of [while ((match = wordRegex.exec(text)) != null)], each
    call starting at the [lastIndex] that the call before left, for a loop
    whose body always runs to its end; each unit of [fuel] pays for one
    match, as in [wordLoop]. *)
Fixpoint matchesFrom (fuel : nat) (text : JsString) (lastIndex : Z)
  : list (Z * JsString) :=
  match wordRegex_exec text lastIndex with
  | None => []
  | Some (matchIndex, replacedWord) =>
      match fuel with
      | O => []
      | S fuel' =>
          (matchIndex, replacedWord)
            :: matchesFrom fuel' text (matchIndex + len replacedWord)
      end
  end.

(** The matches of a text, with the fuel that [benchFile] gives the
    loop. *)
Definition matchesOf (text : JsString) : list (Z * JsString) :=
  matchesFrom (List.length text) text 0.

(** [lineTable.get1BasedLineAndColumn(matchIndex)] for a match of the
    text. *)
Definition positionOf (text : JsString) (m : Z * JsString)
  : option LineAndColumn1 :=
  LineTable.get1BasedLineAndColumn (LineTable.new text) (fst m).

(** The test [commentRegex.test(lines[line - 1])] of the loop body for a
    match of the text. *)
Definition onCommentLine (text : JsString) (m : Z * JsString) : bool :=
  match positionOf text m with
  | Some lc => commentRegex_test (index (splitLines text) (line lc - 1))
  | None => false
  end.

(** The matches that the body does not leave by [continue]. *)
Definition probedMatches (text : JsString) : list (Z * JsString) :=
  filter (fun m => negb (onCommentLine text m)) (matchesOf text).

(** The position that a measurement reports. *)
Definition reportedPosition (m : Measurement.t) : option LineAndColumn1 :=
  Some (mkLineAndColumn1 (Measurement.line m) (Measurement.column m)).

(** What comes before a match of the word regular expression: no letter
    or underscore is joined to the match by word characters only, so the
    word characters just before the match, if any, are digits. *)
Definition beginsWord (pre : JsString) : Prop :=
  forall a b, pre = a ++ b ->
              Forall (fun d => isWordPart d = true) b ->
              Forall (fun d => isWordStart d = false) b.


(** ** src/index.ts: the command line *)

(** [a === b] on strings. *)
Fixpoint strEq (a b : JsString) : bool :=
  match a, b with
  | [], [] => true
  | x :: a', y :: b' => N.eqb x y && strEq a' b'
  | _, _ => false
  end.

(** [array.indexOf(x)] from index [i] on: -1 when [x] is not found. *)
Fixpoint indexOf_from (array : list JsString) (x : JsString) (i : Z) : Z :=
  match array with
  | [] => -1
  | y :: rest => if strEq y x then i else indexOf_from rest x (i + 1)
  end.

Definition indexOf (array : list JsString) (x : JsString) : Z :=
  indexOf_from array x 0.

(** [array.includes(x)]. *)
Definition includes (array : list JsString) (x : JsString) : bool :=
  existsb (fun y => strEq y x) array.

(** An index argument of [slice]: a negative one counts from the end, and
    the result is clamped to the array. *)
Definition relativeIndex {A : Type} (array : list A) (k : Z) : Z :=
  if k <? 0 then Z.max (len array + k) 0 else Z.min k (len array).

(** [array.slice(start, end)] and [array.slice(start)]. *)
Definition slice {A : Type} (array : list A) (start stop : Z) : list A :=
  let from := relativeIndex array start in
  let to := relativeIndex array stop in
  firstn (Z.to_nat (to - from)) (skipn (Z.to_nat from) array).

Definition sliceFrom {A : Type} (array : list A) (start : Z) : list A :=
  skipn (Z.to_nat (relativeIndex array start)) array.

(** The namespace [Reporters]. *)
Module Reporters.

Inductive t : Type :=
| human
| csv.

(** [Object.keys(Reporters)]. *)
Definition keys : list JsString := [js "human"; js "csv"].

(** [Reporters[format]]: [None] is [undefined]. *)
Definition get (format : JsString) : option t :=
  if strEq format (js "human") then Some human
  else if strEq format (js "csv") then Some csv
  else None.

End Reporters.

Module Options.
Record t : Type := mk {
  jumpToDef : bool;
  language : JsString;
  workspaceFolders : list JsString
}.
End Options.

Module Config.
Record t : Type := mk {
  files : list JsString;
  command : list JsString;
  options : Options.t
}.
End Config.

(** How [parseOptions] leaves by [process.exit(1)]: through [help], with
    the usage string on the standard output, or through [fail], with a
    message on the standard error. *)
Inductive Exit : Type :=
| Help
| Fail (msg : JsString).

(** The locals of [parseOptions] that its first loop assigns, with the
    global [reporter] ([None] is [undefined]). *)
Record Locals : Type := mkLocals {
  files : list JsString;
  jumpToDef : bool;
  language : JsString;
  workspaceFolders : list JsString;
  reporter : option Reporters.t
}.

(** [for (let arg of optionArgs) { ... }]. *)
Fixpoint optionLoop (optionArgs : list JsString) (st : Locals)
  : Locals + Exit :=
  match optionArgs with
  | [] => inl st
  | arg :: rest =>
      if negb (startsWith (js "-") arg) then
        optionLoop rest
          (mkLocals (files st ++ [arg]) (jumpToDef st) (language st)
             (workspaceFolders st) (reporter st))
      else if strEq arg (js "--jump") then
        optionLoop rest
          (mkLocals (files st) true (language st) (workspaceFolders st)
             (reporter st))
      else if startsWith (js "--format=") arg then
        let format := substringFrom arg (len (js "--format=")) in
        if negb (includes Reporters.keys format) then
          inr (Fail (js "Unrecognized format: " ++ format))
        else
          optionLoop rest
            (mkLocals (files st) (jumpToDef st) (language st)
               (workspaceFolders st) (Reporters.get format))
      else if startsWith (js "--language=") arg then
        optionLoop rest
          (mkLocals (files st) (jumpToDef st)
             (substringFrom arg (len (js "--language=")))
             (workspaceFolders st) (reporter st))
      else if startsWith (js "--workspace=") arg then
        optionLoop rest
          (mkLocals (files st) (jumpToDef st) (language st)
             (workspaceFolders st
                ++ [substringFrom arg (len (js "--workspace="))])
             (reporter st))
      else inr (Fail (js "Unrecognized flag: " ++ arg))
  end.

(** How a call of [parseOptions] ends: it returns a configuration, with
    the global [reporter] as the call leaves it, or the process exits. *)
Inductive Outcome : Type :=
| Returns (config : Config.t) (reporter : option Reporters.t)
| Exits (exit : Exit).

Section ParseOptions.

(** [fs.existsSync(file)], [fs.statSync(file).isDirectory()] for a file
    that exists, and [process.cwd()]. *)
Variable existsSync : JsString -> bool.
Variable isDirectory : JsString -> bool.
Variable cwd : JsString.

(** [for (let file of files) { ... }]: [None] when no file fails. *)
Fixpoint checkFiles (files : list JsString) : option Exit :=
  match files with
  | [] => None
  | file :: rest =>
      if negb (existsSync file) then
        Some (Fail (js "File not found: " ++ file))
      else if isDirectory file then
        Some (Fail (js "Input must be a file, not a directory: " ++ file))
      else checkFiles rest
  end.

(** [parseOptions()] with [process.argv]. *)
Definition parseOptions (argv : list JsString) : Outcome :=
  let args := sliceFrom argv 2 in
  let dash := indexOf args (js "--") in
  if dash =? -1 then Exits Help
  else
    let optionArgs := slice args 0 dash in
    let command := sliceFrom args (dash + 1) in
    match optionLoop optionArgs (mkLocals [] false (js "codeql") [] (Some Reporters.human)) with
    | inr exit => Exits exit
    | inl st =>
        match checkFiles (files st) with
        | Some exit => Exits exit
        | None =>
            let workspaceFolders :=
              if len (workspaceFolders st) =? 0
              then workspaceFolders st ++ [cwd]
              else workspaceFolders st in
            Returns
              (Config.mk (files st) command
                 (Options.mk (jumpToDef st) (language st) workspaceFolders))
              (reporter st)
        end
    end.

End ParseOptions.

(** ** A server that rejects, for the examples *)

(** A server that rejects every request. *)
Definition rejectingServer (sent : list Message) : Response := ResponseError.

(** ** Reading the command line *)

(** An argument that [parseOptions] takes as a file: it does not begin
    with "-". *)
Definition isFileArg (arg : JsString) : bool :=
  negb (startsWith (js "-") arg).

(** The value of an argument that begins with [prefix]: what follows the
    prefix. *)
Definition valueOf (prefix arg : JsString) : JsString :=
  substringFrom arg (len prefix).

(** An argument that [parseOptions] accepts: a file, "--jump", a format
    that is a key of [Reporters], a language or a workspace folder. *)
Definition accepted (arg : JsString) : bool :=
  isFileArg arg
  || strEq arg (js "--jump")
  || (startsWith (js "--format=") arg
      && includes Reporters.keys (valueOf (js "--format=") arg))
  || startsWith (js "--language=") arg
  || startsWith (js "--workspace=") arg.

(** The message of [fail] for an argument that is not accepted. *)
Definition complaint (arg : JsString) : JsString :=
  if startsWith (js "--format=") arg
  then js "Unrecognized format: " ++ valueOf (js "--format=") arg
  else js "Unrecognized flag: " ++ arg.

(** A file that passes the checks, and the message of [fail] for one
    that does not. *)
Definition usable (existsSync isDirectory : JsString -> bool)
  (file : JsString) : bool :=
  existsSync file && negb (isDirectory file).

Definition fileComplaint (existsSync : JsString -> bool) (file : JsString)
  : JsString :=
  if existsSync file
  then js "Input must be a file, not a directory: " ++ file
  else js "File not found: " ++ file.

(** [v] is the value of the last argument that begins with [prefix], or
    [default] when no argument does. *)
Definition LastOf (prefix : JsString) (args : list JsString)
  (default v : JsString) : Prop :=
  (v = default /\ Forall (fun a => startsWith prefix a = false) args) \/
  exists before after,
    args = before ++ (prefix ++ v) :: after /\
    Forall (fun a => startsWith prefix a = false) after.

(** A file system in which every path is a file, for the examples. *)
Definition everyFile (file : JsString) : bool := true.
Definition noDirectory (file : JsString) : bool := false.

(** A command line, for the examples: node, the script, the arguments of
    lsp-bench and the command of a server. *)
Definition exampleArgv : list JsString :=
  [js "node"; js "lsp-bench"; js "--jump"; js "--format=csv";
   js "--language=python"; js "a.ql"; js "--workspace=/w"; js "--";
   js "server"; js "--stdio"].

Definition exampleConfig : Config.t :=
  Config.mk [js "a.ql"] [js "server"; js "--stdio"]
    (Options.mk true (js "python") [js "/w"]).

(** ** src/index.ts: [main] *)

(** What [main] hands to the connection: the [initialize] request with
    the [uri] and the [name] of each workspace folder, the [initialized]
    notification, the messages of the files and the [exit]
    notification. *)
Inductive Outgoing : Type :=
| InitializeRequest (workspaceFolders : list (JsString * JsString))
| InitializedNotification
| Document (message : Message)
| ExitNotification.

(** A run of [main].  [main] awaits each send but the last: a send that
    it awaits has been written when [main] goes on, and [awaited] holds
    these sends in their order.  The [exit] notification is not awaited:
    right after the call [main] disposes of the connection and ends the
    process with [process.exit(0)], so nothing in [main] waits for it to
    be written; it is kept apart, in [notAwaited]. *)
Module MainRun.
Record t : Type := mk {
  awaited : list Outgoing;
  notAwaited : list Outgoing;
  measurements : list Measurement.t;
  status : Status
}.
End MainRun.

Section MainProgram.

(** The server: how the [initialize] request with the given folders
    settles, and how the request that ends the given messages of the
    files settles. *)
Variable initialize : list (JsString * JsString) -> Response.
Variable server : list Message -> Response.

Variable now : list Message -> list Measurement.t -> float.

(** [fs.readFileSync(file, 'utf8')], [fs.realpathSync(file)],
    [pathToFileURL(path).toString()] and [path.basename(folder)], for
    files that can be read. *)
Variable readFileSync : JsString -> JsString.
Variable realpathSync : JsString -> JsString.
Variable pathToFileURL : JsString -> JsString.
Variable basename : JsString -> JsString.


End MainProgram.



(** A clock that reads 259.638 until the probe of the first cycle is
    written and 1286.138 from then on, for the examples; the literals
    stand for the doubles nearest to them. *)
Definition exampleClock (sent : list Message) (reported : list Measurement.t)
  : float :=
  if (List.length sent <=? 1)%nat then 259.638%float else 1286.138%float.
(** ** Arrays read by index *)

Section IndexFacts.
Context {A : Type}.

Lemma index_Some (a : list A) (i : Z) (x : A) :
  index a i = Some x <-> 0 <= i /\ nth_error a (Z.to_nat i) = Some x.
Proof.
  unfold index. destruct (Z.ltb_spec i 0); split; intros H'.
  - discriminate.
  - lia.
  - split; [lia | assumption].
  - apply H'.
Qed.

Lemma index_in_range (a : list A) (i : Z) (x : A) :
  index a i = Some x -> 0 <= i < len a.
Proof.
  intros H. apply index_Some in H. destruct H as [H0 H].
  assert (Hn : nth_error a (Z.to_nat i) <> None) by congruence.
  apply nth_error_Some in Hn. unfold len. lia.
Qed.

Lemma index_defined (a : list A) (i : Z) :
  0 <= i < len a -> exists x, index a i = Some x.
Proof.
  intros H. unfold index, len in *.
  destruct (Z.ltb_spec i 0); [lia |].
  destruct (nth_error a (Z.to_nat i)) eqn:E; [eauto |].
  apply nth_error_None in E. lia.
Qed.

Lemma index_undefined (a : list A) (i : Z) :
  len a <= i -> index a i = None.
Proof.
  intros H. unfold index, len in *.
  destruct (Z.ltb_spec i 0); [reflexivity |].
  apply nth_error_None. lia.
Qed.

Lemma index_app_l (a b : list A) (i : Z) (x : A) :
  index a i = Some x -> index (a ++ b) i = Some x.
Proof.
  intros H. pose proof (index_in_range _ _ _ H) as Hr.
  apply index_Some in H. apply index_Some. split; [lia |].
  rewrite nth_error_app1; [apply H | unfold len in Hr; lia].
Qed.

Lemma index_app_r (a b : list A) (i : Z) :
  len a <= i -> index (a ++ b) i = index b (i - len a).
Proof.
  intros H. unfold index, len in *.
  destruct (Z.ltb_spec i 0); destruct (Z.ltb_spec (i - Z.of_nat (List.length a)) 0);
    try lia.
  rewrite nth_error_app2 by lia. f_equal. lia.
Qed.

Lemma len_app (a b : list A) : len (a ++ b) = len a + len b.
Proof. unfold len. rewrite length_app. lia. Qed.

Lemma len_nonneg (a : list A) : 0 <= len a.
Proof. unfold len. lia. Qed.

Lemma len_cons (x : A) (a : list A) : len (x :: a) = 1 + len a.
Proof. unfold len. simpl List.length. lia. Qed.

Lemma len_nil : len (@nil A) = 0.
Proof. reflexivity. Qed.

End IndexFacts.

Lemma increasing_sorted (a : list Z) : increasing a -> sorted a.
Proof.
  intros H i j x y Hij Hi Hj.
  destruct (Z.eq_dec i j) as [-> | Hne].
  - rewrite Hi in Hj. injection Hj as ->. lia.
  - assert (x < y) by (apply (H i j); [lia | assumption | assumption]). lia.
Qed.

Lemma StronglySorted_increasing (a : list Z) :
  StronglySorted Z.lt a -> increasing a.
Proof.
  induction 1 as [| h t Ht IH Hall]; intros i j x y Hij Hi Hj.
  - apply index_in_range in Hi. unfold len in Hi. simpl in Hi. lia.
  - apply index_Some in Hi. apply index_Some in Hj.
    destruct Hi as [Hi0 Hi], Hj as [Hj0 Hj].
    destruct (Z.to_nat j) as [| j'] eqn:Ej; [lia |].
    simpl in Hj.
    destruct (Z.to_nat i) as [| i'] eqn:Ei; simpl in Hi.
    + injection Hi as <-. rewrite Forall_forall in Hall. apply Hall.
      eapply nth_error_In. exact Hj.
    + apply (IH (Z.of_nat i') (Z.of_nat j')); [lia | |];
        apply index_Some; rewrite Nat2Z.id; split; try lia; assumption.
Qed.

(** ** The binary search *)

Lemma ToInt32_small (x : Z) : - 2 ^ 31 <= x < 2 ^ 31 -> ToInt32 x = x.
Proof.
  intros H. unfold ToInt32.
  destruct (Z_lt_le_dec x 0) as [Hneg | Hpos].
  - replace (x mod 2 ^ 32) with (x + 2 ^ 32).
    + destruct (Z.geb_spec (x + 2 ^ 32) (2 ^ 31)); lia.
    + apply Z.mod_unique with (q := -1); lia.
  - rewrite Z.mod_small by lia.
    destruct (Z.geb_spec x (2 ^ 31)); lia.
Qed.

Lemma sar_1_half (d : Z) : 0 <= d < 2 ^ 31 -> sar d 1 = d / 2.
Proof.
  intros H. unfold sar. rewrite ToInt32_small by lia.
  change (1 mod 32) with 1. rewrite Z.shiftr_div_pow2 by lia.
  reflexivity.
Qed.

(** The midpoint lies strictly above [low] and not above [high]. *)
Lemma mid_bounds (low high : Z) :
  low < high -> high - low < 2 ^ 31 ->
  low < high - sar (high - low) 1 <= high.
Proof.
  intros Hlt Hd. rewrite sar_1_half by lia.
  pose proof (Z.div_pos (high - low) 2).
  assert ((high - low) / 2 < high - low) by (apply Z.div_lt; lia).
  lia.
Qed.

Lemma getLowerBound_loop_total (fuel : nat) (array : list Z) (value : Z) :
  forall low high,
    high - low < 2 ^ 31 ->
    (Z.to_nat (high - low) <= fuel)%nat ->
    exists r, getLowerBound_loop fuel array value low high = Some r.
Proof.
  induction fuel as [| fuel IH]; intros low high Hd Hfuel.
  - simpl. destruct (Z.ltb_spec low high); [lia | eauto].
  - simpl. destruct (Z.ltb_spec low high) as [Hlt | Hge]; [| eauto].
    pose proof (mid_bounds low high Hlt Hd) as Hmid.
    destruct (ltElem value (index array (high - sar (high - low) 1)));
      apply IH; lia.
Qed.

(** The loop keeps [array[low] <= value] and [value < array[j]] for every
    [j] above [high], and ends with [low = high]. *)
Lemma getLowerBound_loop_spec (fuel : nat) (array : list Z) (value : Z) :
  sorted array ->
  forall low high,
    0 <= low <= high -> high < len array ->
    high - low < 2 ^ 31 ->
    (Z.to_nat (high - low) <= fuel)%nat ->
    (forall x, index array low = Some x -> x <= value) ->
    (forall j y, high < j -> index array j = Some y -> value < y) ->
    exists r,
      getLowerBound_loop fuel array value low high = Some r /\
      low <= r <= high /\
      (forall x, index array r = Some x -> x <= value) /\
      (forall j y, r < j -> index array j = Some y -> value < y).
Proof.
  intros Hsorted.
  induction fuel as [| fuel IH]; intros low high Hlh Hhigh Hd Hfuel Hlow Habove.
  - simpl. destruct (Z.ltb_spec low high); [lia |].
    exists low. repeat split; try lia; try assumption.
    intros j y Hj. apply Habove. lia.
  - simpl. destruct (Z.ltb_spec low high) as [Hlt | Hge].
    + pose proof (mid_bounds low high Hlt Hd) as Hmid.
      set (mid := high - sar (high - low) 1) in *.
      destruct (index_defined array mid) as [m Hm]; [lia |].
      rewrite Hm. simpl. destruct (Z.ltb_spec value m) as [Hvm | Hvm].
      * destruct (IH low (mid - 1)) as (r & Hr & Hrange & Hle & Hgt);
          try lia; try assumption.
        { intros j y Hj Hy.
          assert (m <= y) by (apply (Hsorted mid j); [lia | assumption | assumption]).
          lia. }
        exists r. repeat split; try lia; assumption.
      * destruct (IH mid high) as (r & Hr & Hrange & Hle & Hgt);
          try lia; try assumption.
        { intros x Hx. rewrite Hm in Hx. injection Hx as <-. exact Hvm. }
        exists r. repeat split; try lia; assumption.
    + exists low. repeat split; try lia; try assumption.
      intros j y Hj. apply Habove. lia.
Qed.

(** [getLowerBound] on a sorted, non-empty array of at most [2 ^ 31]
    elements returns an index of the array; below the first element it is
    [0], and otherwise it is the last index whose element does not exceed
    [value]. *)
Lemma getLowerBound_spec (array : list Z) (value : Z) :
  sorted array -> 0 < len array <= 2 ^ 31 ->
  exists r,
    getLowerBound array value = Some r /\
    0 <= r < len array /\
    (forall x, index array 0 = Some x -> value < x -> r = 0) /\
    (forall x, index array 0 = Some x -> x <= value ->
       (forall z, index array r = Some z -> z <= value) /\
       (forall j y, r < j -> index array j = Some y -> value < y)).
Proof.
  intros Hsorted Hlen. unfold getLowerBound.
  destruct (index_defined array 0) as [a0 H0]; [lia |].
  destruct (index_defined array (len array - 1)) as [aN HN]; [lia |].
  rewrite H0. simpl. destruct (Z.ltb_spec value a0) as [Hlt | Hge].
  - exists 0. split; [reflexivity |]. split; [lia |]. split.
    + reflexivity.
    + intros x Hx Hle. try rewrite H0 in Hx. injection Hx as <-. lia.
  - rewrite HN. simpl. destruct (Z.geb_spec value aN) as [HgeN | HltN].
    + exists (len array - 1). split; [reflexivity |]. split; [lia |]. split.
      * intros x Hx Hv. try rewrite H0 in Hx. injection Hx as <-. lia.
      * intros x Hx Hv. split.
        -- intros z Hz. rewrite HN in Hz. injection Hz as <-. lia.
        -- intros j y Hj Hy. apply index_in_range in Hy. lia.
    + destruct (getLowerBound_loop_spec (List.length array) array value Hsorted
                  0 (len array - 1)) as (r & Hr & Hrange & Hle & Hgt);
        try lia.
      * unfold len. lia.
      * intros x Hx. try rewrite H0 in Hx. injection Hx as <-. lia.
      * intros j y Hj Hy. apply index_in_range in Hy. lia.
      * exists r. split; [exact Hr |]. split; [lia |]. split.
        -- intros x Hx Hv. try rewrite H0 in Hx. injection Hx as <-. lia.
        -- intros x Hx Hv. split; assumption.
Qed.

(** ** The line starts of a text *)

Lemma skipn_charCodeAt (text : JsString) (i : Z) :
  0 <= i < len text ->
  exists c, charCodeAt text i = Some c /\
            skipn (Z.to_nat i) text = c :: skipn (Z.to_nat (i + 1)) text.
Proof.
  intros H. destruct (index_defined text i H) as [c Hc].
  exists c. split; [exact Hc |].
  apply index_Some in Hc. destruct Hc as [_ Hc].
  replace (Z.to_nat (i + 1)) with (S (Z.to_nat i)) by lia.
  generalize dependent (Z.to_nat i). clear H.
  induction text as [| a text IH]; intros n Hn.
  - destruct n; discriminate.
  - destruct n as [| n]; simpl in *.
    + injection Hn as ->. reflexivity.
    + apply IH. exact Hn.
Qed.

Lemma skipn_all_len {A : Type} (l : list A) (i : Z) :
  len l <= i -> skipn (Z.to_nat i) l = [].
Proof. intros H. apply skipn_all2. unfold len in H. lia. Qed.

Ltac scan_IH :=
  match goal with
  | IH : _ -> scanLines _ _ _ = _ |- _ => rewrite IH by lia
  end.

(** The scan of the constructor pushes exactly the offsets that follow the
    terminators of the rest of the text. *)
Lemma scanLines_lineBreaks (text : JsString) (i : Z) (ls : list Z) :
  0 <= i ->
  scanLines text i ls = ls ++ lineBreaks (skipn (Z.to_nat i) text) i.
Proof.
  funelim (scanLines text i ls); intros Hi.
  - pose proof (proj1 (Z.ltb_lt _ _) Hlt) as Hlt'.
    destruct (skipn_charCodeAt text i) as (c & Hc & Hskip); [lia |].
    rewrite Hskip, Hc. simpl.
    destruct (N.eqb c Chars.lineFeed) eqn:Elf.
    + scan_IH. rewrite <- app_assoc. reflexivity.
    + destruct (N.eqb c Chars.carriageReturn) eqn:Ecr.
      * destruct (Z.ltb_spec (i + 1) (len text)) as [Hnext | Hlast]; simpl.
        -- destruct (skipn_charCodeAt text (i + 1)) as (d & Hd & Hskip');
             [lia |].
           rewrite Hskip', Hd. simpl.
           destruct (N.eqb d Chars.lineFeed) eqn:Elf'.
           ++ scan_IH. rewrite <- app_assoc. reflexivity.
           ++ scan_IH. rewrite <- app_assoc, Hskip'. simpl.
              rewrite Elf'. reflexivity.
        -- scan_IH. rewrite <- app_assoc.
           rewrite (skipn_all_len text (i + 1)) by lia. reflexivity.
      * scan_IH. reflexivity.
  - pose proof (proj1 (Z.ltb_ge _ _) e) as Hge.
    rewrite skipn_all_len by lia. simpl.
    rewrite app_nil_r. reflexivity.
Qed.

Lemma lineBreaks_bounds_sorted (n : nat) :
  forall (s : JsString) (i : Z),
    (List.length s <= n)%nat ->
    StronglySorted Z.lt (lineBreaks s i) /\
    Forall (fun x => i < x <= i + len s) (lineBreaks s i).
Proof.
  induction n as [| n IH]; intros s i Hn.
  - destruct s; [| simpl in Hn; lia]. simpl. split; constructor.
  - destruct s as [| c rest]; [simpl; split; constructor |].
    assert (Hstep : forall k (t : JsString),
               (List.length t <= n)%nat -> 0 < k -> i + k + len t <= i + len (c :: rest) ->
               StronglySorted Z.lt ((i + k) :: lineBreaks t (i + k)) /\
               Forall (fun x => i < x <= i + len (c :: rest))
                      ((i + k) :: lineBreaks t (i + k))).
    { intros k t Ht Hk Hlen. destruct (IH t (i + k) Ht) as [Hs Hb].
      split.
      - constructor; [exact Hs |].
        eapply Forall_impl; [| exact Hb]. simpl. intros; lia.
      - constructor; [pose proof (len_nonneg t); lia |].
        eapply Forall_impl; [| exact Hb]. simpl. intros; lia. }
    assert (Hskip : StronglySorted Z.lt (lineBreaks rest (i + 1)) /\
                    Forall (fun x => i < x <= i + len (c :: rest))
                           (lineBreaks rest (i + 1))).
    { destruct (IH rest (i + 1)) as [Hs Hb]; [simpl in Hn; lia |].
      split; [exact Hs |].
      eapply Forall_impl; [| exact Hb]. rewrite ?len_cons. intros; lia. }
    simpl in Hn. simpl lineBreaks.
    destruct (N.eqb c Chars.lineFeed).
    + apply (Hstep 1 rest); [lia | lia | rewrite ?len_cons, ?len_nil; lia].
    + destruct (N.eqb c Chars.carriageReturn); [| exact Hskip].
      destruct rest as [| d rest'].
      * apply (Hstep 1 []); [simpl; lia | lia | rewrite ?len_cons, ?len_nil; lia].
      * destruct (N.eqb d Chars.lineFeed).
        -- replace (i + 1 + 1) with (i + 2) by lia.
           apply (Hstep 2 rest'); [simpl in *; lia | lia | rewrite ?len_cons, ?len_nil; lia].
        -- apply (Hstep 1 (d :: rest')); [simpl in *; lia | lia | rewrite ?len_cons, ?len_nil; lia].
Qed.

Lemma lineBreaks_sorted (s : JsString) (i : Z) :
  StronglySorted Z.lt (lineBreaks s i).
Proof. apply (lineBreaks_bounds_sorted (List.length s)). lia. Qed.

Lemma lineBreaks_bounds (s : JsString) (i : Z) :
  Forall (fun x => i < x <= i + len s) (lineBreaks s i).
Proof. apply (lineBreaks_bounds_sorted (List.length s)). lia. Qed.

(** The last element of a non-empty array. *)
Lemma index_last (a : list Z) (d : Z) :
  a <> [] -> index a (len a - 1) = Some (last a d).
Proof.
  intros Hne. apply index_Some.
  destruct a as [| x a]; [congruence |]. rewrite len_cons.
  pose proof (len_nonneg a) as Hlen. split; [lia |].
  replace (Z.to_nat (1 + len a - 1)) with (List.length a) by (unfold len; lia).
  clear Hne Hlen. revert x. induction a as [| y a IH]; intros x.
  - reflexivity.
  - simpl List.length. change (nth_error (x :: y :: a) (S (List.length a)))
      with (nth_error (y :: a) (List.length a)).
    rewrite IH. reflexivity.
Qed.

(** The array built by the constructor: offset 0, the offsets after the
    terminators, and the length of the text unless it is already last. *)
Lemma new_lineStarts (text : JsString) :
  LineTable.lineStarts (LineTable.new text) =
  let starts := 0 :: lineBreaks text 0 in
  if last starts 0 =? len text then starts else starts ++ [len text].
Proof.
  unfold LineTable.new. simpl LineTable.lineStarts.
  rewrite scanLines_lineBreaks by lia. simpl skipn. simpl app.
  rewrite (index_last _ 0) by discriminate. reflexivity.
Qed.

Lemma StronglySorted_snoc (l : list Z) (x : Z) :
  StronglySorted Z.lt l -> Forall (fun y => y < x) l ->
  StronglySorted Z.lt (l ++ [x]).
Proof.
  induction 1 as [| h t Ht IH Hall]; intros Hlt; simpl.
  - constructor; constructor.
  - inversion Hlt; subst. constructor.
    + apply IH. assumption.
    + apply Forall_app. split; [assumption |]. constructor; [assumption | constructor].
Qed.

Lemma last_bound (l : list Z) (d b : Z) :
  l <> [] -> Forall (fun y => y <= b) l -> last l d <= b.
Proof.
  intros Hne Hall. rewrite Forall_forall in Hall. apply Hall.
  destruct l as [| x l]; [congruence |].
  clear. revert x. induction l as [| y l IH]; intros x.
  - left. reflexivity.
  - right. apply (IH y).
Qed.

Lemma StronglySorted_last (l : list Z) (d : Z) :
  StronglySorted Z.lt l -> Forall (fun y => y <= last l d) l.
Proof.
  induction 1 as [| h t Ht IH Hall].
  - constructor.
  - destruct t as [| h' t'].
    + constructor; [simpl; lia | constructor].
    + change (last (h :: h' :: t') d) with (last (h' :: t') d).
      constructor.
      * inversion Hall; subst.
        inversion IH; subst. lia.
      * exact IH.
Qed.

(** The line starts of every text: strictly increasing, between 0 and the
    length of the text. *)
Lemma new_sorted_bounds (text : JsString) :
  StronglySorted Z.lt (LineTable.lineStarts (LineTable.new text)) /\
  Forall (fun x => 0 <= x <= len text) (LineTable.lineStarts (LineTable.new text)).
Proof.
  rewrite new_lineStarts. cbv zeta.
  assert (Hs : StronglySorted Z.lt (0 :: lineBreaks text 0)).
  { constructor; [apply lineBreaks_sorted |].
    eapply Forall_impl; [| apply (lineBreaks_bounds text 0)]. simpl. intros; lia. }
  assert (Hb : Forall (fun x => 0 <= x <= len text) (0 :: lineBreaks text 0)).
  { constructor; [pose proof (len_nonneg text); lia |].
    eapply Forall_impl; [| apply (lineBreaks_bounds text 0)]. simpl. intros; lia. }
  destruct (Z.eqb_spec (last (0 :: lineBreaks text 0) 0) (len text)) as [Heq | Hne].
  - split; assumption.
  - split.
    + apply StronglySorted_snoc; [exact Hs |].
      assert (Hlast : last (0 :: lineBreaks text 0) 0 <= len text).
      { apply last_bound; [discriminate |].
        eapply Forall_impl; [| exact Hb]. simpl. intros; lia. }
      eapply Forall_impl; [| apply (StronglySorted_last _ 0 Hs)].
      cbv beta. intros; lia.
    + apply Forall_app. split; [exact Hb |].
      constructor; [pose proof (len_nonneg text); lia | constructor].
Qed.

Lemma sorted_length_bound (l : list Z) :
  StronglySorted Z.lt l ->
  forall a b, Forall (fun x => a <= x <= b) l -> a <= b + 1 -> len l <= b - a + 1.
Proof.
  induction 1 as [| h t Ht IH Hall]; intros a b Hb Hab.
  - rewrite len_nil. lia.
  - inversion Hb as [| ? ? Hh Ht']; subst.
    assert (len t <= b - (h + 1) + 1).
    { apply IH; [| lia]. rewrite Forall_forall in *.
      intros x Hx. specialize (Hall x Hx). specialize (Ht' x Hx). lia. }
    rewrite len_cons. lia.
Qed.

Lemma new_len (text : JsString) :
  0 < len (LineTable.lineStarts (LineTable.new text)) <= len text + 1.
Proof.
  destruct (new_sorted_bounds text) as [Hs Hb]. split.
  - rewrite new_lineStarts. cbv zeta.
    destruct (_ =? _); rewrite ?len_app, ?len_cons; unfold len; lia.
  - pose proof (sorted_length_bound _ Hs 0 (len text) Hb).
    pose proof (len_nonneg text). lia.
Qed.

Lemma new_first (text : JsString) :
  index (LineTable.lineStarts (LineTable.new text)) 0 = Some 0.
Proof.
  rewrite new_lineStarts. cbv zeta. destruct (_ =? _); reflexivity.
Qed.

(** ** Looking up an offset in a constructed table *)

Lemma new_increasing (text : JsString) :
  increasing (LineTable.lineStarts (LineTable.new text)).
Proof. apply StronglySorted_increasing, new_sorted_bounds. Qed.

(** The lookup of an offset in the table of a text shorter than [2 ^ 31]:
    it returns a line of the table, the last one that starts at or before
    the offset (line 0 for a negative offset). *)
Lemma getLineFromOffset_spec (text : JsString) (offset : Z) :
  len text < 2 ^ 31 ->
  exists r,
    LineTable.getLineFromOffset (LineTable.new text) offset = Some r /\
    0 <= r < len (LineTable.lineStarts (LineTable.new text)) /\
    (offset < 0 -> r = 0) /\
    (0 <= offset ->
       (forall s, LineTable.getStartOfLine (LineTable.new text) r = Some s ->
                  s <= offset) /\
       (forall j s, r < j ->
                    LineTable.getStartOfLine (LineTable.new text) j = Some s ->
                    offset < s)).
Proof.
  intros Hlen. unfold LineTable.getLineFromOffset, LineTable.getStartOfLine.
  pose proof (new_len text) as Hn.
  destruct (getLowerBound_spec (LineTable.lineStarts (LineTable.new text)) offset)
    as (r & Hr & Hrange & Hbelow & Hwithin).
  - apply increasing_sorted, new_increasing.
  - lia.
  - exists r. split; [exact Hr |]. split; [exact Hrange |]. split.
    + intros Hneg. apply (Hbelow 0); [apply new_first | exact Hneg].
    + intros Hpos. apply (Hwithin 0); [apply new_first | exact Hpos].
Qed.

Lemma get1BasedLineAndColumn_defined (text : JsString) (offset : Z) :
  len text < 2 ^ 31 ->
  exists line0 start,
    LineTable.getLineFromOffset (LineTable.new text) offset = Some line0 /\
    LineTable.getStartOfLine (LineTable.new text) line0 = Some start /\
    LineTable.get1BasedLineAndColumn (LineTable.new text) offset
    = Some (mkLineAndColumn1 (line0 + 1) (Num (offset - start + 1))).
Proof.
  intros Hlen.
  destruct (getLineFromOffset_spec text offset Hlen) as (r & Hr & Hrange & _).
  destruct (index_defined _ r Hrange) as [start Hstart].
  exists r, start. split; [exact Hr |]. split; [exact Hstart |].
  unfold LineTable.get1BasedLineAndColumn, LineTable.getColumnFromLineAndOffset.
  rewrite Hr, Hstart. reflexivity.
Qed.

(** ** Carriage return and line feed *)

Lemma cleanCut_tail (a : CodeUnit) (b s : JsString) :
  cleanCut (a :: b) s = true -> cleanCut b s = true.
Proof.
  unfold cleanCut. destruct b as [| d b]; [| intros H; exact H].
  intros _. reflexivity.
Qed.

(** The breaks of a text cut at a clean cut are those of the two parts. *)
Lemma lineBreaks_cut (n : nat) :
  forall (b s : JsString) (i : Z),
    (List.length b <= n)%nat ->
    cleanCut b s = true ->
    lineBreaks (b ++ s) i = lineBreaks b i ++ lineBreaks s (i + len b).
Proof.
  induction n as [| n IH]; intros b s i Hn Hcut.
  - destruct b; [| simpl in Hn; lia].
    rewrite len_nil, Z.add_0_r. reflexivity.
  - destruct b as [| a b].
    { rewrite len_nil, Z.add_0_r. reflexivity. }
    simpl in Hn. rewrite len_cons.
    replace (i + (1 + len b)) with (i + 1 + len b) by lia.
    pose proof (cleanCut_tail _ _ _ Hcut) as Hcut'.
    remember (lineBreaks s) as tb eqn:Htb.
    change ((a :: b) ++ s) with (a :: (b ++ s)).
    cbn [lineBreaks].
    destruct (N.eqb a Chars.lineFeed).
    + rewrite IH, <- Htb by (assumption || lia). reflexivity.
    + destruct (N.eqb a Chars.carriageReturn) eqn:Ea.
      * destruct b as [| d b'].
        -- cbn [app]. unfold cleanCut in Hcut. cbn [last] in Hcut.
           rewrite Ea in Hcut. rewrite len_nil, Z.add_0_r.
           destruct s as [| c s']; [subst tb; reflexivity |].
           cbn [andb negb] in Hcut. apply negb_true_iff in Hcut.
           rewrite Hcut, <- Htb. reflexivity.
        -- cbn [app]. destruct (N.eqb d Chars.lineFeed).
           ++ rewrite IH, <- Htb
                by (simpl in Hn; try lia; eapply cleanCut_tail; exact Hcut').
              rewrite len_cons. cbn [app]. do 3 f_equal. lia.
           ++ change (d :: b' ++ s) with ((d :: b') ++ s).
              rewrite IH, <- Htb by (assumption || simpl in *; lia).
              reflexivity.
      * rewrite IH, <- Htb by (assumption || lia). reflexivity.
Qed.

(** A carriage return and line feed after [pre] make one break, after the
    line feed. *)
Lemma lineBreaks_crlf (pre post : JsString) (i : Z) :
  lineBreaks (pre ++ Chars.carriageReturn :: Chars.lineFeed :: post) i
  = lineBreaks pre i
    ++ (i + len pre + 2) :: lineBreaks post (i + len pre + 2).
Proof.
  rewrite (lineBreaks_cut (List.length pre))
    by (lia || (apply negb_true_iff, andb_false_r)).
  cbn [lineBreaks]. cbn [N.eqb Chars.carriageReturn Chars.lineFeed Pos.eqb].
  replace (i + len pre + 1 + 1) with (i + len pre + 2) by lia. reflexivity.
Qed.

Lemma in_lineStarts (text : JsString) (x : Z) :
  In x (LineTable.lineStarts (LineTable.new text)) <->
  x = 0 \/ In x (lineBreaks text 0) \/ x = len text.
Proof.
  rewrite new_lineStarts. cbv zeta.
  destruct (Z.eqb_spec (last (0 :: lineBreaks text 0) 0) (len text)) as [Heq | Hne].
  - split.
    + intros [H | H]; [left; congruence | right; left; exact H].
    + intros [H | [H | H]]; [left; congruence | right; exact H |].
      subst x. rewrite <- Heq.
      destruct (exists_last (l := 0 :: lineBreaks text 0)) as (l' & a & Hl);
        [discriminate |].
      rewrite Hl at 1. rewrite last_last. rewrite Hl.
      apply in_or_app. right. left. reflexivity.
  - rewrite in_app_iff. simpl. intuition congruence.
Qed.

(** ** The line of an offset *)

(** A stretch without terminators has no break. *)
Lemma lineBreaks_stretch (l s : JsString) (i : Z) :
  Forall (fun c => isTerminator c = false) l ->
  lineBreaks (l ++ s) i = lineBreaks s (i + len l).
Proof.
  intros Hl. revert i. induction Hl as [| c l Hc Hl IH]; intros i.
  - rewrite len_nil, Z.add_0_r. reflexivity.
  - unfold isTerminator in Hc. apply orb_false_iff in Hc. destruct Hc as [Hlf Hcr].
    cbn [app lineBreaks]. rewrite Hlf, Hcr, IH, len_cons. f_equal. lia.
Qed.

(** The breaks of a text that ends with a terminator end with the length
    of the text. *)
Lemma lineBreaks_last (b : JsString) (c : CodeUnit) (i : Z) :
  isTerminator c = true ->
  exists init, lineBreaks (b ++ [c]) i = init ++ [i + len b + 1].
Proof.
  intros Hc. unfold isTerminator in Hc. apply orb_true_iff in Hc.
  destruct Hc as [Hc | Hc]; apply N.eqb_eq in Hc; subst c.
  - destruct (N.eqb (last b 0%N) Chars.carriageReturn) eqn:Elast.
    + destruct b as [| a b] using rev_ind; [discriminate Elast |].
      rewrite last_last in Elast. apply N.eqb_eq in Elast. subst a.
      rewrite <- app_assoc. cbn [app]. rewrite lineBreaks_crlf, len_app, len_cons, len_nil.
      exists (lineBreaks b i). cbn [lineBreaks]. do 2 f_equal. lia.
    + rewrite (lineBreaks_cut (List.length b)) by (unfold cleanCut; try rewrite Elast; reflexivity || lia).
      exists (lineBreaks b i). reflexivity.
  - rewrite (lineBreaks_cut (List.length b)).
    + exists (lineBreaks b i). reflexivity.
    + lia.
    + unfold cleanCut. cbn. apply negb_true_iff, andb_false_r.
Qed.

Lemma index_In {A : Type} (a : list A) (i : Z) (x : A) :
  index a i = Some x -> In x a.
Proof.
  intros H. apply index_Some in H. destruct H as [_ H].
  eapply nth_error_In. exact H.
Qed.

(** The table of a text around the line of an offset: the line starts up
    to the start of that line, then line starts beyond the offset. *)
Lemma lineStarts_LineAt (text : JsString) (offset : Z) (before l after : JsString) :
  LineAt text offset before l after ->
  exists init tail,
    LineTable.lineStarts (LineTable.new text) = (init ++ [len before]) ++ tail /\
    List.length init = List.length (lineBreaks before 0) /\
    Forall (fun s => offset < s) tail.
Proof.
  intros (Htext & Hrange & Hl & Hbefore & Hafter).
  assert (Hbreaks : lineBreaks text 0
                    = lineBreaks before 0
                      ++ lineBreaks after (0 + len before + len l)).
  { assert (Hcut : cleanCut before (l ++ after) = true).
    { destruct l as [| c l']; [rewrite len_nil in Hrange; lia |].
      inversion Hl as [| ? ? Hc _]; subst.
      unfold isTerminator in Hc. apply orb_false_iff in Hc.
      unfold cleanCut. cbn [app]. rewrite (proj1 Hc).
      apply negb_true_iff, andb_false_r. }
    rewrite Htext.
    rewrite (lineBreaks_cut (List.length before)), lineBreaks_stretch
      by (assumption || lia).
    reflexivity. }
  assert (Hlen : len text = len before + len l + len after)
    by (rewrite Htext, !len_app; lia).
  pose proof (len_nonneg after) as Hafter_len.
  assert (Htail : Forall (fun s => offset < s)
                    (lineBreaks after (0 + len before + len l))).
  { eapply Forall_impl; [| apply lineBreaks_bounds]. cbv beta. intros; lia. }
  assert (Hstarts : exists init,
             0 :: lineBreaks before 0 = init ++ [len before] /\
             List.length init = List.length (lineBreaks before 0)).
  { destruct Hbefore as [-> | (b & c & -> & Hc)].
    - exists []. split; reflexivity.
    - destruct (lineBreaks_last b c 0 Hc) as [init Hinit].
      exists (0 :: init). rewrite Hinit, len_app. change (len [c]) with 1.
      split; [cbn [app]; do 3 f_equal; lia |].
      rewrite length_app. simpl. lia. }
  destruct Hstarts as (init & Hinit & Hinit_len).
  rewrite new_lineStarts. cbv zeta. rewrite Hbreaks.
  change (0 :: lineBreaks before 0 ++ lineBreaks after (0 + len before + len l))
    with ((0 :: lineBreaks before 0) ++ lineBreaks after (0 + len before + len l)).
  rewrite Hinit.
  destruct (_ =? _).
  - exists init, (lineBreaks after (0 + len before + len l)).
    repeat split; assumption.
  - exists init, (lineBreaks after (0 + len before + len l) ++ [len text]).
    rewrite <- app_assoc. repeat split; try assumption.
    apply Forall_app. split; [exact Htail |].
    constructor; [lia | constructor].
Qed.

(** The lookup of an offset finds the line that holds it: its number is
    the number of breaks before the line, and its start is the start of
    the line. *)
Lemma getLineFromOffset_LineAt (text : JsString) (offset : Z)
  (before l after : JsString) :
  len text < 2 ^ 31 ->
  LineAt text offset before l after ->
  let line0 := Z.of_nat (List.length (lineBreaks before 0)) in
  LineTable.getLineFromOffset (LineTable.new text) offset = Some line0 /\
  LineTable.getStartOfLine (LineTable.new text) line0 = Some (len before).
Proof.
  intros Hlen Hline line0.
  destruct (lineStarts_LineAt _ _ _ _ _ Hline) as (init & tail & Hstarts & Hinit & Htail).
  destruct Hline as (_ & Hrange & _).
  assert (Hstart : LineTable.getStartOfLine (LineTable.new text) line0
                   = Some (len before)).
  { unfold LineTable.getStartOfLine. rewrite Hstarts.
    apply index_app_l. rewrite index_app_r by (unfold len, line0; lia).
    replace (line0 - len init) with 0 by (unfold len, line0; lia).
    reflexivity. }
  split; [| exact Hstart].
  destruct (getLineFromOffset_spec text offset Hlen)
    as (r & Hr & Hrrange & _ & Hpos).
  rewrite Hr. f_equal.
  destruct (Hpos ltac:(pose proof (len_nonneg before); lia)) as [Hle Hgt].
  destruct (Z.lt_trichotomy r line0) as [Hlt | [Heq | Hgt']]; [| exact Heq |].
  - pose proof (Hgt line0 (len before) Hlt Hstart). lia.
  - destruct (index_defined _ r Hrrange) as [s Hs].
    pose proof (Hle s Hs) as Hs_le.
    unfold LineTable.getStartOfLine in Hs. rewrite Hstarts in Hs.
    rewrite index_app_r in Hs
      by (rewrite len_app, len_cons, len_nil; unfold len, line0 in *; lia).
    apply index_In in Hs. rewrite Forall_forall in Htail. apply Htail in Hs. lia.
Qed.

(** ** Substrings *)

Lemma firstn_skipn_len {A : Type} (l : list A) (n : Z) :
  0 <= n <= len l -> len (firstn (Z.to_nat n) l) = n.
Proof.
  intros H. unfold len in *. rewrite length_firstn. lia.
Qed.

Lemma substring_prefix (pre rest : JsString) :
  substring (pre ++ rest) 0 (len pre) = pre.
Proof.
  unfold substring. rewrite len_app.
  pose proof (len_nonneg pre). pose proof (len_nonneg rest).
  replace (Z.max 0 0) with 0 by reflexivity.
  rewrite (Z.min_l 0) by lia.
  rewrite (Z.max_l (len pre)) by lia.
  rewrite (Z.min_l (len pre)) by lia.
  rewrite Z.min_l, Z.max_r by lia.
  simpl skipn. rewrite Z.sub_0_r. unfold len. rewrite Nat2Z.id.
  rewrite firstn_app, Nat.sub_diag, firstn_all. simpl. apply app_nil_r.
Qed.

Lemma substringFrom_suffix (pre rest : JsString) :
  substringFrom (pre ++ rest) (len pre) = rest.
Proof.
  unfold substringFrom, substring. rewrite len_app.
  pose proof (len_nonneg pre). pose proof (len_nonneg rest).
  rewrite (Z.max_l (len pre)) by lia.
  rewrite (Z.min_l (len pre)) by lia.
  rewrite (Z.max_l (len pre + len rest)) by lia.
  rewrite (Z.min_l (len pre + len rest)) by lia.
  rewrite Z.min_l, Z.max_r by lia.
  unfold len. rewrite Nat2Z.id.
  rewrite skipn_app, Nat.sub_diag, skipn_all. simpl.
  replace (Z.to_nat _) with (List.length rest) by lia.
  apply firstn_all.
Qed.

(** ** The word regular expression *)

Lemma findWordStart_spec (s : JsString) :
  forall i j s',
    findWordStart s i = Some (j, s') ->
    exists skipped c rest,
      s = skipped ++ c :: rest /\ s' = c :: rest /\ j = i + len skipped /\
      isWordStart c = true /\
      Forall (fun d => isWordStart d = false) skipped.
Proof.
  induction s as [| c s IH]; intros i j s' H; simpl in H; [discriminate |].
  destruct (isWordStart c) eqn:Ec.
  - injection H as <- <-. exists [], c, s. rewrite len_nil.
    repeat split; try reflexivity; [lia | assumption | constructor].
  - destruct (IH _ _ _ H) as (skipped & c' & rest & -> & -> & -> & Hc' & Hsk).
    exists (c :: skipped), c', rest. rewrite len_cons.
    repeat split; try reflexivity; [lia | assumption |].
    constructor; assumption.
Qed.

Lemma takeWordPart_spec (s : JsString) :
  exists rem, s = takeWordPart s ++ rem /\
              Forall (fun d => isWordPart d = true) (takeWordPart s) /\
              (forall d rem', rem = d :: rem' -> isWordPart d = false).
Proof.
  induction s as [| c s (rem & Hs & Hall & Hmax)]; simpl.
  - exists []. repeat split; [constructor | discriminate].
  - destruct (isWordPart c) eqn:Ec.
    + exists rem. split; [simpl; f_equal; exact Hs |].
      split; [constructor; assumption | exact Hmax].
    + exists (c :: s). split; [reflexivity |]. split; [constructor |].
      intros d rem' H. injection H as <- <-. exact Ec.
Qed.

(** A match of the word regular expression: a word of the text that
    begins at [match.index], at or after [lastIndex]. *)
Lemma wordRegex_exec_spec (text : JsString) (lastIndex matchIndex : Z)
  (replacedWord : JsString) :
  0 <= lastIndex ->
  wordRegex_exec text lastIndex = Some (matchIndex, replacedWord) ->
  exists pre post,
    text = pre ++ replacedWord ++ post /\ len pre = matchIndex /\
    isWord replacedWord /\ endsWord post /\ lastIndex <= matchIndex.
Proof.
  intros Hli H. unfold wordRegex_exec in H.
  destruct (Z.ltb_spec (len text) lastIndex) as [Hgt | Hle]; [discriminate |].
  destruct (findWordStart _ _) as [[j s'] |] eqn:Ef; [| discriminate].
  destruct (findWordStart_spec _ _ _ _ Ef)
    as (skipped & c & rest & Hs & -> & -> & Hc & Hsk).
  injection H as <- <-.
  destruct (takeWordPart_spec rest) as (rem & Hrest & Hall & Hmax).
  exists (firstn (Z.to_nat lastIndex) text ++ skipped), rem.
  split; [| split; [| split; [| split]]].
  - rewrite <- (firstn_skipn (Z.to_nat lastIndex) text) at 1.
    rewrite Hs, <- app_assoc. simpl. rewrite <- Hrest. reflexivity.
  - rewrite len_app, firstn_skipn_len by lia. reflexivity.
  - exists c, (takeWordPart rest). repeat split; assumption.
  - exact Hmax.
  - pose proof (len_nonneg skipped). lia.
Qed.

Lemma isWord_len (w : JsString) : isWord w -> 0 < len w.
Proof.
  intros (c & rest & -> & _). rewrite len_cons.
  pose proof (len_nonneg rest). lia.
Qed.

(** ** Versions *)

Lemma countFrom_snoc (first : Z) (count : nat) :
  countFrom first (S count) = countFrom first count ++ [first + Z.of_nat count].
Proof.
  revert first. induction count as [| count IH]; intros first.
  - simpl. f_equal. lia.
  - change (countFrom first (S (S count)))
      with (first :: countFrom (first + 1) (S count)).
    rewrite IH. simpl. do 2 f_equal. f_equal. lia.
Qed.

Lemma docVersions_app (a b : list Message) :
  docVersions (a ++ b) = docVersions a ++ docVersions b.
Proof.
  induction a as [| m a IH]; [reflexivity |].
  destruct m; simpl; rewrite IH; reflexivity.
Qed.

Lemma countFrom_length (first : Z) (count : nat) :
  List.length (countFrom first count) = count.
Proof.
  revert first. induction count as [| count IH]; intros first; simpl;
    [| rewrite IH]; reflexivity.
Qed.

Lemma countFrom_nth (count : nat) :
  forall first k, (k < count)%nat ->
    nth_error (countFrom first count) k = Some (first + Z.of_nat k).
Proof.
  induction count as [| count IH]; intros first k Hk; [lia |].
  destruct k as [| k]; simpl.
  - f_equal. lia.
  - rewrite IH by lia. f_equal. lia.
Qed.

Lemma countFrom_sorted (count : nat) :
  forall first, StronglySorted Z.lt (countFrom first count).
Proof.
  induction count as [| count IH]; intros first; simpl; constructor.
  - apply IH.
  - apply Forall_forall. intros x Hx.
    apply In_nth_error in Hx. destruct Hx as [k Hk].
    assert (Hlt : (k < count)%nat).
    { rewrite <- (countFrom_length (first + 1) count).
      apply nth_error_Some. congruence. }
    rewrite countFrom_nth in Hk by exact Hlt. injection Hk as <-. lia.
Qed.

Lemma documentAfter_app (a b : list Message) (doc : option JsString) :
  documentAfter (a ++ b) doc = documentAfter b (documentAfter a doc).
Proof.
  revert doc. induction a as [| m a IH]; intros doc; [reflexivity |].
  destruct m; simpl; apply IH.
Qed.

(** ** One run of the loop body *)

Section LoopFacts.

Variable jumpToDef : bool.
Variable server : list Message -> Response.
Variable now : list Message -> list Measurement.t -> float.
Variables file uri text : JsString.
Variable opened : list Message.
Variable reported0 : list Measurement.t.

Let body := loopBody jumpToDef server now file uri text
              (splitLines text) (LineTable.new text).
Let loop := wordLoop jumpToDef server now file uri text
              (splitLines text) (LineTable.new text).

Local Abbreviation atHead :=
  (AtHead jumpToDef server now file uri text opened reported0).
Local Abbreviation atEnd :=
  (AtEnd jumpToDef server now file uri text opened reported0).

Lemma probe_text (pre w post : JsString) :
  text = pre ++ w ++ post ->
  (if jumpToDef
   then substring text 0 (len pre + len w) ++ js " "
        ++ substringFrom text (len pre + len w)
   else substring text 0 (len pre) ++ substringFrom text (len pre + len w))
  = probeText jumpToDef pre w post.
Proof.
  intros H. rewrite H. unfold probeText. rewrite <- len_app.
  rewrite (app_assoc pre w post).
  rewrite (substring_prefix (pre ++ w) post), (substringFrom_suffix (pre ++ w) post).
  rewrite <- (app_assoc pre w post), (substring_prefix pre (w ++ post)).
  destruct jumpToDef; [rewrite <- app_assoc |]; reflexivity.
Qed.

Lemma body_AtHead (pre w post : JsString) (st : State) :
  text = pre ++ w ++ post -> isWord w -> endsWord post -> atHead st ->
  forall st' flow,
    body (len pre) w st = (st', flow) ->
    lastIndex st' = lastIndex st /\
    match flow with
    | None => atHead st'
    | Some status => status <> Completed /\ atEnd st' status
    end.
Proof.
  intros Htext Hw Hpost (tr & ms & Hsent & Hrep & Hcycles & Hv) st' flow.
  unfold body, loopBody.
  destruct (LineTable.get1BasedLineAndColumn _ _) as [lc |] eqn:Elc.
  2:{ intros [<- <-]%pair_equal_spec. split; [reflexivity |].
      split; [discriminate |]. exists tr, ms, [].
      rewrite app_nil_r. repeat split; try assumption; discriminate. }
  destruct (commentRegex_test _) eqn:Ecomment.
  { intros [<- <-]%pair_equal_spec. split; [reflexivity |].
    exists tr, ms. repeat split; assumption. }
  cbv zeta. rewrite (probe_text pre w post Htext).
  rewrite Hsent, Hv, <- !app_assoc. cbn [app].
  fold (requestAt jumpToDef uri (1 + 2 * len ms + 1)
          (Position.create (line lc) (column lc))).
  destruct (server _) as [result |] eqn:Eserver.
  2:{ intros [<- <-]%pair_equal_spec. cbn [lastIndex]. split; [reflexivity |].
      split; [discriminate |].
      eexists tr, ms, _. cbn [sent reported versionNumber].
      repeat split; try eassumption; try reflexivity; discriminate. }
  destruct (numberOfResults result) as [n |] eqn:En.
  2:{ intros [<- <-]%pair_equal_spec. cbn [lastIndex]. split; [reflexivity |].
      split; [discriminate |].
      eexists tr, ms, _. cbn [sent reported versionNumber].
      repeat split; try eassumption; try reflexivity; discriminate. }
  intros [<- <-]%pair_equal_spec. cbn [lastIndex]. split; [reflexivity |].
  eexists (tr ++ [_; _; _]), (ms ++ [_]). cbn [sent reported versionNumber].
  split; [reflexivity |].
  split; [rewrite Hrep, <- app_assoc; reflexivity |].
  split.
  - replace (1 + 2 * len ms + 1 + 1) with (1 + 2 * len ms + 2) by lia.
    eapply Cycles_snoc; eassumption.
  - rewrite len_app, len_cons, len_nil. lia.
Qed.

Lemma loop_AtEnd (fuel : nat) :
  forall st, atHead st -> 0 <= lastIndex st ->
  forall st' status, loop fuel st = (st', status) -> atEnd st' status.
Proof.
  induction fuel as [| fuel IH]; intros st Hhead Hli st' status;
    unfold loop in *; cbn [wordLoop];
    destruct (wordRegex_exec text (lastIndex st)) as [[mi w] |] eqn:Eexec.
  - intros [<- <-]%pair_equal_spec.
    destruct Hhead as (tr & ms & Hsent & Hrep & Hcycles & Hv).
    exists tr, ms, []. rewrite app_nil_r.
    repeat split; try assumption; discriminate.
  - intros [<- <-]%pair_equal_spec.
    destruct Hhead as (tr & ms & Hsent & Hrep & Hcycles & Hv).
    exists tr, ms, []. rewrite app_nil_r. cbn [sent reported versionNumber].
    repeat split; assumption.
  - destruct (wordRegex_exec_spec _ _ _ _ Hli Eexec)
      as (pre & post & Htext & Hpre & Hw & Hpost & Hle).
    set (st1 := mkState _ _ _ _).
    assert (Hhead1 : atHead st1).
    { destruct Hhead as (tr & ms & Hsent & Hrep & Hcycles & Hv).
      exists tr, ms. repeat split; assumption. }
    destruct (loopBody _ _ _ _ _ _ _ _ mi w st1) as [st2 flow] eqn:Ebody.
    rewrite <- Hpre in Ebody.
    destruct (body_AtHead pre w post st1 Htext Hw Hpost Hhead1 st2 flow Ebody)
      as [Hli2 Hflow].
    destruct flow as [status' |].
    + intros [<- <-]%pair_equal_spec. apply Hflow.
    + apply IH; [exact Hflow |]. rewrite Hli2. subst st1. cbn [lastIndex].
      pose proof (isWord_len w Hw). lia.
  - intros [<- <-]%pair_equal_spec.
    destruct Hhead as (tr & ms & Hsent & Hrep & Hcycles & Hv).
    exists tr, ms, []. rewrite app_nil_r. cbn [sent reported versionNumber].
    repeat split; assumption.
Qed.

(** With one unit of fuel for each character that is left, the loop runs
    to its end or to a rejection. *)
Lemma loop_fuel (fuel : nat) :
  len text < 2 ^ 31 ->
  forall st, 0 <= lastIndex st ->
    (Z.to_nat (len text - lastIndex st) <= fuel)%nat ->
    snd (loop fuel st) <> OutOfFuel.
Proof.
  intros Hlen. induction fuel as [| fuel IH]; intros st Hli Hfuel;
    unfold loop in *; cbn [wordLoop];
    destruct (wordRegex_exec text (lastIndex st)) as [[mi w] |] eqn:Eexec;
    try (cbn [snd]; discriminate);
    destruct (wordRegex_exec_spec _ _ _ _ Hli Eexec)
      as (pre & post & Htext & Hpre & Hw & _ & Hle);
    pose proof (isWord_len w Hw) as Hwlen;
    assert (Hend : mi + len w <= len text)
      by (rewrite Htext, !len_app; pose proof (len_nonneg post); lia).
  - lia.
  - unfold loopBody. cbn [lastIndex].
    destruct (get1BasedLineAndColumn_defined text mi Hlen)
      as (line0 & start & _ & _ & ->).
    cbv zeta.
    destruct (commentRegex_test _).
    + apply IH; cbn [lastIndex]; lia.
    + destruct (server _) as [result |]; [| cbn [snd]; discriminate].
      destruct (numberOfResults result); [| cbn [snd]; discriminate].
      apply IH; cbn [lastIndex]; lia.
Qed.

Lemma body_Versioned (sent0 : list Message) (mi : Z) (w : JsString) (st : State) :
  Versioned sent0 st -> Versioned sent0 (fst (body mi w st)).
Proof.
  intros (tr & Hsent & Hv & Hdoc). unfold body, loopBody.
  assert (Hstep1 : docVersions tr ++ [versionNumber st + 1]
                   = countFrom 1 (Z.to_nat (versionNumber st + 1))).
  { rewrite Hdoc, Z2Nat.inj_add, Nat.add_1_r, countFrom_snoc by lia.
    do 2 f_equal. lia. }
  assert (Hstep2 : (docVersions tr ++ [versionNumber st + 1])
                     ++ [versionNumber st + 1 + 1]
                   = countFrom 1 (Z.to_nat (versionNumber st + 1 + 1))).
  { rewrite Hstep1, (Z2Nat.inj_add (versionNumber st + 1) 1), Nat.add_1_r,
      countFrom_snoc by lia.
    do 2 f_equal. lia. }
  destruct (LineTable.get1BasedLineAndColumn _ _) as [lc |];
    [| exists tr; repeat split; assumption].
  destruct (commentRegex_test _); [exists tr; repeat split; assumption |].
  cbv zeta. rewrite Hsent, <- !app_assoc. cbn [app].
  destruct (server _) as [result |].
  - destruct (numberOfResults result); cbn [fst];
      (eexists; cbn [sent versionNumber]; split; [reflexivity |];
       split; [lia |];
       rewrite docVersions_app; cbn [docVersions];
       destruct jumpToDef; cbn [docVersions];
       rewrite <- Hstep2, <- app_assoc; reflexivity).
  - cbn [fst]. eexists. cbn [sent versionNumber]. split; [reflexivity |].
    split; [lia |].
    rewrite docVersions_app. cbn [docVersions].
    destruct jumpToDef; cbn [docVersions]; exact Hstep1.
Qed.

Lemma loop_Versioned (sent0 : list Message) (fuel : nat) :
  forall st, Versioned sent0 st -> Versioned sent0 (fst (loop fuel st)).
Proof.
  induction fuel as [| fuel IH]; intros st Hst; unfold loop in *;
    cbn [wordLoop];
    destruct (wordRegex_exec text (lastIndex st)) as [[mi w] |];
    try exact Hst.
  - pose proof (body_Versioned sent0 mi w
                  (mkState (versionNumber st) (mi + len w) (sent st) (reported st)) Hst)
      as Hbody.
    unfold body in Hbody.
    destruct (loopBody _ _ _ _ _ _ _ _ mi w _) as [st2 [status |]];
      cbn [fst] in *; [exact Hbody | apply IH; exact Hbody].
Qed.

End LoopFacts.

(** ** The cycles of a run, one by one *)

Section CycleFacts.

Variable jumpToDef : bool.
Variable server : list Message -> Response.
Variable now : list Message -> list Measurement.t -> float.
Variables file uri text : JsString.
Variable opened : list Message.
Variable reported0 : list Measurement.t.

Lemma Cycles_length (tr : list Message) (ms : list Measurement.t) :
  Cycles jumpToDef server now file uri text opened reported0 tr ms ->
  List.length tr = (3 * List.length ms)%nat.
Proof.
  induction 1 as [| tr ms pre w post lc result n Hc IH]; [reflexivity |].
  rewrite !length_app, IH. simpl. lia.
Qed.

(** The [k]-th cycle: its word, its three messages, the response to its
    request and its measurement. *)
Lemma Cycles_nth (tr : list Message) (ms : list Measurement.t) :
  Cycles jumpToDef server now file uri text opened reported0 tr ms ->
  forall (k : nat) (m : Measurement.t),
    nth_error ms k = Some m ->
    exists pre w post lc result,
      text = pre ++ w ++ post /\ isWord w /\ endsWord post /\
      LineTable.get1BasedLineAndColumn (LineTable.new text) (len pre) = Some lc /\
      commentRegex_test (index (splitLines text) (line lc - 1)) = false /\
      nth_error tr (3 * k)
      = Some (DidChangeTextDocument uri (2 * Z.of_nat k + 2)
                (probeText jumpToDef pre w post)) /\
      nth_error tr (3 * k + 1)
      = Some (requestAt jumpToDef uri (2 * Z.of_nat k + 2)
                (Position.create (line lc) (column lc))) /\
      nth_error tr (3 * k + 2)
      = Some (DidChangeTextDocument uri (2 * Z.of_nat k + 3) text) /\
      server (opened ++ firstn (3 * k + 2) tr) = Result result /\
      numberOfResults result = Some (Measurement.numberOfResults m) /\
      Measurement.file m = file /\
      Measurement.line m = line lc /\
      Measurement.column m = column lc.
Proof.
  induction 1 as [| tr ms pre w post lc result n Hc IH Htext Hw Hpost Hlc Hcomment
                    v probe request revert Hserver Hn];
    intros k m Hk.
  - destruct k; discriminate.
  - pose proof (Cycles_length _ _ Hc) as Hlen.
    destruct (Nat.lt_ge_cases k (List.length ms)) as [Hlt | Hge].
    + rewrite nth_error_app1 in Hk by exact Hlt.
      destruct (IH k m Hk)
        as (pre' & w' & post' & lc' & result' & H1 & H2 & H3 & H4 & H5 & H6
            & H7 & H8 & H9 & H10 & H11 & H12 & H13).
      exists pre', w', post', lc', result'.
      rewrite !nth_error_app1 by lia.
      rewrite firstn_app. replace (3 * k + 2 - List.length tr)%nat with 0%nat by lia.
      rewrite firstn_O, app_nil_r.
      repeat split; assumption.
    + assert (Hk' : k = List.length ms).
      { assert (Hsome : nth_error (ms ++ [Measurement.mk file (line lc) (column lc)
                  (round (now (opened ++ tr ++ [probe; request; revert])
                              (reported0 ++ ms)
                          - now (opened ++ tr) (reported0 ++ ms))%float) n]) k <> None)
          by congruence.
        apply nth_error_Some in Hsome. rewrite length_app in Hsome. simpl in Hsome.
        lia. }
      subst k. rewrite nth_error_app2, Nat.sub_diag in Hk by lia.
      injection Hk as <-.
      exists pre, w, post, lc, result.
      rewrite !nth_error_app2 by lia.
      replace (3 * List.length ms - List.length tr)%nat with 0%nat by lia.
      replace (3 * List.length ms + 1 - List.length tr)%nat with 1%nat by lia.
      replace (3 * List.length ms + 2 - List.length tr)%nat with 2%nat by lia.
      rewrite firstn_app.
      replace (3 * List.length ms + 2 - List.length tr)%nat with 2%nat by lia.
      rewrite firstn_all2 by lia.
      subst v probe request revert. unfold len in *.
      replace (2 * Z.of_nat (List.length ms) + 2)
        with (1 + 2 * Z.of_nat (List.length ms) + 1) by lia.
      replace (2 * Z.of_nat (List.length ms) + 3)
        with (1 + 2 * Z.of_nat (List.length ms) + 2) by lia.
      cbn [nth_error firstn Measurement.numberOfResults Measurement.file
             Measurement.line Measurement.column].
      repeat split; assumption.
Qed.

(** Completed cycles leave the text of the [didOpen] at the server. *)
Lemma Cycles_document (tr : list Message) (ms : list Measurement.t) :
  Cycles jumpToDef server now file uri text opened reported0 tr ms ->
  forall k, (k <= List.length ms)%nat ->
    documentAfter (firstn (3 * k) tr) (Some text) = Some text.
Proof.
  induction 1 as [| tr ms pre w post lc result n Hc IH Htext Hw Hpost Hlc Hcomment
                    v probe request revert Hserver Hn];
    intros k Hk.
  - rewrite firstn_nil. reflexivity.
  - pose proof (Cycles_length _ _ Hc) as Hlen.
    rewrite length_app in Hk. simpl in Hk.
    destruct (Nat.le_gt_cases k (List.length ms)) as [Hle | Hgt].
    + rewrite firstn_app. replace (3 * k - List.length tr)%nat with 0%nat by lia.
      rewrite firstn_O, app_nil_r. apply IH. exact Hle.
    + rewrite firstn_all2 by (rewrite length_app; simpl; lia).
      rewrite documentAfter_app. subst probe request revert. unfold requestAt.
      destruct jumpToDef; reflexivity.
Qed.

End CycleFacts.

(** ** The run of one file *)

Lemma skipn_app_exact {A : Type} (a b : list A) :
  skipn (List.length a) (a ++ b) = b.
Proof.
  rewrite skipn_app, skipn_all, Nat.sub_diag. reflexivity.
Qed.

(** What the run of a file writes and reports: the [didOpen] with version
    1, then completed cycles, then the messages of a cycle cut short when
    the run is rejected. *)
Lemma benchFile_run (jumpToDef : bool) (server : list Message -> Response)
  (now : list Message -> list Measurement.t -> float)
  (readFileSync fileUri : JsString -> JsString)
  (file : JsString) (sent0 : list Message) (reported0 : list Measurement.t) :
  let text := readFileSync file in
  let uri := fileUri file in
  let opening := DidOpenTextDocument uri (js "codeql") 1 text in
  let run := benchFile jumpToDef server now readFileSync fileUri file
               sent0 reported0 in
  exists tr extra,
    written sent0 (fst run) = opening :: tr ++ extra /\
    Cycles jumpToDef server now file uri text (sent0 ++ [opening]) reported0 tr
      (measured reported0 (fst run)) /\
    (snd run = Completed ->
       extra = [] /\
       versionNumber (fst run) = 1 + 2 * len (measured reported0 (fst run))) /\
    docVersions (written sent0 (fst run))
    = countFrom 1 (Z.to_nat (versionNumber (fst run))) /\
    0 <= versionNumber (fst run) /\
    (len text < 2 ^ 31 -> snd run <> OutOfFuel).
Proof.
  intros text uri opening run. subst run. unfold benchFile.
  fold text. fold uri. fold opening.
  set (st0 := mkState 1 0 (sent0 ++ [opening]) reported0).
  assert (Hhead : AtHead jumpToDef server now file uri text
                    (sent0 ++ [opening]) reported0 st0).
  { exists [], []. rewrite !app_nil_r. repeat split; constructor. }
  assert (Hver : Versioned sent0 st0).
  { exists [opening]. repeat split; cbn; lia. }
  pose proof (loop_Versioned jumpToDef server now file uri text sent0
                (List.length text) st0 Hver) as (trv & Hsentv & Hv0 & Hdoc).
  pose proof (loop_fuel jumpToDef server now file uri text (List.length text))
    as Hfuel.
  destruct (wordLoop jumpToDef server now file uri text (splitLines text)
              (LineTable.new text) (List.length text) st0)
    as [st status] eqn:Erun.
  destruct (loop_AtEnd jumpToDef server now file uri text (sent0 ++ [opening])
              reported0 (List.length text) st0 Hhead (Z.le_refl 0) st status Erun)
    as (tr & ms & extra & Hsent & Hrep & Hcycles & Hdone).
  cbn [fst snd] in *.
  assert (Hmeasured : measured reported0 st = ms).
  { unfold measured. rewrite Hrep. apply skipn_app_exact. }
  assert (Hwritten : written sent0 st = opening :: tr ++ extra).
  { unfold written. rewrite Hsent, <- app_assoc. apply skipn_app_exact. }
  exists tr, extra. rewrite Hmeasured.
  split; [exact Hwritten |]. split; [exact Hcycles |]. split; [exact Hdone |].
  split.
  - unfold written. rewrite Hsentv, skipn_app_exact. exact Hdoc.
  - split; [exact Hv0 |]. intros Hlen.
    specialize (Hfuel Hlen st0). rewrite Erun in Hfuel. apply Hfuel.
    + cbn. lia.
    + cbn [lastIndex st0]. unfold len. lia.
Qed.

(** ** The comment heuristic *)

Lemma startsWith_spec (prefix s : JsString) :
  startsWith prefix s = true <-> exists tail, s = prefix ++ tail.
Proof.
  revert s. induction prefix as [| p prefix IH]; intros s; simpl.
  - split; [intros _; exists s; reflexivity | reflexivity].
  - destruct s as [| c s].
    + split; [discriminate | intros [tail H]; discriminate].
    + rewrite andb_true_iff, IH, N.eqb_eq. split.
      * intros [-> [tail ->]]. exists tail. reflexivity.
      * intros [tail H]. injection H as -> ->. split; [reflexivity | eauto].
Qed.

Lemma commentStart_spec (s : JsString) :
  commentStart s = true <->
  exists tail, s = js "*" ++ tail \/ s = js "/*" ++ tail \/ s = js "//" ++ tail.
Proof.
  unfold commentStart. rewrite !orb_true_iff, !startsWith_spec. split.
  - intros [[[tail H] | [tail H]] | [tail H]]; exists tail; auto.
  - intros [tail [H | [H | H]]]; eauto.
Qed.

(** The regular expression matches exactly the comment lines. *)
Lemma commentRegex_match_iff (l : JsString) :
  commentRegex_match l = true <-> CommentLine l.
Proof.
  split.
  - induction l as [| c l IH]; simpl.
    + discriminate.
    + rewrite orb_true_iff, andb_true_iff. intros [[Hc Hl] | Hstart].
      * destruct (IH Hl) as (ws & rest & tail & -> & Hws & Hrest).
        exists (c :: ws), rest, tail. repeat split; [constructor | ]; assumption.
      * apply commentStart_spec in Hstart. destruct Hstart as [tail Htail].
        exists [], (c :: l), tail. repeat split; [constructor | assumption].
  - intros (ws & rest & tail & -> & Hws & Hrest).
    assert (Hstart : commentStart rest = true)
      by (apply commentStart_spec; eauto).
    induction Hws as [| c ws Hc Hws IH]; simpl.
    + destruct rest as [| c rest]; [discriminate Hstart |].
      simpl. rewrite Hstart. apply orb_true_r.
    + rewrite Hc, IH. reflexivity.
Qed.

(** The body of the loop leaves by [continue], with nothing written or
    changed, on a word whose line is a comment line. *)
Lemma loopBody_comment (jumpToDef : bool) (server : list Message -> Response)
  (now : list Message -> list Measurement.t -> float) (file uri text : JsString)
  (lines : list JsString)
  (table : LineTable.t) (matchIndex : Z) (replacedWord : JsString) (st : State)
  (lc : LineAndColumn1) (l : JsString) :
  LineTable.get1BasedLineAndColumn table matchIndex = Some lc ->
  index lines (line lc - 1) = Some l ->
  CommentLine l ->
  loopBody jumpToDef server now file uri text lines table
    matchIndex replacedWord st = (st, None).
Proof.
  intros Hlc Hl Hcomment. unfold loopBody. rewrite Hlc, Hl.
  cbn [commentRegex_test].
  apply commentRegex_match_iff in Hcomment. rewrite Hcomment. reflexivity.
Qed.

(** ** The cycle of a measurement *)

(** The [k]-th measurement of the run of a file and the messages of its
    cycle, which are the three after the first [3 * k + 1] of the run. *)
Lemma run_cycle (jumpToDef : bool) (server : list Message -> Response)
  (now : list Message -> list Measurement.t -> float)
  (readFileSync fileUri : JsString -> JsString)
  (file : JsString) (sent0 : list Message) (reported0 : list Measurement.t)
  (k : nat) (m : Measurement.t) :
  let text := readFileSync file in
  let uri := fileUri file in
  let run := benchFile jumpToDef server now readFileSync fileUri file
               sent0 reported0 in
  let msgs := written sent0 (fst run) in
  nth_error (measured reported0 (fst run)) k = Some m ->
  exists pre w post lc result,
    text = pre ++ w ++ post /\ isWord w /\ endsWord post /\
    LineTable.get1BasedLineAndColumn (LineTable.new text) (len pre) = Some lc /\
    commentRegex_test (index (splitLines text) (line lc - 1)) = false /\
    nth_error msgs 0 = Some (DidOpenTextDocument uri (js "codeql") 1 text) /\
    nth_error msgs (3 * k + 1)
    = Some (DidChangeTextDocument uri (2 * Z.of_nat k + 2)
              (probeText jumpToDef pre w post)) /\
    nth_error msgs (3 * k + 2)
    = Some (requestAt jumpToDef uri (2 * Z.of_nat k + 2)
              (Position.create (line lc) (column lc))) /\
    nth_error msgs (3 * k + 3)
    = Some (DidChangeTextDocument uri (2 * Z.of_nat k + 3) text) /\
    server (sent0 ++ firstn (3 * k + 3) msgs) = Result result /\
    numberOfResults result = Some (Measurement.numberOfResults m) /\
    Measurement.file m = file /\
    Measurement.line m = line lc /\
    Measurement.column m = column lc /\
    documentAfter (firstn (3 * k + 1) msgs) None = Some text /\
    documentAfter (firstn (3 * k + 4) msgs) None = Some text.
Proof.
  intros text uri run msgs Hm.
  destruct (benchFile_run jumpToDef server now readFileSync fileUri file
              sent0 reported0)
    as (tr & extra & Hwritten & Hcycles & _).
  fold text uri run in Hwritten, Hcycles. fold msgs in Hwritten.
  pose proof (Cycles_length _ _ _ _ _ _ _ _ _ _ Hcycles) as Hlen.
  assert (Hk : (k < List.length (measured reported0 (fst run)))%nat)
    by (apply nth_error_Some; congruence).
  destruct (Cycles_nth _ _ _ _ _ _ _ _ _ _ Hcycles k m Hm)
    as (pre & w & post & lc & result & H1 & H2 & H3 & H4 & H5 & H6 & H7 & H8
        & H9 & H10 & H11 & H12 & H13).
  exists pre, w, post, lc, result.
  rewrite Hwritten.
  replace (3 * k + 1)%nat with (S (3 * k)) by lia.
  replace (3 * k + 2)%nat with (S (3 * k + 1)) by lia.
  replace (3 * k + 3)%nat with (S (3 * k + 2)) by lia.
  replace (3 * k + 4)%nat with (S (3 * (k + 1))) by lia.
  cbn [nth_error firstn documentAfter].
  rewrite !nth_error_app1 by lia.
  rewrite !firstn_app.
  replace (3 * k + 2 - List.length tr)%nat with 0%nat by lia.
  replace (3 * k - List.length tr)%nat with 0%nat by lia.
  replace (3 * (k + 1) - List.length tr)%nat with 0%nat by lia.
  rewrite !firstn_O, !app_nil_r.
  rewrite (Cycles_document _ _ _ _ _ _ _ _ _ _ Hcycles k) by lia.
  rewrite (Cycles_document _ _ _ _ _ _ _ _ _ _ Hcycles (k + 1)) by lia.
  replace (sent0 ++ DidOpenTextDocument uri (js "codeql") 1 text
             :: firstn (3 * k + 2) tr)
    with ((sent0 ++ [DidOpenTextDocument uri (js "codeql") 1 text])
            ++ firstn (3 * k + 2) tr)
    by (rewrite <- app_assoc; reflexivity).
  repeat split; assumption.
Qed.

(** ** The lines of a text *)

Lemma split_loop_stretch (l s piece : JsString) :
  Forall (fun c => isTerminator c = false) l ->
  split_loop (l ++ s) piece = split_loop s (piece ++ l).
Proof.
  intros Hl. revert piece. induction Hl as [| c l Hc Hl IH]; intros piece.
  - rewrite app_nil_r. reflexivity.
  - unfold isTerminator in Hc. apply orb_false_iff in Hc. destruct Hc as [Hlf Hcr].
    cbn [app split_loop]. rewrite Hlf, Hcr, IH, <- app_assoc. reflexivity.
Qed.

Lemma split_loop_terminator (c : CodeUnit) (a piece : JsString) :
  isTerminator c = true -> exists rest, split_loop (c :: a) piece = piece :: rest.
Proof.
  intros Hc. unfold isTerminator in Hc. cbn [split_loop].
  destruct (N.eqb c Chars.carriageReturn).
  - destruct a as [| d a']; [eauto |]. destruct (N.eqb d Chars.lineFeed); eauto.
  - destruct (N.eqb c Chars.lineFeed); [eauto | discriminate].
Qed.

(** Up to a clean cut after a terminator, [split] yields as many lines as
    the text before the cut has breaks, and starts afresh. *)
Lemma split_loop_cut (n : nat) :
  forall (b s piece : JsString) (i : Z),
    (List.length b <= n)%nat ->
    cleanCut b s = true ->
    isTerminator (last b 0%N) = true ->
    exists pieces,
      split_loop (b ++ s) piece = pieces ++ split_loop s [] /\
      List.length pieces = List.length (lineBreaks b i).
Proof.
  induction n as [| n IH]; intros b s piece i Hn Hcut Hlast.
  - destruct b; [discriminate Hlast | simpl in Hn; lia].
  - destruct b as [| a b]; [discriminate Hlast |].
    simpl in Hn.
    pose proof (cleanCut_tail _ _ _ Hcut) as Hcut'.
    assert (Hrest : forall piece' j, b <> [] ->
               exists pieces,
                 split_loop (b ++ s) piece' = pieces ++ split_loop s [] /\
                 List.length pieces = List.length (lineBreaks b j)).
    { intros piece' j Hne. apply IH; [lia | exact Hcut' |].
      destruct b; [congruence | exact Hlast]. }
    change ((a :: b) ++ s) with (a :: (b ++ s)).
    cbn [split_loop lineBreaks].
    destruct (N.eqb a Chars.carriageReturn) eqn:Ecr.
    + assert (Hlf : N.eqb a Chars.lineFeed = false).
      { apply N.eqb_eq in Ecr. subst a. reflexivity. }
      rewrite Hlf.
      destruct b as [| d b'].
      * cbn [app]. exists [piece]. split; [| reflexivity].
        unfold cleanCut in Hcut. cbn [last] in Hcut. rewrite Ecr in Hcut.
        destruct s as [| c s']; [reflexivity |].
        cbn [andb negb] in Hcut. apply negb_true_iff in Hcut. rewrite Hcut.
        reflexivity.
      * cbn [app]. destruct (N.eqb d Chars.lineFeed) eqn:Ed.
        -- destruct b' as [| e b''].
           ++ exists [piece]. split; reflexivity.
           ++ destruct (IH (e :: b'') s [] (i + 1 + 1)) as (pieces & Hp & Hlen).
              ** simpl in Hn |- *. lia.
              ** eapply cleanCut_tail. exact Hcut'.
              ** exact Hlast.
              ** exists (piece :: pieces).
                 change (e :: b'' ++ s) with ((e :: b'') ++ s). rewrite Hp.
                 split; [reflexivity | simpl; rewrite Hlen; reflexivity].
        -- destruct (Hrest [] (i + 1)) as (pieces & Hp & Hlen); [discriminate |].
           exists (piece :: pieces).
           change (d :: b' ++ s) with ((d :: b') ++ s). rewrite Hp.
           split; [reflexivity | simpl; rewrite Hlen; reflexivity].
    + destruct (N.eqb a Chars.lineFeed) eqn:Elf.
      * destruct b as [| d b'].
        -- exists [piece]. split; reflexivity.
        -- destruct (Hrest [] (i + 1)) as (pieces & Hp & Hlen); [discriminate |].
           exists (piece :: pieces). rewrite Hp.
           split; [reflexivity | simpl; rewrite Hlen; reflexivity].
      * destruct b as [| d b'].
        -- cbn [last] in Hlast. unfold isTerminator in Hlast.
           rewrite Elf, Ecr in Hlast. discriminate.
        -- apply Hrest. discriminate.
Qed.

(** The line of an offset is the line that [split] yields at the number
    of breaks before it. *)
Lemma splitLines_LineAt (text : JsString) (offset : Z) (before l after : JsString) :
  LineAt text offset before l after ->
  index (splitLines text) (Z.of_nat (List.length (lineBreaks before 0))) = Some l.
Proof.
  intros (Htext & Hrange & Hl & Hbefore & Hafter).
  assert (Hline : exists rest, split_loop (l ++ after) [] = l :: rest).
  { rewrite split_loop_stretch by exact Hl. cbn [app].
    destruct Hafter as [-> | (c & a & -> & Hc)]; [exists []; reflexivity |].
    apply split_loop_terminator. exact Hc. }
  destruct Hline as [rest Hrest].
  unfold splitLines. rewrite Htext.
  destruct Hbefore as [-> | (b & c & -> & Hc)].
  - cbn [app]. rewrite Hrest. reflexivity.
  - destruct (split_loop_cut (List.length (b ++ [c])) (b ++ [c]) (l ++ after) [] 0)
      as (pieces & Hp & Hlen).
    + lia.
    + destruct l as [| d l']; [rewrite len_nil in Hrange; lia |].
      inversion Hl as [| ? ? Hd _]; subst.
      unfold isTerminator in Hd. apply orb_false_iff in Hd.
      unfold cleanCut. cbn [app]. rewrite (proj1 Hd).
      apply negb_true_iff, andb_false_r.
    + rewrite last_last. exact Hc.
    + rewrite Hp, Hrest, <- Hlen.
      rewrite index_app_r by (unfold len; lia).
      replace (Z.of_nat (List.length pieces) - len pieces) with 0
        by (unfold len; lia).
      reflexivity.
Qed.

(** On a word of the line [l] the body of the loop tests [l], and reports
    the line and column of the word counted from 1. *)
Lemma get1BasedLineAndColumn_LineAt (text : JsString) (offset : Z)
  (before l after : JsString) :
  len text < 2 ^ 31 ->
  LineAt text offset before l after ->
  exists lc,
    LineTable.get1BasedLineAndColumn (LineTable.new text) offset = Some lc /\
    line lc = Z.of_nat (List.length (lineBreaks before 0)) + 1 /\
    column lc = Num (offset - len before + 1) /\
    index (splitLines text) (line lc - 1) = Some l.
Proof.
  intros Hlen Hline.
  destruct (getLineFromOffset_LineAt text offset before l after Hlen Hline)
    as [Hline0 Hstart].
  eexists. unfold LineTable.get1BasedLineAndColumn.
  rewrite Hline0. unfold LineTable.getColumnFromLineAndOffset.
  unfold LineTable.getStartOfLine in Hstart. rewrite Hstart.
  split; [reflexivity |]. cbn [line column addNum].
  split; [reflexivity |]. split; [reflexivity |].
  rewrite Z.add_simpl_r. eapply splitLines_LineAt. exact Hline.
Qed.

(** ** The line of a word *)

Lemma isWordPart_not_terminator (c : CodeUnit) :
  isWordPart c = true -> isTerminator c = false.
Proof.
  intros H. unfold isTerminator.
  destruct (N.eqb_spec c Chars.lineFeed) as [-> | _]; [discriminate H |].
  destruct (N.eqb_spec c Chars.carriageReturn) as [-> | _]; [discriminate H |].
  reflexivity.
Qed.

Lemma isWord_no_terminator (w : JsString) :
  isWord w -> Forall (fun c => isTerminator c = false) w.
Proof.
  intros (c & rest & -> & Hc & Hrest). constructor.
  - apply isWordPart_not_terminator. unfold isWordPart. rewrite Hc. reflexivity.
  - eapply Forall_impl; [| exact Hrest]. apply isWordPart_not_terminator.
Qed.

Lemma cut_after_last_terminator (pre : JsString) :
  exists before head,
    pre = before ++ head /\
    Forall (fun c => isTerminator c = false) head /\
    (before = [] \/ exists b c, before = b ++ [c] /\ isTerminator c = true).
Proof.
  induction pre as [| c pre (before & head & -> & Hhead & Hbefore)] using rev_ind.
  - exists [], []. repeat split; [constructor | left; reflexivity].
  - destruct (isTerminator c) eqn:Ec.
    + exists ((before ++ head) ++ [c]), []. rewrite app_nil_r.
      repeat split; [constructor | right; eauto].
    + exists before, (head ++ [c]). rewrite app_assoc.
      repeat split; [| exact Hbefore].
      apply Forall_app. split; [exact Hhead | constructor; [exact Ec | constructor]].
Qed.

Lemma cut_before_first_terminator (post : JsString) :
  exists rest after,
    post = rest ++ after /\
    Forall (fun c => isTerminator c = false) rest /\
    (after = [] \/ exists c a, after = c :: a /\ isTerminator c = true).
Proof.
  induction post as [| c post (rest & after & -> & Hrest & Hafter)].
  - exists [], []. repeat split; [constructor | left; reflexivity].
  - destruct (isTerminator c) eqn:Ec.
    + exists [], (c :: rest ++ after).
      repeat split; [constructor | right; eauto].
    + exists (c :: rest), after.
      repeat split; [constructor; assumption | exact Hafter].
Qed.

(** Every word of a text lies on a line of the text. *)
Lemma LineAt_word (pre w post : JsString) :
  isWord w ->
  exists before head rest after,
    pre = before ++ head /\
    LineAt (pre ++ w ++ post) (len pre) before (head ++ w ++ rest) after.
Proof.
  intros Hw.
  destruct (cut_after_last_terminator pre) as (before & head & -> & Hhead & Hbefore).
  destruct (cut_before_first_terminator post) as (rest & after & -> & Hrest & Hafter).
  exists before, head, rest, after. split; [reflexivity |].
  split; [rewrite <- !app_assoc; reflexivity |].
  split.
  { rewrite !len_app. pose proof (isWord_len w Hw).
    pose proof (len_nonneg head). pose proof (len_nonneg rest). lia. }
  split; [| split; assumption].
  apply Forall_app. split; [exact Hhead |].
  apply Forall_app. split; [apply isWord_no_terminator; exact Hw | exact Hrest].
Qed.

(** The loop over the files runs [benchFile] on each file in turn, from
    the messages and measurements of the files before it, as long as the
    runs complete. *)
Lemma benchFiles_app (jumpToDef : bool) (server : list Message -> Response)
  (now : list Message -> list Measurement.t -> float)
  (readFileSync fileUri : JsString -> JsString)
  (files1 files2 : list JsString) :
  forall (sent0 : list Message) (reported0 : list Measurement.t),
    benchFiles jumpToDef server now readFileSync fileUri (files1 ++ files2)
      sent0 reported0
    = match benchFiles jumpToDef server now readFileSync fileUri files1
              sent0 reported0 with
      | (sent1, reported1, Completed) =>
          benchFiles jumpToDef server now readFileSync fileUri files2
            sent1 reported1
      | stopped => stopped
      end.
Proof.
  induction files1 as [| file files1 IH]; intros sent0 reported0.
  - reflexivity.
  - cbn [app benchFiles].
    destruct (benchFile jumpToDef server now readFileSync fileUri file
                sent0 reported0) as [st status].
    destruct status; [apply IH | reflexivity | reflexivity].
Qed.

(** ** Sorted arrays with equal neighbours *)

Lemma StronglySorted_sorted (a : list Z) :
  StronglySorted Z.le a -> sorted a.
Proof.
  induction 1 as [| h t Ht IH Hall]; intros i j x y Hij Hi Hj.
  - apply index_in_range in Hi. unfold len in Hi. simpl in Hi. lia.
  - destruct (Z.eq_dec i j) as [-> | Hne].
    { rewrite Hi in Hj. injection Hj as ->. lia. }
    apply index_Some in Hi. apply index_Some in Hj.
    destruct Hi as [Hi0 Hi], Hj as [Hj0 Hj].
    destruct (Z.to_nat j) as [| j'] eqn:Ej; [lia |].
    simpl in Hj.
    destruct (Z.to_nat i) as [| i'] eqn:Ei; simpl in Hi.
    + injection Hi as <-. rewrite Forall_forall in Hall. apply Hall.
      eapply nth_error_In. exact Hj.
    + apply (IH (Z.of_nat i') (Z.of_nat j')); [lia | |];
        apply index_Some; rewrite Nat2Z.id; split; try lia; assumption.
Qed.

(** ** Where the breaks of a text are *)

(** A break follows a line feed, or a carriage return that no line feed
    follows. *)
Lemma lineBreaks_In (n : nat) :
  forall (s : JsString) (i x : Z),
    (List.length s <= n)%nat ->
    In x (lineBreaks s i) ->
    exists pre c post,
      s = pre ++ c :: post /\ x = i + len pre + 1 /\
      (c = Chars.lineFeed \/
       (c = Chars.carriageReturn /\ forall post', post <> Chars.lineFeed :: post')).
Proof.
  induction n as [| n IH]; intros s i x Hn Hin.
  - destruct s; [destruct Hin | simpl in Hn; lia].
  - destruct s as [| c rest]; [destruct Hin |].
    simpl in Hn.
    assert (Hrec : forall (skipped t : JsString) (j : Z),
               c :: rest = skipped ++ t -> j = i + len skipped ->
               (List.length t <= n)%nat ->
               In x (lineBreaks t j) ->
               exists pre c' post,
                 c :: rest = pre ++ c' :: post /\ x = i + len pre + 1 /\
                 (c' = Chars.lineFeed \/
                  (c' = Chars.carriageReturn /\
                   forall post', post <> Chars.lineFeed :: post'))).
    { intros skipped t j Hs Hj Ht Hx.
      destruct (IH t j x Ht Hx) as (pre & c' & post & -> & -> & Hc').
      exists (skipped ++ pre), c', post. rewrite <- app_assoc, len_app.
      split; [exact Hs |]. split; [lia | exact Hc']. }
    cbn [lineBreaks] in Hin.
    destruct (N.eqb_spec c Chars.lineFeed) as [-> | Hlf].
    + destruct Hin as [<- | Hin].
      * exists [], Chars.lineFeed, rest. rewrite len_nil.
        split; [reflexivity |]. split; [lia | left; reflexivity].
      * apply (Hrec [Chars.lineFeed] rest (i + 1)); try assumption;
          [reflexivity | rewrite len_cons, len_nil; lia | lia].
    + destruct (N.eqb_spec c Chars.carriageReturn) as [-> | Hcr].
      * destruct rest as [| d rest'].
        -- destruct Hin as [<- | []].
           exists [], Chars.carriageReturn, []. rewrite len_nil.
           split; [reflexivity |]. split; [lia |]. right.
           split; [reflexivity | discriminate].
        -- destruct (N.eqb_spec d Chars.lineFeed) as [-> | Hd].
           ++ destruct Hin as [<- | Hin].
              ** exists [Chars.carriageReturn], Chars.lineFeed, rest'.
                 rewrite len_cons, len_nil.
                 split; [reflexivity |]. split; [lia | left; reflexivity].
              ** apply (Hrec [Chars.carriageReturn; Chars.lineFeed] rest' (i + 1 + 1));
                   try assumption;
                   [reflexivity | rewrite !len_cons, len_nil; lia
                    | simpl in Hn; lia].
           ++ destruct Hin as [<- | Hin].
              ** exists [], Chars.carriageReturn, (d :: rest'). rewrite len_nil.
                 split; [reflexivity |]. split; [lia |]. right.
                 split; [reflexivity | congruence].
              ** apply (Hrec [Chars.carriageReturn] (d :: rest') (i + 1));
                   try assumption;
                   [reflexivity | rewrite len_cons, len_nil; lia | lia].
      * apply (Hrec [c] rest (i + 1)); try assumption;
          [reflexivity | rewrite len_cons, len_nil; lia | lia].
Qed.

Lemma lineBreaks_In_conv (pre : JsString) (c : CodeUnit) (post : JsString) (i : Z) :
  c = Chars.lineFeed \/
  (c = Chars.carriageReturn /\ forall post', post <> Chars.lineFeed :: post') ->
  In (i + len pre + 1) (lineBreaks (pre ++ c :: post) i).
Proof.
  intros [-> | [-> Hpost]].
  - destruct (N.eqb (last pre 0%N) Chars.carriageReturn) eqn:Elast.
    + destruct pre as [| a pre] using rev_ind; [discriminate Elast |].
      rewrite last_last in Elast. apply N.eqb_eq in Elast. subst a.
      rewrite <- app_assoc. cbn [app]. rewrite lineBreaks_crlf, len_app.
      change (len [Chars.carriageReturn]) with 1.
      apply in_or_app. right. left. lia.
    + rewrite (lineBreaks_cut (List.length pre));
        [| lia | unfold cleanCut; rewrite Elast; reflexivity].
      apply in_or_app. right. left. reflexivity.
  - rewrite (lineBreaks_cut (List.length pre));
      [| lia | unfold cleanCut; cbn; apply negb_true_iff, andb_false_r].
    apply in_or_app. right. cbn [lineBreaks].
    cbn [N.eqb Chars.carriageReturn Chars.lineFeed Pos.eqb].
    destruct post as [| d post']; [left; reflexivity |].
    destruct (N.eqb_spec d Chars.lineFeed) as [-> | _];
      [exfalso; eapply Hpost; reflexivity | left; reflexivity].
Qed.

(** ** The lines of [split] and the line starts *)

Lemma split_loop_length (n : nat) :
  forall (s piece : JsString) (i : Z),
    (List.length s <= n)%nat ->
    List.length (split_loop s piece) = S (List.length (lineBreaks s i)).
Proof.
  induction n as [| n IH]; intros s piece i Hn.
  - destruct s; [reflexivity | simpl in Hn; lia].
  - destruct s as [| c rest]; [reflexivity |].
    simpl in Hn. cbn [split_loop lineBreaks].
    destruct (N.eqb_spec c Chars.carriageReturn) as [-> | Hcr].
    + cbn [N.eqb Chars.carriageReturn Chars.lineFeed Pos.eqb].
      destruct rest as [| d rest'].
      * reflexivity.
      * destruct (N.eqb d Chars.lineFeed); cbn [List.length]; f_equal;
          apply IH; simpl in Hn |- *; lia.
    + destruct (N.eqb c Chars.lineFeed); [cbn [List.length]; f_equal |];
        apply IH; lia.
Qed.

(** Each line that [split] yields lies in the text at the line start of
    the same number, has no terminator, and ends at the end of the text
    or before a terminator.  The text read is [piece ++ s], where [s]
    begins at offset [i]. *)
Lemma split_loop_lines (n : nat) :
  forall (s piece : JsString) (i : Z) (k : nat) (l : JsString),
    (List.length s <= n)%nat ->
    Forall (fun c => isTerminator c = false) piece ->
    nth_error (split_loop s piece) k = Some l ->
    exists st a b,
      nth_error ((i - len piece) :: lineBreaks s i) k = Some st /\
      Forall (fun c => isTerminator c = false) l /\
      piece ++ s = a ++ l ++ b /\
      len a = st - (i - len piece) /\
      (b = [] \/ exists c b', b = c :: b' /\ isTerminator c = true).
Proof.
  induction n as [| n IH]; intros s piece i k l Hn Hpiece Hk.
  - destruct s; [| simpl in Hn; lia].
    destruct k as [| [| k]]; try discriminate. injection Hk as <-.
    exists (i - len piece), [], []. rewrite len_nil, !app_nil_r.
    repeat split; [assumption | lia | left; reflexivity].
  - destruct s as [| c rest].
    { destruct k as [| [| k]]; try discriminate. injection Hk as <-.
      exists (i - len piece), [], []. rewrite len_nil, !app_nil_r.
      repeat split; [assumption | lia | left; reflexivity]. }
    simpl in Hn.
    assert (Hfirst : isTerminator c = true ->
              exists st a b,
                nth_error ((i - len piece) :: lineBreaks (c :: rest) i) 0 = Some st /\
                Forall (fun c => isTerminator c = false) piece /\
                piece ++ c :: rest = a ++ piece ++ b /\
                len a = st - (i - len piece) /\
                (b = [] \/ exists c' b', b = c' :: b' /\ isTerminator c' = true)).
    { intros Hc. exists (i - len piece), [], (c :: rest). rewrite len_nil.
      repeat split; [assumption | lia | right; eauto]. }
    assert (Hnext : forall (term t : JsString) (k' : nat),
              c :: rest = term ++ t -> (List.length t <= n)%nat ->
              lineBreaks (c :: rest) i = (i + len term) :: lineBreaks t (i + len term) ->
              nth_error (split_loop t []) k' = Some l ->
              exists st a b,
                nth_error ((i - len piece) :: lineBreaks (c :: rest) i) (S k') = Some st /\
                Forall (fun c => isTerminator c = false) l /\
                piece ++ c :: rest = a ++ l ++ b /\
                len a = st - (i - len piece) /\
                (b = [] \/ exists c' b', b = c' :: b' /\ isTerminator c' = true)).
    { intros term t k' Hs Ht Hbreaks Hk'.
      destruct (IH t [] (i + len term) k' l Ht (Forall_nil _) Hk')
        as (st & a & b & Hst & Hl & Ht' & Ha & Hb).
      rewrite len_nil, Z.sub_0_r in Hst, Ha. cbn [app] in Ht'.
      exists st, (piece ++ term ++ a), b.
      rewrite Hbreaks. cbn [nth_error]. split; [exact Hst |].
      split; [exact Hl |]. split.
      - rewrite Hs, Ht', <- !app_assoc. reflexivity.
      - split; [rewrite !len_app; lia | exact Hb]. }
    cbn [split_loop] in Hk.
    destruct (N.eqb_spec c Chars.carriageReturn) as [-> | Hcr].
    + destruct rest as [| d rest'].
      * destruct k as [| k]; [injection Hk as <-; apply Hfirst; reflexivity |].
        apply (Hnext [Chars.carriageReturn] [] k); try assumption;
          [reflexivity | simpl; lia | reflexivity].
      * destruct (N.eqb_spec d Chars.lineFeed) as [-> | Hd].
        -- destruct k as [| k]; [injection Hk as <-; apply Hfirst; reflexivity |].
           apply (Hnext [Chars.carriageReturn; Chars.lineFeed] rest' k);
             try assumption; [reflexivity | simpl in Hn; lia |].
           cbn [lineBreaks]. cbn [N.eqb Chars.carriageReturn Chars.lineFeed Pos.eqb].
           change (len [Chars.carriageReturn; Chars.lineFeed]) with 2.
           replace (i + 1 + 1) with (i + 2) by lia. reflexivity.
        -- destruct k as [| k]; [injection Hk as <-; apply Hfirst; reflexivity |].
           apply (Hnext [Chars.carriageReturn] (d :: rest') k);
             try assumption; [reflexivity | simpl in Hn |- *; lia |].
           cbn [lineBreaks]. cbn [N.eqb Chars.carriageReturn Chars.lineFeed Pos.eqb].
           apply N.eqb_neq in Hd. rewrite Hd. reflexivity.
    + destruct (N.eqb_spec c Chars.lineFeed) as [-> | Hlf].
      * destruct k as [| k]; [injection Hk as <-; apply Hfirst; reflexivity |].
        apply (Hnext [Chars.lineFeed] rest k); try assumption;
          [reflexivity | lia | reflexivity].
      * assert (Hc : isTerminator c = false).
        { unfold isTerminator. apply N.eqb_neq in Hcr, Hlf.
          rewrite Hcr, Hlf. reflexivity. }
        destruct (IH rest (piece ++ [c]) (i + 1) k l ltac:(lia)) as
          (st & a & b & Hst & Hl & Ht' & Ha & Hb).
        -- apply Forall_app. split; [exact Hpiece | constructor; [exact Hc | constructor]].
        -- exact Hk.
        -- rewrite len_app in Hst, Ha. change (len [c]) with 1 in Hst, Ha.
           replace (i + 1 - (len piece + 1)) with (i - len piece) in Hst, Ha by lia.
           exists st, a, b. cbn [lineBreaks].
           apply N.eqb_neq in Hcr, Hlf. rewrite Hcr, Hlf.
           split; [exact Hst |]. split; [exact Hl |].
           split; [rewrite <- Ht', <- app_assoc; reflexivity |].
           split; [exact Ha | exact Hb].
Qed.

Lemma substring_middle (a l b : JsString) :
  substring (a ++ l ++ b) (len a) (len a + len l) = l.
Proof.
  unfold substring. rewrite !len_app.
  pose proof (len_nonneg a). pose proof (len_nonneg l). pose proof (len_nonneg b).
  rewrite (Z.max_l (len a)) by lia.
  rewrite (Z.min_l (len a)) by lia.
  rewrite (Z.max_l (len a + len l)) by lia.
  rewrite (Z.min_l (len a + len l)) by lia.
  rewrite Z.min_l, Z.max_r by lia.
  unfold len. rewrite Nat2Z.id, skipn_app_exact.
  replace (Z.to_nat _) with (List.length l) by lia.
  rewrite firstn_app, Nat.sub_diag, firstn_all. simpl. apply app_nil_r.
Qed.

Lemma charCodeAt_middle (a b : JsString) (c : CodeUnit) :
  charCodeAt (a ++ c :: b) (len a) = Some c.
Proof.
  unfold charCodeAt. apply index_Some. split; [apply len_nonneg |].
  unfold len. rewrite Nat2Z.id, nth_error_app2, Nat.sub_diag by lia.
  reflexivity.
Qed.

(** ** The matches of the word regular expression *)

Lemma findWordStart_None (s : JsString) :
  forall i, findWordStart s i = None ->
            Forall (fun d => isWordStart d = false) s.
Proof.
  induction s as [| c s IH]; intros i H; [constructor |].
  cbn [findWordStart] in H. destruct (isWordStart c) eqn:Ec; [discriminate |].
  constructor; [exact Ec | apply (IH _ H)].
Qed.

Lemma wordRegex_exec_app (done s : JsString) :
  wordRegex_exec (done ++ s) (len done)
  = match findWordStart s (len done) with
    | Some (matchIndex, c :: rest) => Some (matchIndex, c :: takeWordPart rest)
    | _ => None
    end.
Proof.
  unfold wordRegex_exec.
  destruct (Z.ltb_spec (len (done ++ s)) (len done)) as [Hlt | _].
  { rewrite len_app in Hlt. pose proof (len_nonneg s). lia. }
  unfold len. rewrite Nat2Z.id, skipn_app_exact. reflexivity.
Qed.

(** A match found from the end of [done]: the first word of the rest. *)
Lemma wordRegex_exec_first (done s : JsString) (matchIndex : Z) (w : JsString) :
  wordRegex_exec (done ++ s) (len done) = Some (matchIndex, w) ->
  exists skipped post,
    s = skipped ++ w ++ post /\ matchIndex = len done + len skipped /\
    Forall (fun d => isWordStart d = false) skipped /\
    isWord w /\ endsWord post.
Proof.
  rewrite wordRegex_exec_app.
  destruct (findWordStart s (len done)) as [[j s'] |] eqn:Ef; [| discriminate].
  destruct (findWordStart_spec _ _ _ _ Ef)
    as (skipped & c & rest & Hs & -> & -> & Hc & Hsk).
  intros H. injection H as <- <-.
  destruct (takeWordPart_spec rest) as (rem & Hrest & Hall & Hmax).
  exists skipped, rem. split; [| split; [reflexivity | split; [exact Hsk |]]].
  - rewrite Hs. cbn [app]. rewrite <- Hrest. reflexivity.
  - split; [| exact Hmax]. exists c, (takeWordPart rest).
    repeat split; assumption.
Qed.

Lemma wordRegex_exec_null (done s : JsString) :
  wordRegex_exec (done ++ s) (len done) = None ->
  Forall (fun d => isWordStart d = false) s.
Proof.
  rewrite wordRegex_exec_app.
  destruct (findWordStart s (len done)) as [[j s'] |] eqn:Ef.
  - destruct (findWordStart_spec _ _ _ _ Ef)
      as (skipped & c & rest & Hs & -> & -> & Hc & Hsk).
    discriminate.
  - intros _. apply (findWordStart_None _ _ Ef).
Qed.

Lemma isWordStart_part (c : CodeUnit) :
  isWordStart c = true -> isWordPart c = true.
Proof. unfold isWordPart. intros ->. reflexivity. Qed.

Lemma isWord_parts (w : JsString) :
  isWord w -> Forall (fun d => isWordPart d = true) w.
Proof.
  intros (c & rest & -> & Hc & Hrest).
  constructor; [apply isWordStart_part; exact Hc | exact Hrest].
Qed.

(** A word cannot follow what ends a word without a character between. *)
Lemma endsWord_not_word (w post : JsString) :
  isWord w -> endsWord (w ++ post) -> False.
Proof.
  intros (c & rest & -> & Hc & _) Hends.
  specialize (Hends c (rest ++ post) eq_refl).
  apply isWordStart_part in Hc. congruence.
Qed.

Lemma endsWord_parts (b rest : JsString) :
  endsWord (b ++ rest) -> Forall (fun d => isWordPart d = true) b -> b = [].
Proof.
  intros Hends Hb. destruct b as [| x b]; [reflexivity |].
  specialize (Hends x (b ++ rest) eq_refl).
  inversion Hb; subst. congruence.
Qed.

(** Two words that begin at the same place and are both followed by what
    ends a word are the same word. *)
Lemma word_unique (w post w1 post1 : JsString) :
  w ++ post = w1 ++ post1 ->
  isWord w -> isWord w1 -> endsWord post -> endsWord post1 ->
  w = w1 /\ post = post1.
Proof.
  intros Heq Hw Hw1 Hpost Hpost1.
  apply isWord_parts in Hw, Hw1.
  destruct (app_eq_app _ _ _ _ Heq) as (l & [[-> ->] | [-> ->]]).
  - apply Forall_app in Hw. destruct Hw as [_ Hl].
    rewrite (endsWord_parts l post Hpost1 Hl), app_nil_r. split; reflexivity.
  - apply Forall_app in Hw1. destruct Hw1 as [_ Hl].
    rewrite (endsWord_parts l post1 Hpost Hl), app_nil_r. split; reflexivity.
Qed.

Lemma beginsWord_skipped (skipped : JsString) :
  Forall (fun d => isWordStart d = false) skipped -> beginsWord skipped.
Proof.
  intros Hsk a b -> _. apply Forall_app in Hsk. apply Hsk.
Qed.

Lemma beginsWord_suffix (a b : JsString) :
  beginsWord (a ++ b) -> beginsWord b.
Proof.
  intros H a' b' -> Hb'. apply (H (a ++ a') b'); [| exact Hb'].
  rewrite app_assoc. reflexivity.
Qed.

(** The matches from the end of [done] are the words of the rest that
    begin a word there. *)
Lemma matchesFrom_words (fuel : nat) :
  forall (done s : JsString) (matchIndex : Z) (w : JsString),
    (List.length s <= fuel)%nat ->
    (In (matchIndex, w) (matchesFrom fuel (done ++ s) (len done)) <->
     exists pre post,
       s = pre ++ w ++ post /\ matchIndex = len done + len pre /\
       isWord w /\ endsWord post /\ beginsWord pre).
Proof.
  induction fuel as [| fuel IH]; intros done s mi w Hfuel.
  - destruct s; [| simpl in Hfuel; lia].
    cbn [matchesFrom]. destruct (wordRegex_exec _ _) as [[mi1 w1] |]; cbn [In].
    + split; [intros [] |].
      intros (pre & post & Hs & _ & (c & rest & -> & _) & _).
      destruct pre; discriminate.
    + split; [intros [] |].
      intros (pre & post & Hs & _ & (c & rest & -> & _) & _).
      destruct pre; discriminate.
  - cbn [matchesFrom].
    destruct (wordRegex_exec (done ++ s) (len done)) as [[mi1 w1] |] eqn:Eexec.
    + destruct (wordRegex_exec_first _ _ _ _ Eexec)
        as (skipped & post1 & Hs & Hmi1 & Hsk & Hw1 & Hpost1).
      pose proof (isWord_len w1 Hw1) as Hw1len.
      assert (Hnext : done ++ s = (done ++ skipped ++ w1) ++ post1)
        by (rewrite Hs, <- !app_assoc; reflexivity).
      assert (Hlast : mi1 + len w1 = len (done ++ skipped ++ w1))
        by (rewrite !len_app; lia).
      assert (Hfuel' : (List.length post1 <= fuel)%nat).
      { rewrite Hs, !length_app in Hfuel. unfold len in Hw1len. lia. }
      rewrite Hnext, Hlast. cbn [In]. rewrite (IH _ post1 mi w Hfuel').
      split.
      * intros [[= <- <-] | (pre' & post & Hpost & Hmi & Hw & Hends & Hbegins)].
        -- exists skipped, post1.
           repeat split; try assumption. apply beginsWord_skipped, Hsk.
        -- exists (skipped ++ w1 ++ pre'), post.
           split; [rewrite Hs, Hpost, <- !app_assoc; reflexivity |].
           split; [rewrite Hmi, !len_app; lia |].
           split; [exact Hw |]. split; [exact Hends |].
           intros a b Hab Hb.
           rewrite app_assoc in Hab.
           destruct (app_eq_app _ _ _ _ Hab) as (l & [[Ha Hb'] | [Ha Hb']]).
           ++ exfalso. rewrite Hb' in Hb. apply Forall_app in Hb.
              destruct Hb as [_ Hpre'].
              rewrite Hpost in Hpost1.
              pose proof (endsWord_parts pre' (w ++ post) Hpost1 Hpre') as ->.
              apply (endsWord_not_word w post Hw Hpost1).
           ++ apply (Hbegins l b Hb' Hb).
      * intros (pre & post & Hs' & Hmi & Hw & Hends & Hbegins).
        rewrite Hs in Hs'.
        destruct (app_eq_app _ _ _ _ Hs') as (l & [[Hsk' Hrest] | [Hpre Hrest]]).
        -- (* the word begins in what was skipped, or where the match does *)
           destruct l as [| x l].
           ++ rewrite app_nil_r in Hsk'. cbn [app] in Hrest. subst pre.
              destruct (word_unique _ _ _ _ Hrest Hw Hw1 Hends Hpost1)
                as [-> _].
              left. f_equal. lia.
           ++ exfalso. destruct Hw as (c & rest & -> & Hc & _).
              cbn [app] in Hrest. injection Hrest as <- _.
              rewrite Hsk' in Hsk. apply Forall_app in Hsk.
              destruct Hsk as [_ Hx]. inversion Hx; subst. congruence.
        -- destruct (app_eq_app _ _ _ _ Hrest) as (l2 & [[Hw1' Hpost] | [Hl Hpost]]).
           ++ (* the word begins inside the match *)
              destruct l as [| x l].
              ** rewrite app_nil_r in Hpre. cbn [app] in Hrest. subst pre.
                 destruct (word_unique _ _ _ _ Hrest Hw1 Hw Hpost1 Hends)
                   as [<- _].
                 left. f_equal. lia.
              ** exfalso.
                 assert (Hl : Forall (fun d => isWordPart d = true) (x :: l)).
                 { apply isWord_parts in Hw1. rewrite Hw1' in Hw1.
                   apply Forall_app in Hw1. apply Hw1. }
                 pose proof (Hbegins skipped (x :: l) Hpre Hl) as Hno.
                 destruct Hw1 as (c & rest & Hw1 & Hc & _).
                 rewrite Hw1 in Hw1'. cbn [app] in Hw1'. injection Hw1' as <- _.
                 inversion Hno; subst. congruence.
           ++ (* the word begins at or after the end of the match *)
              right. exists l2, post.
              split; [exact Hpost |].
              split; [rewrite Hmi, Hpre, Hl, !len_app; lia |].
              split; [exact Hw |]. split; [exact Hends |].
              rewrite Hpre, Hl, app_assoc in Hbegins.
              apply (beginsWord_suffix _ _ Hbegins).
    + cbn [In]. split; [intros [] |].
      intros (pre & post & Hs & _ & (c & rest & -> & Hc & _) & _).
      pose proof (wordRegex_exec_null _ _ Eexec) as Hnone.
      rewrite Hs in Hnone. apply Forall_app in Hnone. destruct Hnone as [_ Hnone].
      cbn [app] in Hnone. inversion Hnone; subst. congruence.
Qed.

(** The matches from the end of [done] come in the order of the text,
    each after the end of the one before and past a character that is not
    part of a word. *)
Lemma matchesFrom_sorted (fuel : nat) :
  forall (done s : JsString),
    (List.length s <= fuel)%nat ->
    StronglySorted (fun m1 m2 => fst m1 + len (snd m1) < fst m2)
      (matchesFrom fuel (done ++ s) (len done)).
Proof.
  induction fuel as [| fuel IH]; intros done s Hfuel.
  - cbn [matchesFrom]. destruct (wordRegex_exec _ _) as [[mi1 w1] |]; constructor.
  - cbn [matchesFrom].
    destruct (wordRegex_exec (done ++ s) (len done)) as [[mi1 w1] |] eqn:Eexec;
      [| constructor].
    destruct (wordRegex_exec_first _ _ _ _ Eexec)
      as (skipped & post1 & Hs & Hmi1 & Hsk & Hw1 & Hpost1).
    pose proof (isWord_len w1 Hw1) as Hw1len.
    assert (Hnext : done ++ s = (done ++ skipped ++ w1) ++ post1)
      by (rewrite Hs, <- !app_assoc; reflexivity).
    assert (Hlast : mi1 + len w1 = len (done ++ skipped ++ w1))
      by (rewrite !len_app; lia).
    assert (Hfuel' : (List.length post1 <= fuel)%nat).
    { rewrite Hs, !length_app in Hfuel. unfold len in Hw1len. lia. }
    rewrite Hnext, Hlast. constructor; [apply IH; exact Hfuel' |].
    apply Forall_forall. intros [mi w] Hin. cbn [fst snd].
    apply (matchesFrom_words fuel _ post1 mi w Hfuel') in Hin.
    destruct Hin as (pre & post & Hpost & Hmi & Hw & _ & _).
    rewrite Hmi, Hlast.
    destruct pre as [| x pre].
    + exfalso. rewrite Hpost in Hpost1. apply (endsWord_not_word w post Hw Hpost1).
    + rewrite len_cons. pose proof (len_nonneg pre). lia.
Qed.

(** ** The run of the loop, match by match *)

Section RunFacts.

Variable jumpToDef : bool.
Variable server : list Message -> Response.
Variable now : list Message -> list Measurement.t -> float.
Variables file uri text : JsString.
Variable opened : list Message.
Variable reported0 : list Measurement.t.

Let body := loopBody jumpToDef server now file uri text
              (splitLines text) (LineTable.new text).
Let loop := wordLoop jumpToDef server now file uri text
              (splitLines text) (LineTable.new text).

Local Abbreviation atHead' :=
  (AtHead jumpToDef server now file uri text opened reported0).

Local Abbreviation probed fuel lastIndex :=
  (filter (fun m => negb (onCommentLine text m)) (matchesFrom fuel text lastIndex)).

(** The measurements of the loop follow the matches that are not on a
    comment line, one for one and in their order, as far as the loop
    gets. *)
Lemma loop_measured (fuel : nat) :
  forall st,
  exists ms k,
    reported (fst (loop fuel st)) = reported st ++ ms /\
    map reportedPosition ms
    = map (positionOf text) (firstn k (probed fuel (lastIndex st))) /\
    (snd (loop fuel st) = Completed ->
     map reportedPosition ms
     = map (positionOf text) (probed fuel (lastIndex st))).
Proof.
  induction fuel as [| fuel IH]; intros st; unfold loop in *;
    cbn [wordLoop matchesFrom];
    destruct (wordRegex_exec text (lastIndex st)) as [[mi w] |] eqn:Eexec.
  1, 2, 4: exists [], 0%nat; cbn [fst snd reported filter firstn map];
    rewrite app_nil_r;
    (split; [reflexivity | split; [reflexivity | first [discriminate | reflexivity]]]).
  set (st1 := mkState _ _ _ _).
  unfold loopBody. cbn [filter].
  destruct (LineTable.get1BasedLineAndColumn (LineTable.new text) mi)
    as [lc |] eqn:Elc.
  2:{ exists [], 0%nat. cbn [fst snd firstn map]. subst st1. cbn [reported].
      rewrite app_nil_r.
      split; [reflexivity | split; [reflexivity | discriminate]]. }
  assert (Hpos : positionOf text (mi, w) = Some lc) by exact Elc.
  assert (Hcom : onCommentLine text (mi, w)
                 = commentRegex_test (index (splitLines text) (line lc - 1)))
    by (unfold onCommentLine; rewrite Hpos; reflexivity).
  rewrite Hcom.
  destruct (commentRegex_test _) eqn:Ecom; cbn [negb].
  { destruct (IH st1) as (ms & k & H1 & H2 & H3).
    exists ms, k. split; [exact H1 |]. split; [exact H2 | exact H3]. }
  cbv zeta.
  destruct (server _) as [result |].
  2:{ exists [], 0%nat. cbn [fst snd firstn map reported]. subst st1.
      cbn [reported]. rewrite app_nil_r.
      split; [reflexivity | split; [reflexivity | discriminate]]. }
  destruct (numberOfResults result) as [n |].
  2:{ exists [], 0%nat. cbn [fst snd firstn map reported]. subst st1.
      cbn [reported]. rewrite app_nil_r.
      split; [reflexivity | split; [reflexivity | discriminate]]. }
  match goal with
  | |- context [wordLoop _ _ _ _ _ _ _ _ fuel ?s] => set (st2 := s)
  end.
  destruct (IH st2) as (ms & k & H1 & H2 & H3).
  assert (Hm : forall t nr,
             reportedPosition (Measurement.mk file (line lc) (column lc) t nr)
             = positionOf text (mi, w)).
  { intros t nr. rewrite Hpos. destruct lc. reflexivity. }
  eexists (_ :: ms), (S k). split; [| split].
  - rewrite H1. subst st2 st1. cbn [reported]. rewrite <- app_assoc. reflexivity.
  - cbn [firstn map]. rewrite Hm. f_equal. exact H2.
  - intros Hdone. cbn [map]. rewrite Hm. f_equal. apply H3, Hdone.
Qed.

(** A rejected run ends in a body that was rejected at the head of the
    loop, after completed cycles. *)
Lemma loop_rejected (fuel : nat) :
  forall st, atHead' st -> 0 <= lastIndex st ->
  forall st', loop fuel st = (st', Rejected) ->
  exists st1 pre w post,
    atHead' st1 /\ text = pre ++ w ++ post /\ isWord w /\ endsWord post /\
    body (len pre) w st1 = (st', Some Rejected).
Proof.
  induction fuel as [| fuel IH]; intros st Hhead Hli st';
    unfold loop, body in *; cbn [wordLoop];
    destruct (wordRegex_exec text (lastIndex st)) as [[mi w] |] eqn:Eexec;
    try (intros [= _ Hno]; discriminate Hno); try discriminate.
  destruct (wordRegex_exec_spec _ _ _ _ Hli Eexec)
    as (pre & post & Htext & Hpre & Hw & Hpost & Hle).
  set (st1 := mkState _ _ _ _).
  assert (Hhead1 : atHead' st1).
  { destruct Hhead as (tr & ms & Hsent & Hrep & Hcycles & Hv).
    exists tr, ms. repeat split; assumption. }
  destruct (loopBody _ _ _ _ _ _ _ _ mi w st1) as [st2 flow] eqn:Ebody.
  rewrite <- Hpre in Ebody.
  destruct (body_AtHead jumpToDef server now file uri text opened reported0
              pre w post st1 Htext Hw Hpost Hhead1 st2 flow Ebody)
    as [Hli2 Hflow].
  destruct flow as [status' |].
  - intros [= <- ->]. exists st1, pre, w, post. repeat split; assumption.
  - apply IH; [exact Hflow |]. rewrite Hli2. subst st1. cbn [lastIndex].
    pose proof (isWord_len w Hw). lia.
Qed.

(** What a rejected body has written: the probe and the request that was
    rejected, or the whole cycle when the result could not be counted. *)
Lemma body_rejected (pre w post : JsString) (st st' : State) :
  text = pre ++ w ++ post ->
  body (len pre) w st = (st', Some Rejected) ->
  exists lc,
    LineTable.get1BasedLineAndColumn (LineTable.new text) (len pre) = Some lc /\
    commentRegex_test (index (splitLines text) (line lc - 1)) = false /\
    let v := versionNumber st in
    let probe := DidChangeTextDocument uri (v + 1) (probeText jumpToDef pre w post) in
    let request := requestAt jumpToDef uri (v + 1)
                     (Position.create (line lc) (column lc)) in
    let revert := DidChangeTextDocument uri (v + 2) text in
    reported st' = reported st /\
    ((sent st' = sent st ++ [probe; request] /\ versionNumber st' = v + 1 /\
      server (sent st ++ [probe; request]) = ResponseError) \/
     (exists result,
        sent st' = sent st ++ [probe; request; revert] /\
        versionNumber st' = v + 2 /\
        server (sent st ++ [probe; request]) = Result result /\
        numberOfResults result = None)).
Proof.
  intros Htext. unfold body, loopBody.
  destruct (LineTable.get1BasedLineAndColumn _ _) as [lc |] eqn:Elc;
    [| discriminate].
  destruct (commentRegex_test _) eqn:Ecomment; [discriminate |].
  cbv zeta. rewrite (probe_text jumpToDef server now file uri text pre w post Htext).
  rewrite <- !app_assoc. cbn [app].
  fold (requestAt jumpToDef uri (versionNumber st + 1)
          (Position.create (line lc) (column lc))).
  intros H. exists lc. split; [reflexivity |]. split; [exact Ecomment |].
  cbv zeta. destruct (server _) as [result |] eqn:Eserver.
  - destruct (numberOfResults result) as [n |] eqn:En; [discriminate |].
    injection H as <-. cbn [sent reported versionNumber].
    split; [reflexivity |]. right. exists result.
    replace (versionNumber st + 1 + 1) with (versionNumber st + 2) by lia.
    repeat split; try reflexivity; assumption.
  - injection H as <-. cbn [sent reported versionNumber].
    split; [reflexivity |]. left. repeat split; reflexivity.
Qed.

(** The cycles of the loop, match by match: the [i]-th completed cycle
    is that of the [i]-th match that is not on a comment line.  Its probe
    carries the text computed from the match, its request the position of
    the match, and its measurement that position. *)
Lemma loop_probes (fuel : nat) :
  forall st,
  exists tr ms,
    sent (fst (loop fuel st)) = sent st ++ tr /\
    reported (fst (loop fuel st)) = reported st ++ ms /\
    (List.length ms <= List.length (probed fuel (lastIndex st)))%nat /\
    forall i matchIndex w,
      (i < List.length ms)%nat ->
      nth_error (probed fuel (lastIndex st)) i = Some (matchIndex, w) ->
      exists lc m,
        LineTable.get1BasedLineAndColumn (LineTable.new text) matchIndex
        = Some lc /\
        nth_error ms i = Some m /\
        Measurement.line m = line lc /\ Measurement.column m = column lc /\
        nth_error tr (3 * i)
        = Some (DidChangeTextDocument uri (versionNumber st + 2 * Z.of_nat i + 1)
                  (if jumpToDef
                   then substring text 0 (matchIndex + len w) ++ js " "
                        ++ substringFrom text (matchIndex + len w)
                   else substring text 0 matchIndex
                        ++ substringFrom text (matchIndex + len w))) /\
        nth_error tr (3 * i + 1)
        = Some (requestAt jumpToDef uri (versionNumber st + 2 * Z.of_nat i + 1)
                  (Position.create (line lc) (column lc))).
Proof.
  induction fuel as [| fuel IH]; intros st; unfold loop in *;
    cbn [wordLoop matchesFrom];
    destruct (wordRegex_exec text (lastIndex st)) as [[mi w] |] eqn:Eexec.
  1, 2, 4: exists [], []; cbn [fst sent reported filter List.length];
    rewrite !app_nil_r;
    (split; [reflexivity | split; [reflexivity | split; [lia | intros; lia]]]).
  set (st1 := mkState _ _ _ _).
  unfold loopBody. cbn [filter].
  destruct (LineTable.get1BasedLineAndColumn (LineTable.new text) mi)
    as [lc |] eqn:Elc.
  2:{ exists [], []. cbn [fst]. subst st1. cbn [sent reported List.length].
      rewrite !app_nil_r.
      split; [reflexivity | split; [reflexivity | split; [lia | intros; lia]]]. }
  assert (Hpos : positionOf text (mi, w) = Some lc) by exact Elc.
  assert (Hcom : onCommentLine text (mi, w)
                 = commentRegex_test (index (splitLines text) (line lc - 1)))
    by (unfold onCommentLine; rewrite Hpos; reflexivity).
  rewrite Hcom.
  destruct (commentRegex_test _) eqn:Ecom; cbn [negb].
  { destruct (IH st1) as (tr & ms & H1 & H2 & H3 & H4).
    exists tr, ms. split; [exact H1 |]. split; [exact H2 |].
    split; [exact H3 | exact H4]. }
  cbv zeta.
  fold (requestAt jumpToDef uri (versionNumber st1 + 1)
          (Position.create (line lc) (column lc))).
  destruct (server _) as [result |].
  2:{ eexists [_; _], []. cbn [fst]. subst st1.
      cbn [sent reported List.length]. rewrite <- !app_assoc, app_nil_r.
      split; [reflexivity | split; [reflexivity | split; [lia | intros; lia]]]. }
  destruct (numberOfResults result) as [n |].
  2:{ eexists [_; _; _], []. cbn [fst]. subst st1.
      cbn [sent reported List.length]. rewrite <- !app_assoc, app_nil_r.
      split; [reflexivity | split; [reflexivity | split; [lia | intros; lia]]]. }
  match goal with
  | |- context [wordLoop _ _ _ _ _ _ _ _ fuel ?s] => set (st2 := s)
  end.
  destruct (IH st2) as (tr & ms & H1 & H2 & H3 & H4).
  eexists ([_; _; _] ++ tr), (_ :: ms). rewrite H1, H2.
  subst st2 st1. cbn [sent reported versionNumber lastIndex] in *.
  split; [rewrite <- !app_assoc; reflexivity |].
  split; [rewrite <- !app_assoc; reflexivity |].
  split; [cbn [List.length]; lia |].
  intros i mi' w' Hi Hnth. destruct i as [| i].
  - cbn [nth_error] in Hnth. injection Hnth as <- <-.
    eexists lc, _. split; [exact Elc |]. split; [reflexivity |].
    cbn [Measurement.line Measurement.column nth_error app Nat.mul Nat.add].
    split; [reflexivity |]. split; [reflexivity |].
    replace (versionNumber st + 2 * Z.of_nat 0 + 1) with (versionNumber st + 1)
      by lia.
    split; reflexivity.
  - cbn [nth_error List.length] in Hnth, Hi.
    destruct (H4 i mi' w' ltac:(lia) Hnth)
      as (lc' & m & Hlc' & Hm & Hline & Hcol & Hprobe & Hrequest).
    exists lc', m. split; [exact Hlc' |]. split; [exact Hm |].
    split; [exact Hline |]. split; [exact Hcol |].
    replace (3 * S i)%nat with (3 + 3 * i)%nat by lia.
    replace (3 + 3 * i + 1)%nat with (3 + (3 * i + 1))%nat by lia.
    replace (versionNumber st + 2 * Z.of_nat (S i) + 1)
      with (versionNumber st + 1 + 1 + 2 * Z.of_nat i + 1) by lia.
    split; [exact Hprobe | exact Hrequest].
Qed.

End RunFacts.

(** ** The run of one file, match by match *)

Lemma benchFile_rejected (jumpToDef : bool) (server : list Message -> Response)
  (now : list Message -> list Measurement.t -> float)
  (readFileSync fileUri : JsString -> JsString)
  (file : JsString) (sent0 : list Message) (reported0 : list Measurement.t) :
  let text := readFileSync file in
  let uri := fileUri file in
  let opening := DidOpenTextDocument uri (js "codeql") 1 text in
  let run := benchFile jumpToDef server now readFileSync fileUri file
               sent0 reported0 in
  let ms := measured reported0 (fst run) in
  snd run = Rejected ->
  exists tr pre w post lc,
    Cycles jumpToDef server now file uri text (sent0 ++ [opening]) reported0
      tr ms /\
    text = pre ++ w ++ post /\ isWord w /\ endsWord post /\
    LineTable.get1BasedLineAndColumn (LineTable.new text) (len pre) = Some lc /\
    commentRegex_test (index (splitLines text) (line lc - 1)) = false /\
    let v := 1 + 2 * len ms in
    let probe :=
      DidChangeTextDocument uri (v + 1) (probeText jumpToDef pre w post) in
    let request :=
      requestAt jumpToDef uri (v + 1) (Position.create (line lc) (column lc)) in
    let revert := DidChangeTextDocument uri (v + 2) text in
    (written sent0 (fst run) = opening :: tr ++ [probe; request] /\
     versionNumber (fst run) = v + 1 /\
     server (sent0 ++ opening :: tr ++ [probe; request]) = ResponseError) \/
    (exists result,
       written sent0 (fst run) = opening :: tr ++ [probe; request; revert] /\
       versionNumber (fst run) = v + 2 /\
       server (sent0 ++ opening :: tr ++ [probe; request]) = Result result /\
       numberOfResults result = None).
Proof.
  intros text uri opening run ms. subst ms run. unfold benchFile.
  fold text. fold uri. fold opening.
  set (st0 := mkState 1 0 (sent0 ++ [opening]) reported0).
  assert (Hhead : AtHead jumpToDef server now file uri text
                    (sent0 ++ [opening]) reported0 st0).
  { exists [], []. rewrite !app_nil_r. repeat split; constructor. }
  destruct (wordLoop jumpToDef server now file uri text (splitLines text)
              (LineTable.new text) (List.length text) st0)
    as [st status] eqn:Erun.
  cbn [fst snd]. intros ->.
  destruct (loop_rejected jumpToDef server now file uri text (sent0 ++ [opening])
              reported0 (List.length text) st0 Hhead (Z.le_refl 0) st Erun)
    as (st1 & pre & w & post & (tr & ms & Hsent & Hrep & Hcycles & Hv)
        & Htext & Hw & Hpost & Hbody).
  destruct (body_rejected jumpToDef server now file uri text pre w post st1 st
              Htext Hbody) as (lc & Hlc & Hcomment & Hrep' & Hcases).
  assert (Hms : measured reported0 st = ms).
  { unfold measured. rewrite Hrep', Hrep. apply skipn_app_exact. }
  rewrite Hms. exists tr, pre, w, post, lc.
  split; [exact Hcycles |]. split; [exact Htext |]. split; [exact Hw |].
  split; [exact Hpost |]. split; [exact Hlc |]. split; [exact Hcomment |].
  cbv zeta in Hcases |- *. rewrite Hv, Hsent in Hcases.
  assert (Hskip : forall extra,
             skipn (List.length sent0) (((sent0 ++ [opening]) ++ tr) ++ extra)
             = opening :: tr ++ extra).
  { intros extra. rewrite <- !app_assoc. apply skipn_app_exact. }
  assert (Hassoc : forall extra,
             ((sent0 ++ [opening]) ++ tr) ++ extra
             = sent0 ++ opening :: tr ++ extra).
  { intros extra. rewrite <- !app_assoc. reflexivity. }
  destruct Hcases as [(Hs & Hver & Hserver) | (result & Hs & Hver & Hserver & Hn)].
  - left. unfold written. rewrite Hs, Hskip. rewrite Hassoc in Hserver.
    repeat split; assumption.
  - right. exists result. unfold written. rewrite Hs, Hskip.
    rewrite Hassoc in Hserver. repeat split; assumption.
Qed.

(** A run of a file whose text is shorter than [2 ^ 31] completes when
    the server answers every request with a result that can be counted. *)
Lemma benchFile_answered (jumpToDef : bool) (server : list Message -> Response)
  (now : list Message -> list Measurement.t -> float)
  (readFileSync fileUri : JsString -> JsString)
  (file : JsString) (sent0 : list Message) (reported0 : list Measurement.t) :
  len (readFileSync file) < 2 ^ 31 ->
  (forall msgs, exists result n,
      server msgs = Result result /\ numberOfResults result = Some n) ->
  snd (benchFile jumpToDef server now readFileSync fileUri file sent0 reported0)
  = Completed.
Proof.
  intros Hlen Hserver.
  destruct (benchFile_run jumpToDef server now readFileSync fileUri file
              sent0 reported0)
    as (_ & _ & _ & _ & _ & _ & _ & Hfuel).
  specialize (Hfuel Hlen).
  set (run := benchFile jumpToDef server now readFileSync fileUri file
                sent0 reported0) in *.
  destruct (snd run) eqn:Estatus; [reflexivity | exfalso | congruence].
  destruct (benchFile_rejected jumpToDef server now readFileSync fileUri file
              sent0 reported0 Estatus)
    as (tr' & pre & w & post & lc & _ & _ & _ & _ & _ & _ & Hcases).
  cbv zeta in Hcases.
  destruct Hcases as [(_ & _ & Hs) | (result & _ & _ & Hs & Hn)];
    match type of Hs with
    | server ?msgs = _ => destruct (Hserver msgs) as (result' & n & Hr & Hn')
    end; congruence.
Qed.






(** ** The command line *)

Lemma strEq_spec (a : JsString) :
  forall b, strEq a b = true <-> a = b.
Proof.
  induction a as [| x a IH]; intros [| y b]; cbn [strEq]; split;
    try discriminate; try reflexivity.
  - intros H. apply andb_true_iff in H. destruct H as [H1 H2].
    apply N.eqb_eq in H1. apply IH in H2. congruence.
  - intros [= -> ->]. rewrite N.eqb_refl. apply IH. reflexivity.
Qed.

Lemma strEq_neq (a b : JsString) : strEq a b = false <-> a <> b.
Proof.
  split.
  - intros H Heq. apply strEq_spec in Heq. congruence.
  - intros H. destruct (strEq a b) eqn:E; [| reflexivity].
    apply strEq_spec in E. contradiction.
Qed.

Lemma includes_In (array : list JsString) (x : JsString) :
  includes array x = true <-> In x array.
Proof.
  unfold includes. rewrite existsb_exists. split.
  - intros (y & Hin & Heq). apply strEq_spec in Heq. subst. exact Hin.
  - intros Hin. exists x. split; [exact Hin | apply strEq_spec; reflexivity].
Qed.

Lemma in_first (x : JsString) (array : list JsString) :
  In x array -> exists pre post, array = pre ++ x :: post /\ ~ In x pre.
Proof.
  induction array as [| y array IH]; intros Hin; [destruct Hin |].
  destruct (strEq y x) eqn:E.
  - apply strEq_spec in E. subst y. exists [], array.
    split; [reflexivity | intros []].
  - apply strEq_neq in E. destruct Hin as [Heq | Hin]; [contradiction |].
    destruct (IH Hin) as (pre & post & -> & Hpre).
    exists (y :: pre), post. split; [reflexivity |].
    intros [Heq | Hin']; [contradiction | exact (Hpre Hin')].
Qed.

Lemma indexOf_from_found (x : JsString) (pre post : list JsString) :
  forall i, ~ In x pre -> indexOf_from (pre ++ x :: post) x i = i + len pre.
Proof.
  induction pre as [| y pre IH]; intros i Hpre; cbn [app indexOf_from].
  - replace (strEq x x) with true by (symmetry; apply strEq_spec; reflexivity).
    rewrite len_nil. lia.
  - replace (strEq y x) with false.
    + rewrite IH, len_cons; [lia |]. intros Hin. apply Hpre. right. exact Hin.
    + symmetry. apply strEq_neq. intros ->. apply Hpre. left. reflexivity.
Qed.

Lemma indexOf_from_missing (x : JsString) (array : list JsString) :
  forall i, ~ In x array -> indexOf_from array x i = -1.
Proof.
  induction array as [| y array IH]; intros i Hno; cbn [indexOf_from];
    [reflexivity |].
  replace (strEq y x) with false.
  - apply IH. intros Hin. apply Hno. right. exact Hin.
  - symmetry. apply strEq_neq. intros ->. apply Hno. left. reflexivity.
Qed.

Lemma sliceFrom_2 {A : Type} (argv : list A) : sliceFrom argv 2 = skipn 2 argv.
Proof.
  unfold sliceFrom, relativeIndex. cbn [Z.ltb Z.compare].
  destruct (Z.le_gt_cases 2 (len argv)) as [Hle | Hgt].
  - rewrite Z.min_l by exact Hle. reflexivity.
  - rewrite Z.min_r by lia. unfold len. rewrite Nat2Z.id.
    rewrite skipn_all. symmetry. apply skipn_all2. unfold len in Hgt. lia.
Qed.

Lemma slice_prefix {A : Type} (pre : list A) (x : A) (post : list A) :
  slice (pre ++ x :: post) 0 (len pre) = pre.
Proof.
  unfold slice, relativeIndex. pose proof (len_nonneg pre) as Hpre.
  pose proof (len_nonneg post) as Hpost.
  destruct (Z.ltb_spec (len pre) 0) as [Hneg | _]; [lia |].
  cbn [Z.ltb Z.compare]. rewrite len_app, len_cons.
  rewrite (Z.min_l 0) by lia. rewrite Z.min_l by lia.
  cbn [Z.to_nat skipn]. rewrite Z.sub_0_r. unfold len. rewrite Nat2Z.id.
  rewrite firstn_app, Nat.sub_diag, firstn_all. cbn [firstn]. apply app_nil_r.
Qed.

Lemma sliceFrom_suffix {A : Type} (pre : list A) (x : A) (post : list A) :
  sliceFrom (pre ++ x :: post) (len pre + 1) = post.
Proof.
  unfold sliceFrom, relativeIndex. pose proof (len_nonneg pre) as Hpre.
  pose proof (len_nonneg post) as Hpost.
  destruct (Z.ltb_spec (len pre + 1) 0) as [Hneg | _]; [lia |].
  rewrite len_app, len_cons. rewrite Z.min_l by lia.
  replace (Z.to_nat (len pre + 1)) with (List.length (pre ++ [x])).
  - replace (pre ++ x :: post) with ((pre ++ [x]) ++ post)
      by (rewrite <- app_assoc; reflexivity).
    apply skipn_app_exact.
  - rewrite length_app. cbn [List.length]. unfold len. lia.
Qed.

(** The kinds of arguments: the tests of the loop exclude one another. *)
Lemma arg_kind (arg : JsString) :
  let dash := startsWith (js "-") arg in
  let jump := strEq arg (js "--jump") in
  let format := startsWith (js "--format=") arg in
  let language := startsWith (js "--language=") arg in
  let workspace := startsWith (js "--workspace=") arg in
  (dash, jump, format, language, workspace) = (false, false, false, false, false) \/
  (dash, jump, format, language, workspace) = (true, true, false, false, false) \/
  (dash, jump, format, language, workspace) = (true, false, true, false, false) \/
  (dash, jump, format, language, workspace) = (true, false, false, true, false) \/
  (dash, jump, format, language, workspace) = (true, false, false, false, true) \/
  (dash, jump, format, language, workspace) = (true, false, false, false, false).
Proof.
  cbv zeta.
  destruct (startsWith (js "--workspace=") arg) eqn:Ework.
  { apply startsWith_spec in Ework. destruct Ework as [tail ->].
    do 4 right. left. reflexivity. }
  destruct (startsWith (js "--language=") arg) eqn:Elang.
  { apply startsWith_spec in Elang. destruct Elang as [tail ->].
    do 3 right. left. reflexivity. }
  destruct (startsWith (js "--format=") arg) eqn:Eformat.
  { apply startsWith_spec in Eformat. destruct Eformat as [tail ->].
    do 2 right. left. reflexivity. }
  destruct (strEq arg (js "--jump")) eqn:Ejump.
  { apply strEq_spec in Ejump. subst arg. right. left. reflexivity. }
  destruct (startsWith (js "-") arg); [do 5 right | left]; reflexivity.
Qed.

Ltac arg_kinds arg :=
  let H := fresh "Hkind" in
  pose proof (arg_kind arg) as H; cbv zeta in H;
  destruct H as [H | [H | [H | [H | [H | H]]]]];
  apply pair_equal_spec in H; destruct H as [H ?];
  apply pair_equal_spec in H; destruct H as [H ?];
  apply pair_equal_spec in H; destruct H as [H ?];
  apply pair_equal_spec in H; destruct H as [? ?].

Lemma valueOf_prefix (prefix v : JsString) : valueOf prefix (prefix ++ v) = v.
Proof. unfold valueOf. apply substringFrom_suffix. Qed.

(** One turn of the loop over the arguments, on an argument that is
    accepted. *)
Lemma optionLoop_step (arg : JsString) (rest : list JsString) (st : Locals) :
  accepted arg = true ->
  exists st1,
    optionLoop (arg :: rest) st = optionLoop rest st1 /\
    files st1 = files st ++ filter isFileArg [arg] /\
    jumpToDef st1 = jumpToDef st || strEq arg (js "--jump") /\
    workspaceFolders st1
    = workspaceFolders st
        ++ map (valueOf (js "--workspace="))
             (filter (startsWith (js "--workspace=")) [arg]) /\
    language st1
    = (if startsWith (js "--language=") arg
       then valueOf (js "--language=") arg else language st) /\
    reporter st1
    = (if startsWith (js "--format=") arg
       then Reporters.get (valueOf (js "--format=") arg) else reporter st) /\
    (startsWith (js "--format=") arg = true ->
     includes Reporters.keys (valueOf (js "--format=") arg) = true).
Proof.
  unfold accepted, isFileArg. cbn [optionLoop filter map].
  unfold isFileArg, valueOf.
  arg_kinds arg;
    repeat match goal with
           | H : _ = true |- _ => rewrite H
           | H : _ = false |- _ => rewrite H
           end; cbn [negb orb andb app]; intros Hacc;
    rewrite ?orb_false_r in Hacc.
  - eexists. split; [reflexivity |]. cbn [files jumpToDef workspaceFolders
                                            language reporter].
    rewrite orb_false_r, app_nil_r. repeat split. discriminate.
  - eexists. split; [reflexivity |]. cbn [files jumpToDef workspaceFolders
                                            language reporter].
    rewrite orb_true_r, !app_nil_r. repeat split. discriminate.
  - rewrite Hacc. cbn [negb]. eexists. split; [reflexivity |].
    cbn [files jumpToDef workspaceFolders language reporter].
    rewrite orb_false_r, !app_nil_r. repeat split.
  - eexists. split; [reflexivity |]. cbn [files jumpToDef workspaceFolders
                                            language reporter].
    rewrite orb_false_r, !app_nil_r. repeat split. discriminate.
  - eexists. split; [reflexivity |]. cbn [files jumpToDef workspaceFolders
                                            language reporter].
    rewrite orb_false_r, !app_nil_r. repeat split. discriminate.
  - discriminate.
Qed.

(** One turn of the loop on an argument that is not accepted. *)
Lemma optionLoop_bad (arg : JsString) (rest : list JsString) (st : Locals) :
  accepted arg = false ->
  optionLoop (arg :: rest) st = inr (Fail (complaint arg)).
Proof.
  unfold accepted, isFileArg, complaint. cbn [optionLoop]. unfold valueOf.
  arg_kinds arg;
    repeat match goal with
           | H : _ = true |- _ => rewrite H
           | H : _ = false |- _ => rewrite H
           end; cbn [negb orb andb]; intros Hacc;
    rewrite ?orb_false_r in Hacc; try discriminate.
  - rewrite Hacc. reflexivity.
  - reflexivity.
Qed.

(** The loop over the arguments: it fails on the first argument that is
    not accepted, and otherwise gathers the files, the flag, the folders,
    the last language and the last format. *)
Lemma optionLoop_spec (args : list JsString) :
  forall st,
    match optionLoop args st with
    | inl st' =>
        Forall (fun a => accepted a = true) args /\
        files st' = files st ++ filter isFileArg args /\
        jumpToDef st' = jumpToDef st || includes args (js "--jump") /\
        workspaceFolders st'
        = workspaceFolders st
            ++ map (valueOf (js "--workspace="))
                 (filter (startsWith (js "--workspace=")) args) /\
        LastOf (js "--language=") args (language st) (language st') /\
        ((reporter st' = reporter st /\
          Forall (fun a => startsWith (js "--format=") a = false) args) \/
         exists key,
           (exists before after,
               args = before ++ (js "--format=" ++ key) :: after /\
               Forall (fun a => startsWith (js "--format=") a = false) after) /\
           includes Reporters.keys key = true /\
           reporter st' = Reporters.get key)
    | inr exit =>
        exists before bad after,
          args = before ++ bad :: after /\
          Forall (fun a => accepted a = true) before /\
          accepted bad = false /\
          exit = Fail (complaint bad)
    end.
Proof.
  induction args as [| arg rest IH]; intros st.
  - cbn [optionLoop filter map includes existsb]. rewrite !app_nil_r, orb_false_r.
    split; [constructor |]. split; [reflexivity |]. split; [reflexivity |].
    split; [reflexivity |].
    split; left; (split; [reflexivity | constructor]).
  - destruct (accepted arg) eqn:Hacc.
    2:{ rewrite (optionLoop_bad arg rest st Hacc).
        exists [], arg, rest. repeat split; [constructor | exact Hacc]. }
    destruct (optionLoop_step arg rest st Hacc)
      as (st1 & -> & Hfiles & Hjump & Hwork & Hlang & Hrep & Hkey).
    specialize (IH st1). destruct (optionLoop rest st1) as [st' | exit].
    + destruct IH as (Hall & Hfiles' & Hjump' & Hwork' & Hlang' & Hrep').
      split; [constructor; assumption |].
      split.
      { rewrite Hfiles', Hfiles, <- app_assoc. f_equal.
        cbn [filter]. destruct (isFileArg arg); reflexivity. }
      split.
      { rewrite Hjump', Hjump. unfold includes. cbn [existsb].
        rewrite orb_assoc. reflexivity. }
      split.
      { rewrite Hwork', Hwork, <- app_assoc. f_equal.
        cbn [filter]. destruct (startsWith (js "--workspace=") arg); reflexivity. }
      split.
      { destruct Hlang' as [[Hv Hnone] | (before & after & Hrest & Hnone)].
        - destruct (startsWith (js "--language=") arg) eqn:El.
          + right. apply startsWith_spec in El. destruct El as [v ->].
            exists [], rest. rewrite Hv, Hlang, valueOf_prefix.
            split; [reflexivity | exact Hnone].
          + left. split; [congruence | constructor; assumption].
        - right. exists (arg :: before), after.
          split; [rewrite Hrest; reflexivity | exact Hnone]. }
      destruct Hrep' as [[Hv Hnone] | (key & (before & after & Hrest & Hnone) & Hin & Hget)].
      * destruct (startsWith (js "--format=") arg) eqn:Ef.
        -- right. specialize (Hkey eq_refl).
           apply startsWith_spec in Ef. destruct Ef as [key ->].
           rewrite valueOf_prefix in Hkey, Hrep.
           exists key. split; [| split; [exact Hkey | congruence]].
           exists [], rest. split; [reflexivity | exact Hnone].
        -- left. split; [congruence | constructor; assumption].
      * right. exists key. split; [| split; assumption].
        exists (arg :: before), after.
        split; [rewrite Hrest; reflexivity | exact Hnone].
    + destruct IH as (before & bad & after & -> & Hbefore & Hbad & ->).
      exists (arg :: before), bad, after.
      repeat split; [constructor; assumption | exact Hbad].
Qed.

(** The loop fails on the first argument that is not accepted. *)
Lemma optionLoop_rejects (before : list JsString) (bad : JsString)
  (after : list JsString) :
  Forall (fun a => accepted a = true) before ->
  accepted bad = false ->
  forall st, optionLoop (before ++ bad :: after) st = inr (Fail (complaint bad)).
Proof.
  induction before as [| arg before IH]; intros Hbefore Hbad st; cbn [app].
  - apply optionLoop_bad, Hbad.
  - inversion Hbefore as [| ? ? Harg Hrest]; subst.
    destruct (optionLoop_step arg (before ++ bad :: after) st Harg)
      as (st1 & -> & _).
    apply IH; assumption.
Qed.

Section CheckFiles.

Variable existsSync : JsString -> bool.
Variable isDirectory : JsString -> bool.

Lemma checkFiles_spec (files : list JsString) :
  match checkFiles existsSync isDirectory files with
  | None => Forall (fun f => usable existsSync isDirectory f = true) files
  | Some exit =>
      exists good f rest,
        files = good ++ f :: rest /\
        Forall (fun f => usable existsSync isDirectory f = true) good /\
        usable existsSync isDirectory f = false /\
        exit = Fail (fileComplaint existsSync f)
  end.
Proof.
  induction files as [| file files IH]; cbn [checkFiles]; [constructor |].
  destruct (existsSync file) eqn:Eexists; cbn [negb].
  - destruct (isDirectory file) eqn:Edir.
    + exists [], file, files. unfold usable, fileComplaint.
      rewrite Eexists, Edir. repeat split. constructor.
    + assert (Hfile : usable existsSync isDirectory file = true)
        by (unfold usable; rewrite Eexists, Edir; reflexivity).
      destruct (checkFiles existsSync isDirectory files) as [exit |].
      * destruct IH as (good & f & rest & -> & Hgood & Hf & ->).
        exists (file :: good), f, rest.
        repeat split; [constructor; assumption | exact Hf].
      * constructor; assumption.
  - exists [], file, files. unfold usable, fileComplaint.
    rewrite Eexists. repeat split. constructor.
Qed.

Lemma checkFiles_fails (good : list JsString) (f : JsString)
  (rest : list JsString) :
  Forall (fun f => usable existsSync isDirectory f = true) good ->
  usable existsSync isDirectory f = false ->
  checkFiles existsSync isDirectory (good ++ f :: rest)
  = Some (Fail (fileComplaint existsSync f)).
Proof.
  unfold usable, fileComplaint.
  induction good as [| file good IH]; intros Hgood Hf; cbn [app checkFiles].
  - destruct (existsSync f); cbn [negb andb] in *; [| reflexivity].
    destruct (isDirectory f); [reflexivity | discriminate].
  - inversion Hgood as [| ? ? Hfile Hrest]; subst.
    apply andb_true_iff in Hfile. destruct Hfile as [-> Hdir].
    apply negb_true_iff in Hdir. rewrite Hdir. cbn [negb].
    apply IH; assumption.
Qed.

Variable cwd : JsString.

Lemma parseOptions_help (argv : list JsString) :
  ~ In (js "--") (skipn 2 argv) ->
  parseOptions existsSync isDirectory cwd argv = Exits Help.
Proof.
  intros Hno. unfold parseOptions. rewrite sliceFrom_2. unfold indexOf.
  rewrite (indexOf_from_missing _ _ 0 Hno). reflexivity.
Qed.

Lemma parseOptions_dash (argv optionArgs command : list JsString) :
  skipn 2 argv = optionArgs ++ js "--" :: command ->
  ~ In (js "--") optionArgs ->
  parseOptions existsSync isDirectory cwd argv
  = match optionLoop optionArgs
            (mkLocals [] false (js "codeql") [] (Some Reporters.human)) with
    | inr exit => Exits exit
    | inl st =>
        match checkFiles existsSync isDirectory (files st) with
        | Some exit => Exits exit
        | None =>
            Returns
              (Config.mk (files st) command
                 (Options.mk (jumpToDef st) (language st)
                    (if len (workspaceFolders st) =? 0
                     then workspaceFolders st ++ [cwd]
                     else workspaceFolders st)))
              (reporter st)
        end
    end.
Proof.
  intros Hargs Hno. unfold parseOptions. rewrite sliceFrom_2, Hargs.
  unfold indexOf. rewrite (indexOf_from_found _ _ _ 0 Hno).
  pose proof (len_nonneg optionArgs) as Hlen.
  destruct (Z.eqb_spec (0 + len optionArgs) (-1)) as [Heq | _]; [lia |].
  cbn [Z.add]. rewrite slice_prefix, sliceFrom_suffix. reflexivity.
Qed.

End CheckFiles.

(** ** The time of a measurement *)

Section CycleTime.

Variable jumpToDef : bool.
Variable server : list Message -> Response.
Variable now : list Message -> list Measurement.t -> float.
Variables file uri text : JsString.
Variable opened : list Message.
Variable reported0 : list Measurement.t.

(** The time of the [k]-th measurement: from the reading of the clock
    before the probe of its cycle is written to the reading after its
    revert is written. *)
Lemma Cycles_time (tr : list Message) (ms : list Measurement.t) :
  Cycles jumpToDef server now file uri text opened reported0 tr ms ->
  forall (k : nat) (m : Measurement.t),
    nth_error ms k = Some m ->
    Measurement.time m
    = round (now (opened ++ firstn (3 * k + 3) tr) (reported0 ++ firstn k ms)
             - now (opened ++ firstn (3 * k) tr) (reported0 ++ firstn k ms))%float.
Proof.
  induction 1 as [| tr ms pre w post lc result n Hc IH Htext Hw Hpost Hlc Hcomment
                    v probe request revert Hserver Hn];
    intros k m Hk.
  - destruct k; discriminate.
  - pose proof (Cycles_length _ _ _ _ _ _ _ _ _ _ Hc) as Hlen.
    destruct (Nat.lt_ge_cases k (List.length ms)) as [Hlt | Hge].
    + rewrite nth_error_app1 in Hk by exact Hlt.
      rewrite !firstn_app.
      replace (3 * k + 3 - List.length tr)%nat with 0%nat by lia.
      replace (3 * k - List.length tr)%nat with 0%nat by lia.
      replace (k - List.length ms)%nat with 0%nat by lia.
      rewrite !firstn_O, !app_nil_r. apply IH, Hk.
    + assert (Hk' : k = List.length ms).
      { assert (Hsome : nth_error (ms ++ [Measurement.mk file (line lc) (column lc)
                  (round (now (opened ++ tr ++ [probe; request; revert])
                              (reported0 ++ ms)
                          - now (opened ++ tr) (reported0 ++ ms))%float) n]) k <> None)
          by congruence.
        apply nth_error_Some in Hsome. rewrite length_app in Hsome. simpl in Hsome.
        lia. }
      subst k. rewrite nth_error_app2, Nat.sub_diag in Hk by lia.
      injection Hk as <-. cbn [Measurement.time].
      rewrite (firstn_all2 (n := 3 * List.length ms + 3))
        by (rewrite length_app; cbn [List.length]; lia).
      rewrite !firstn_app.
      replace (3 * List.length ms - List.length tr)%nat with 0%nat by lia.
      rewrite Nat.sub_diag, !firstn_O, !app_nil_r.
      rewrite <- Hlen, !firstn_all. reflexivity.
Qed.

End CycleTime.

(** ** The order of positions *)

Lemma getLineFromOffset_mono (text : JsString) (o1 o2 r1 r2 : Z) :
  len text < 2 ^ 31 -> 0 <= o1 <= o2 ->
  LineTable.getLineFromOffset (LineTable.new text) o1 = Some r1 ->
  LineTable.getLineFromOffset (LineTable.new text) o2 = Some r2 ->
  r1 <= r2.
Proof.
  intros Hlen Ho Hr1 Hr2.
  destruct (getLineFromOffset_spec text o1 Hlen)
    as (r1' & Hr1' & Hrange1 & _ & Hpos1).
  destruct (getLineFromOffset_spec text o2 Hlen)
    as (r2' & Hr2' & Hrange2 & _ & Hpos2).
  assert (r1' = r1) by congruence. assert (r2' = r2) by congruence.
  subst r1' r2'.
  destruct (Hpos1 ltac:(lia)) as [Hle1 _].
  destruct (Hpos2 ltac:(lia)) as [_ Hgt2].
  destruct (Z.le_gt_cases r1 r2) as [Hle | Hgt]; [exact Hle | exfalso].
  destruct (index_defined _ r1 Hrange1) as [s1 Hs1].
  specialize (Hle1 s1 Hs1). specialize (Hgt2 r1 s1 Hgt Hs1). lia.
Qed.

(** The positions of two offsets in the order of the offsets. *)
Lemma positions_ordered (text : JsString) (o1 o2 : Z) :
  len text < 2 ^ 31 -> 0 <= o1 <= o2 ->
  exists l1 c1 l2 c2,
    LineTable.get1BasedLineAndColumn (LineTable.new text) o1
    = Some (mkLineAndColumn1 l1 (Num c1)) /\
    LineTable.get1BasedLineAndColumn (LineTable.new text) o2
    = Some (mkLineAndColumn1 l2 (Num c2)) /\
    (l1 < l2 \/ (l1 = l2 /\ c2 - c1 = o2 - o1)).
Proof.
  intros Hlen Ho.
  destruct (get1BasedLineAndColumn_defined text o1 Hlen)
    as (r1 & s1 & Hr1 & Hs1 & Hlc1).
  destruct (get1BasedLineAndColumn_defined text o2 Hlen)
    as (r2 & s2 & Hr2 & Hs2 & Hlc2).
  exists (r1 + 1), (o1 - s1 + 1), (r2 + 1), (o2 - s2 + 1).
  split; [exact Hlc1 |]. split; [exact Hlc2 |].
  pose proof (getLineFromOffset_mono text o1 o2 r1 r2 Hlen Ho Hr1 Hr2) as Hmono.
  destruct (Z.eq_dec r1 r2) as [-> | Hne]; [right | left; lia].
  assert (s1 = s2) by congruence. subst s2. split; lia.
Qed.

Lemma StronglySorted_filter {A : Type} (R : A -> A -> Prop) (f : A -> bool)
  (l : list A) :
  StronglySorted R l -> StronglySorted R (filter f l).
Proof.
  induction 1 as [| a l Hs IH Ha]; cbn [filter]; [constructor |].
  destruct (f a); [| exact IH].
  constructor; [exact IH |].
  rewrite Forall_forall in Ha |- *. intros x Hx.
  apply filter_In in Hx. apply Ha, Hx.
Qed.

Lemma StronglySorted_firstn {A : Type} (R : A -> A -> Prop) (l : list A) :
  StronglySorted R l -> forall k, StronglySorted R (firstn k l).
Proof.
  induction 1 as [| a l Hs IH Ha]; intros [| k]; cbn [firstn];
    try constructor.
  - apply IH.
  - rewrite Forall_forall in Ha |- *. intros x Hx.
    apply Ha. rewrite <- (firstn_skipn k l). apply in_or_app. left. exact Hx.
Qed.

Lemma StronglySorted_nth {A : Type} (R : A -> A -> Prop) (l : list A) :
  StronglySorted R l ->
  forall i j a b, (i < j)%nat ->
    nth_error l i = Some a -> nth_error l j = Some b -> R a b.
Proof.
  induction 1 as [| x l Hs IH Hx]; intros i j a b Hij Hi Hj.
  - destruct i; discriminate.
  - destruct j as [| j]; [lia |]. cbn [nth_error] in Hj.
    destruct i as [| i].
    + injection Hi as <-. rewrite Forall_forall in Hx.
      apply Hx. eapply nth_error_In. exact Hj.
    + cbn [nth_error] in Hi. apply (IH i j); [lia | assumption | assumption].
Qed.

(** * The claims on the position index *)

(** C6: on the table of a text (shorter than [2 ^ 31]), the lookup of an
    offset returns a line of the table: line 0 when the offset precedes
    every line start; otherwise the greatest line whose start is at or
    before the offset, which is the last line when the offset is at or
    beyond the last start, and the line that starts at the offset when
    there is one. *)
Theorem getLineFromOffset_greatest (text : JsString) (offset : Z) :
  len text < 2 ^ 31 ->
  let table := LineTable.new text in
  exists l start,
    LineTable.getLineFromOffset table offset = Some l /\
    LineTable.getStartOfLine table l = Some start /\
    ((forall j s, LineTable.getStartOfLine table j = Some s -> offset < s) ->
     l = 0) /\
    ((exists j s, LineTable.getStartOfLine table j = Some s /\ s <= offset) ->
     start <= offset /\
     forall j s, LineTable.getStartOfLine table j = Some s -> s <= offset -> j <= l) /\
    (forall s,
        LineTable.getStartOfLine table (len (LineTable.lineStarts table) - 1) = Some s ->
        s <= offset -> l = len (LineTable.lineStarts table) - 1) /\
    (forall i, LineTable.getStartOfLine table i = Some offset -> l = i).
Proof.
  intros Hlen table.
  destruct (getLineFromOffset_spec text offset Hlen)
    as (l & Hl & Hrange & Hneg & Hpos).
  fold table in Hl, Hrange, Hneg, Hpos.
  destruct (index_defined _ l Hrange) as [start Hstart].
  pose proof (new_first text) as H0. fold table in H0.
  pose proof (new_increasing text) as Hinc. fold table in Hinc.
  assert (Hgreatest : 0 <= offset -> start <= offset /\
            forall j s, LineTable.getStartOfLine table j = Some s ->
                        s <= offset -> j <= l).
  { intros Hoff. destruct (Hpos Hoff) as [Hle Hgt]. split.
    - apply Hle. exact Hstart.
    - intros j s Hj Hs. destruct (Z_le_gt_dec j l) as [? | Hjl]; [assumption |].
      assert (offset < s) by (apply (Hgt j); [lia | exact Hj]). lia. }
  assert (Hnonneg : forall j s, LineTable.getStartOfLine table j = Some s -> 0 <= s).
  { intros j s Hj. pose proof (index_in_range _ _ _ Hj) as Hjr.
    destruct (Z.eq_dec j 0) as [-> | Hne].
    - unfold LineTable.getStartOfLine in Hj. rewrite H0 in Hj.
      injection Hj as <-. lia.
    - assert (0 < s) by (apply (Hinc 0 j); [lia | exact H0 | exact Hj]). lia. }
  exists l, start. split; [exact Hl |]. split; [exact Hstart |].
  split; [| split; [| split]].
  - intros Hall. apply Hneg. apply (Hall 0 0). exact H0.
  - intros (j & s & Hj & Hs). apply Hgreatest.
    pose proof (Hnonneg j s Hj). lia.
  - intros s Hs Hle.
    assert (Hoff : 0 <= offset) by (pose proof (Hnonneg _ s Hs); lia).
    destruct (Hgreatest Hoff) as [_ Hmax].
    pose proof (Hmax _ s Hs Hle). lia.
  - intros i Hi.
    assert (Hoff : 0 <= offset) by (apply (Hnonneg i); exact Hi).
    destruct (Hgreatest Hoff) as [Hle Hmax].
    assert (i <= l) by (apply (Hmax i offset); [exact Hi | lia]).
    destruct (Z.eq_dec i l) as [-> | Hne]; [reflexivity |].
    assert (offset < start) by (apply (Hinc i l); [lia | exact Hi | exact Hstart]).
    lia.
Qed.

Lemma getLineFromOffset_greatest_witness :
  len (js "a" ++ [Chars.lineFeed] ++ js "b") < 2 ^ 31 /\
  exists l start,
    LineTable.getLineFromOffset
      (LineTable.new (js "a" ++ [Chars.lineFeed] ++ js "b")) 2 = Some l /\
    LineTable.getStartOfLine
      (LineTable.new (js "a" ++ [Chars.lineFeed] ++ js "b")) l = Some start.
Proof.
  split; [reflexivity |].
  destruct (getLineFromOffset_greatest (js "a" ++ [Chars.lineFeed] ++ js "b") 2 eq_refl)
    as (l & start & Hl & Hstart & _).
  exists l, start. split; assumption.
Defined.

(** C7: the line starts built by the constructor are strictly increasing
    and begin with 0, for every text and so for every non-empty one; for
    the empty text they are the single entry 0. *)
Theorem lineStarts_strictly_increasing (text : JsString) :
  StronglySorted Z.lt (LineTable.lineStarts (LineTable.new text)) /\
  LineTable.getStartOfLine (LineTable.new text) 0 = Some 0 /\
  LineTable.lineStarts (LineTable.new []) = [0].
Proof.
  split; [apply new_sorted_bounds |].
  split; [apply new_first | reflexivity].
Qed.

(** C8: at a carriage return followed by a line feed the scan of the
    constructor pushes one line start, the offset after the line feed, and
    goes on from there; the table then holds that offset and not the
    offset between the two characters.  The text "a\r\nb" has the two
    line starts 0 and 3 before the end of the text, it splits into two
    lines, and offset 3 is line 2, column 1. *)
Theorem crlf_is_one_terminator :
  (forall (pre post : JsString) (lineStarts : list Z),
      let text := pre ++ Chars.carriageReturn :: Chars.lineFeed :: post in
      scanLines text (len pre) lineStarts
      = scanLines text (len pre + 2) (lineStarts ++ [len pre + 2]) /\
      In (len pre + 2) (LineTable.lineStarts (LineTable.new text)) /\
      ~ In (len pre + 1) (LineTable.lineStarts (LineTable.new text))) /\
  (let text := js "a" ++ [Chars.carriageReturn; Chars.lineFeed] ++ js "b" in
   LineTable.lineStarts (LineTable.new text) = [0; 3; 4] /\
   len text = 4 /\
   splitLines text = [js "a"; js "b"] /\
   LineTable.get1BasedLineAndColumn (LineTable.new text) 3
   = Some (mkLineAndColumn1 2 (Num 1))).
Proof.
  split.
  - intros pre post ls text.
    pose proof (len_nonneg pre) as Hpre.
    split; [| split].
    + rewrite (scanLines_lineBreaks text (len pre)) by lia.
      rewrite (scanLines_lineBreaks text (len pre + 2)) by lia.
      rewrite <- app_assoc. f_equal. subst text.
      unfold len at 1. rewrite Nat2Z.id, skipn_app_exact.
      replace (Z.to_nat (len pre + 2)) with (List.length pre + 2)%nat
        by (unfold len; lia).
      rewrite skipn_app, skipn_all2 by lia.
      replace (List.length pre + 2 - List.length pre)%nat with 2%nat by lia.
      cbn [app skipn lineBreaks].
      cbn [N.eqb Chars.carriageReturn Chars.lineFeed Pos.eqb].
      replace (len pre + 1 + 1) with (len pre + 2) by lia. reflexivity.
    + apply in_lineStarts. right. left. subst text.
      rewrite lineBreaks_crlf. apply in_or_app. right. left. lia.
    + intros Hin. apply in_lineStarts in Hin. subst text.
      rewrite lineBreaks_crlf, len_app, !len_cons in Hin.
      pose proof (len_nonneg post) as Hpost.
      destruct Hin as [Hin | [Hin | Hin]]; try lia.
      apply in_app_or in Hin. destruct Hin as [Hin | [Hin | Hin]]; try lia.
      * pose proof (lineBreaks_bounds pre 0) as Hb.
        rewrite Forall_forall in Hb. apply Hb in Hin. lia.
      * pose proof (lineBreaks_bounds post (0 + len pre + 2)) as Hb.
        rewrite Forall_forall in Hb. apply Hb in Hin. lia.
  - vm_compute. repeat split.
Qed.

Lemma sar_1_big (d : Z) : 2 ^ 31 <= d < 2 ^ 32 -> sar d 1 <= -1.
Proof.
  intros H. unfold sar, ToInt32. rewrite Z.mod_small by lia.
  destruct (Z.geb_spec d (2 ^ 31)); [| lia].
  change (1 mod 32) with 1. rewrite Z.shiftr_div_pow2 by lia.
  change (2 ^ 1) with 2.
  assert ((d - 2 ^ 32) / 2 < 0) by (apply Z.div_lt_upper_bound; lia). lia.
Qed.

Lemma getLowerBound_total (array : list Z) (value : Z) :
  len array < 2 ^ 32 -> exists r, getLowerBound array value = Some r.
Proof.
  intros Hlen. unfold getLowerBound.
  destruct (ltElem value (index array 0)); [eauto |].
  destruct (geElem value (index array (len array - 1))); [eauto |].
  destruct (Z_lt_le_dec (len array - 1 - 0) (2 ^ 31)) as [Hsmall | Hbig].
  - apply getLowerBound_loop_total; [exact Hsmall | unfold len; lia].
  - destruct (List.length array) as [| fuel] eqn:Efuel;
      [unfold len in Hbig; rewrite Efuel in Hbig; simpl in Hbig; lia |].
    cbn [getLowerBound_loop].
    destruct (Z.ltb_spec 0 (len array - 1)) as [_ | Hge]; [| lia].
    pose proof (sar_1_big (len array - 1 - 0)) as Hsar.
    rewrite index_undefined by lia. cbn [ltElem].
    destruct fuel; cbn [getLowerBound_loop];
      (destruct (Z.ltb_spec (len array - 1 - sar (len array - 1 - 0) 1)
                            (len array - 1)); [lia | eauto]).
Qed.

(** C10: [getLowerBound] returns for every array that JavaScript can hold
    (fewer than [2 ^ 32] elements, sorted and non-empty or not) and every
    value, with the length of the array as fuel.  An iteration of the loop
    goes on from [low] and [mid - 1] or from [mid] and [high], where the
    midpoint [mid] is the middle rounded up: it lies above [low], and
    both branches strictly decrease [high - low].  Hence [getLineFromOffset]
    returns a line for every offset on the table of every text shorter
    than [2 ^ 31]. *)
Theorem getLowerBound_terminates :
  (forall (array : list Z) (value : Z),
      len array < 2 ^ 32 ->
      exists r, getLowerBound array value = Some r) /\
  (forall (fuel : nat) (array : list Z) (value low high : Z),
      low < high -> high - low < 2 ^ 31 ->
      let mid := high - sar (high - low) 1 in
      getLowerBound_loop (S fuel) array value low high
      = (if ltElem value (index array mid)
         then getLowerBound_loop fuel array value low (mid - 1)
         else getLowerBound_loop fuel array value mid high) /\
      mid = low + (high - low + 1) / 2 /\
      low <= mid - 1 /\ mid <= high /\
      (mid - 1) - low < high - low /\ high - mid < high - low) /\
  (forall (text : JsString) (offset : Z),
      len text < 2 ^ 31 ->
      exists l,
        LineTable.getLineFromOffset (LineTable.new text) offset = Some l /\
        0 <= l < len (LineTable.lineStarts (LineTable.new text))).
Proof.
  split; [| split].
  - apply getLowerBound_total.
  - intros fuel array value low high Hlt Hd mid.
    split.
    { cbn [getLowerBound_loop].
      destruct (Z.ltb_spec low high); [reflexivity | lia]. }
    subst mid. rewrite sar_1_half by lia.
    pose proof (Z.div_mod (high - low) 2 ltac:(lia)).
    pose proof (Z.mod_pos_bound (high - low) 2 ltac:(lia)).
    pose proof (Z.div_mod (high - low + 1) 2 ltac:(lia)).
    pose proof (Z.mod_pos_bound (high - low + 1) 2 ltac:(lia)).
    lia.
  - intros text offset Hlen.
    destruct (getLineFromOffset_spec text offset Hlen) as (r & Hr & Hrange & _).
    exists r. split; assumption.
Qed.

Lemma getLowerBound_terminates_witness :
  (len [0; 2; 5] < 2 ^ 32 /\ exists r, getLowerBound [0; 2; 5] 3 = Some r) /\
  (0 < 2 /\ 2 - 0 < 2 ^ 31 /\ 2 - sar (2 - 0) 1 = 0 + (2 - 0 + 1) / 2 /\
   getLowerBound_loop 3 [0; 2; 5] 3 0 2
   = getLowerBound_loop 2 [0; 2; 5] 3 (2 - sar (2 - 0) 1) 2) /\
  (len (js "a" ++ [Chars.lineFeed] ++ js "b") < 2 ^ 31 /\
   exists l,
     LineTable.getLineFromOffset
       (LineTable.new (js "a" ++ [Chars.lineFeed] ++ js "b")) 2 = Some l /\
     0 <= l < len (LineTable.lineStarts
                     (LineTable.new (js "a" ++ [Chars.lineFeed] ++ js "b")))).
Proof.
  destruct getLowerBound_terminates as (Hreturns & Hmid & Hline).
  split; [| split].
  - split; [reflexivity | apply Hreturns; reflexivity].
  - split; [lia |]. split; [lia |].
    destruct (Hmid 2%nat [0; 2; 5] 3 0 2 ltac:(lia) ltac:(lia))
      as (Hstep & Hround & _).
    split; [exact Hround | exact Hstep].
  - split; [reflexivity | apply Hline; reflexivity].
Defined.

(** * The claims on the edit simulator *)

(** C1: for the cycle of every measurement of a file, in either mode, the
    [didChange] that ends the cycle carries the text of the [didOpen] of
    the file; the server therefore holds the opened text when a cycle
    begins and again when it has ended, however many cycles ran before.
    The run of a text shorter than [2 ^ 31] ends within the fuel of the
    model, so that these are all the cycles of the program. *)
Theorem revert_restores_open_text (jumpToDef : bool)
  (server : list Message -> Response)
  (now : list Message -> list Measurement.t -> float)
  (readFileSync fileUri : JsString -> JsString) (file : JsString)
  (sent0 : list Message) (reported0 : list Measurement.t) (k : nat) :
  let text := readFileSync file in
  let uri := fileUri file in
  let run := benchFile jumpToDef server now readFileSync fileUri file
               sent0 reported0 in
  let msgs := written sent0 (fst run) in
  (k < List.length (measured reported0 (fst run)))%nat ->
  nth_error msgs 0 = Some (DidOpenTextDocument uri (js "codeql") 1 text) /\
  (exists probe position,
     nth_error msgs (3 * k + 1)
     = Some (DidChangeTextDocument uri (2 * Z.of_nat k + 2) probe) /\
     nth_error msgs (3 * k + 2)
     = Some (requestAt jumpToDef uri (2 * Z.of_nat k + 2) position)) /\
  nth_error msgs (3 * k + 3)
  = Some (DidChangeTextDocument uri (2 * Z.of_nat k + 3) text) /\
  documentAfter (firstn (3 * k + 1) msgs) None = Some text /\
  documentAfter (firstn (3 * k + 4) msgs) None = Some text /\
  (len text < 2 ^ 31 -> snd run <> OutOfFuel).
Proof.
  intros text uri run msgs Hk.
  destruct (nth_error (measured reported0 (fst run)) k) as [m |] eqn:Em;
    [| apply nth_error_None in Em; lia].
  destruct (run_cycle jumpToDef server now readFileSync fileUri file sent0
              reported0 k m Em)
    as (pre & w & post & lc & result & _ & _ & _ & _ & _ & Hopen & Hprobe
        & Hrequest & Hrevert & _ & _ & _ & _ & _ & Hbefore & Hafter).
  destruct (benchFile_run jumpToDef server now readFileSync fileUri file
              sent0 reported0)
    as (_ & _ & _ & _ & _ & _ & _ & Hfuel).
  split; [exact Hopen |]. split; [eauto |].
  split; [exact Hrevert |]. split; [exact Hbefore |]. split; [exact Hafter |].
  exact Hfuel.
Qed.

Lemma revert_restores_open_text_witness :
  let run := exampleRun true (js "foo bar") in
  (1 < List.length (measured [] (fst run)))%nat /\
  nth_error (written [] (fst run)) 6
  = Some (DidChangeTextDocument (exampleUri (js "a.ql")) 5 (js "foo bar")) /\
  len (oneText (js "foo bar") (js "a.ql")) < 2 ^ 31 /\
  snd run <> OutOfFuel.
Proof.
  intros run.
  assert (Hk : (1 < List.length (measured [] (fst run)))%nat)
    by (vm_compute; lia).
  destruct (revert_restores_open_text true nullServer stillClock
              (oneText (js "foo bar")) exampleUri (js "a.ql") [] [] 1 Hk)
    as (_ & _ & Hrevert & _ & _ & Hfuel).
  split; [exact Hk |]. split; [exact Hrevert |].
  split; [reflexivity | apply Hfuel; reflexivity].
Defined.

(** C2: the version counter of a file is 1 in its [didOpen]; the cycle of
    the [k]-th measurement (counting from 0) sends its probe with version
    [2 * k + 2] and its revert with version [2 * k + 3]; the body of the
    loop leaves the counter as it is on a word of a comment line; a run
    that completes with [n] measurements ends with the counter at
    [1 + 2 * n]; and the versions of the notifications of the file count
    up from 1 to the counter, strictly increasing. *)
Theorem version_counter (jumpToDef : bool)
  (server : list Message -> Response)
  (now : list Message -> list Measurement.t -> float)
  (readFileSync fileUri : JsString -> JsString) (file : JsString)
  (sent0 : list Message) (reported0 : list Measurement.t) :
  let text := readFileSync file in
  let uri := fileUri file in
  let run := benchFile jumpToDef server now readFileSync fileUri file
               sent0 reported0 in
  let msgs := written sent0 (fst run) in
  let n := List.length (measured reported0 (fst run)) in
  nth_error msgs 0 = Some (DidOpenTextDocument uri (js "codeql") 1 text) /\
  (forall k, (k < n)%nat ->
     exists probe,
       nth_error msgs (3 * k + 1)
       = Some (DidChangeTextDocument uri (2 * Z.of_nat k + 2) probe) /\
       nth_error msgs (3 * k + 3)
       = Some (DidChangeTextDocument uri (2 * Z.of_nat k + 3) text)) /\
  (forall (st : State) (matchIndex : Z) (replacedWord : JsString)
          (lc : LineAndColumn1),
     LineTable.get1BasedLineAndColumn (LineTable.new text) matchIndex = Some lc ->
     commentRegex_test (index (splitLines text) (line lc - 1)) = true ->
     versionNumber
       (fst (loopBody jumpToDef server now file uri text (splitLines text)
               (LineTable.new text) matchIndex replacedWord st))
     = versionNumber st) /\
  (snd run = Completed ->
     versionNumber (fst run) = 1 + 2 * Z.of_nat n /\
     List.length msgs = (1 + 3 * n)%nat) /\
  docVersions msgs = countFrom 1 (Z.to_nat (versionNumber (fst run))) /\
  StronglySorted Z.lt (docVersions msgs) /\
  (len text < 2 ^ 31 -> snd run <> OutOfFuel).
Proof.
  intros text uri run msgs n.
  destruct (benchFile_run jumpToDef server now readFileSync fileUri file
              sent0 reported0)
    as (tr & extra & Hwritten & Hcycles & Hdone & Hversions & _ & Hfuel).
  fold text uri run in Hwritten, Hcycles, Hdone, Hversions, Hfuel.
  fold msgs in Hwritten, Hversions.
  split; [rewrite Hwritten; reflexivity |].
  split; [| split; [| split; [| split; [| split]]]].
  - intros k Hk.
    destruct (nth_error (measured reported0 (fst run)) k) as [m |] eqn:Em;
      [| apply nth_error_None in Em; fold n in Em; lia].
    destruct (run_cycle jumpToDef server now readFileSync fileUri file sent0
                reported0 k m Em)
      as (pre & w & post & lc & result & _ & _ & _ & _ & _ & _ & Hprobe
          & _ & Hrevert & _).
    eauto.
  - intros st matchIndex replacedWord lc Hlc Hcomment.
    unfold loopBody. rewrite Hlc, Hcomment. reflexivity.
  - intros Hcompleted. destruct (Hdone Hcompleted) as [-> Hv].
    split; [exact Hv |].
    rewrite Hwritten, app_nil_r. cbn [List.length].
    rewrite (Cycles_length _ _ _ _ _ _ _ _ _ _ Hcycles). reflexivity.
  - exact Hversions.
  - rewrite Hversions. apply countFrom_sorted.
  - exact Hfuel.
Qed.

Lemma version_counter_witness :
  let run := exampleRun false (js "foo bar") in
  (1 < List.length (measured [] (fst run)))%nat /\
  snd run = Completed /\
  (exists probe,
     nth_error (written [] (fst run)) 4
     = Some (DidChangeTextDocument (exampleUri (js "a.ql")) 4 probe) /\
     nth_error (written [] (fst run)) 6
     = Some (DidChangeTextDocument (exampleUri (js "a.ql")) 5 (js "foo bar"))) /\
  versionNumber (fst run) = 5 /\
  docVersions (written [] (fst run)) = [1; 2; 3; 4; 5] /\
  (forall st,
     versionNumber
       (fst (loopBody false nullServer stillClock (js "a.ql")
               (exampleUri (js "a.ql")) (js "// foo") (splitLines (js "// foo"))
               (LineTable.new (js "// foo")) 3 (js "foo") st))
     = versionNumber st) /\
  len (oneText (js "foo bar") (js "a.ql")) < 2 ^ 31 /\
  snd run <> OutOfFuel.
Proof.
  intros run. subst run. unfold exampleRun.
  destruct (version_counter false nullServer stillClock
              (oneText (js "foo bar")) exampleUri (js "a.ql") [] [])
    as (_ & Hcycle & _ & Hdone & Hversions & _ & Hfuel).
  destruct (version_counter false nullServer stillClock
              (oneText (js "// foo")) exampleUri (js "a.ql") [] [])
    as (_ & _ & Hskip & _).
  split; [vm_compute; lia |]. split; [reflexivity |].
  split; [apply (Hcycle 1%nat); vm_compute; lia |].
  split; [apply Hdone; reflexivity |].
  split; [rewrite Hversions; reflexivity |].
  split.
  - intros st.
    apply (Hskip st 3 (js "foo") (mkLineAndColumn1 1 (Num 4))); reflexivity.
  - split; [reflexivity | apply Hfuel; reflexivity].
Defined.

(** C3: the probe of every measurement carries a full text.  The cycle
    of the [k]-th measurement is that of the [k]-th match [w] of the text
    that is not on a comment line: a whole word of the text
    [pre ++ w ++ post], at the offset [len pre], whose position is the
    one that the request of the cycle and the measurement carry.  The
    text of its probe is [pre ++ w ++ " " ++ post] in jump-to-definition
    mode and [pre ++ post] in completion mode.  For "foo bar" in
    completion mode the match after "foo" is "bar" at offset 4, the body
    of the loop sends the probe text "foo " for it, and the run with a
    server that answers [null] measures "foo" and "bar" and sends that
    text in the second cycle. *)
Theorem probe_carries_edited_text :
  (forall (jumpToDef : bool) (server : list Message -> Response)
          (now : list Message -> list Measurement.t -> float)
          (readFileSync fileUri : JsString -> JsString) (file : JsString)
          (sent0 : list Message) (reported0 : list Measurement.t) (k : nat),
      let text := readFileSync file in
      let run := benchFile jumpToDef server now readFileSync fileUri file
                   sent0 reported0 in
      (k < List.length (measured reported0 (fst run)))%nat ->
      exists pre w post lc m,
        nth_error (probedMatches text) k = Some (len pre, w) /\
        text = pre ++ w ++ post /\ isWord w /\ endsWord post /\
        beginsWord pre /\
        LineTable.get1BasedLineAndColumn (LineTable.new text) (len pre)
        = Some lc /\
        nth_error (measured reported0 (fst run)) k = Some m /\
        Measurement.line m = line lc /\ Measurement.column m = column lc /\
        nth_error (written sent0 (fst run)) (3 * k + 2)
        = Some (requestAt jumpToDef (fileUri file) (2 * Z.of_nat k + 2)
                  (Position.create (line lc) (column lc))) /\
        nth_error (written sent0 (fst run)) (3 * k + 1)
        = Some (DidChangeTextDocument (fileUri file) (2 * Z.of_nat k + 2)
                  (if jumpToDef then pre ++ w ++ js " " ++ post
                   else pre ++ post))) /\
  (forall (server : list Message -> Response)
          (now : list Message -> list Measurement.t -> float)
          (file uri : JsString) (st : State),
      let text := js "foo bar" in
      wordRegex_exec text 0 = Some (0, js "foo") /\
      wordRegex_exec text 3 = Some (4, js "bar") /\
      wordRegex_exec text 7 = None /\
      nth_error
        (sent (fst (loopBody false server now file uri text (splitLines text)
                      (LineTable.new text) 4 (js "bar") st)))
        (List.length (sent st))
      = Some (DidChangeTextDocument uri (versionNumber st + 1) (js "foo "))) /\
  (let uri := exampleUri (js "a.ql") in
   let p11 := Position.create 1 (Num 1) in
   let p15 := Position.create 1 (Num 5) in
   sent (fst (exampleRun false (js "foo bar")))
   = [DidOpenTextDocument uri (js "codeql") 1 (js "foo bar");
      DidChangeTextDocument uri 2 (js " bar");
      CompletionRequest uri 2 p11;
      DidChangeTextDocument uri 3 (js "foo bar");
      DidChangeTextDocument uri 4 (js "foo ");
      CompletionRequest uri 4 p15;
      DidChangeTextDocument uri 5 (js "foo bar")] /\
   reported (fst (exampleRun false (js "foo bar")))
   = [Measurement.mk (js "a.ql") 1 (Num 1) 0%float (JNumber 0);
      Measurement.mk (js "a.ql") 1 (Num 5) 0%float (JNumber 0)] /\
   snd (exampleRun false (js "foo bar")) = Completed).
Proof.
  split; [| split].
  - intros jumpToDef server now readFileSync fileUri file sent0 reported0 k
      text run. subst run. unfold benchFile, measured, written. fold text.
    set (st0 := mkState _ _ _ _).
    destruct (loop_probes jumpToDef server now file (fileUri file) text
                (List.length text) st0)
      as (tr & ms & Hsent & Hrep & Hle & Hcycle).
    rewrite Hsent, Hrep. subst st0. cbn [sent reported versionNumber lastIndex] in *.
    rewrite skipn_app_exact, <- app_assoc, skipn_app_exact. cbn [app].
    intros Hk.
    fold (matchesOf text) in Hle, Hcycle. fold (probedMatches text) in Hle, Hcycle.
    destruct (nth_error (probedMatches text) k) as [[mi w] |] eqn:Ematch;
      [| apply nth_error_None in Ematch; lia].
    assert (Hin : In (mi, w) (matchesOf text)).
    { apply nth_error_In in Ematch. unfold probedMatches in Ematch.
      apply filter_In in Ematch. apply Ematch. }
    unfold matchesOf in Hin.
    apply (matchesFrom_words (List.length text) [] text mi w (le_n _)) in Hin.
    destruct Hin as (pre & post & Htext & Hmi & Hw & Hpost & Hpre).
    change (len (@nil CodeUnit)) with 0 in Hmi. rewrite Z.add_0_l in Hmi.
    subst mi.
    destruct (Hcycle k (len pre) w Hk Ematch)
      as (lc & m & Hlc & Hm & Hline & Hcol & Hprobe & Hrequest).
    exists pre, w, post, lc, m.
    split; [reflexivity |]. split; [exact Htext |]. split; [exact Hw |].
    split; [exact Hpost |]. split; [exact Hpre |]. split; [exact Hlc |].
    split; [exact Hm |]. split; [exact Hline |]. split; [exact Hcol |].
    replace (3 * k + 2)%nat with (S (3 * k + 1)) by lia.
    replace (3 * k + 1)%nat with (S (3 * k)) at 2 by lia.
    cbn [nth_error].
    replace (2 * Z.of_nat k + 2) with (1 + 2 * Z.of_nat k + 1) by lia.
    split; [exact Hrequest |]. rewrite Hprobe. do 2 f_equal.
    exact (probe_text jumpToDef server now file (fileUri file) text
             pre w post Htext).
  - intros server now file uri st text.
    split; [reflexivity |]. split; [reflexivity |]. split; [reflexivity |].
    unfold loopBody.
    replace (LineTable.get1BasedLineAndColumn (LineTable.new text) 4)
      with (Some (mkLineAndColumn1 1 (Num 5))) by reflexivity.
    replace (commentRegex_test (index (splitLines text) (line (mkLineAndColumn1 1 (Num 5)) - 1)))
      with false by reflexivity.
    cbv zeta.
    replace (substring text 0 4 ++ substringFrom text (4 + len (js "bar")))
      with (js "foo ") by reflexivity.
    destruct (server _) as [result |];
      [destruct (numberOfResults result) |]; cbn [fst sent];
      rewrite <- ?app_assoc; rewrite nth_error_app2 by lia;
      rewrite Nat.sub_diag; reflexivity.
  - vm_compute. repeat split.
Qed.

Lemma probe_carries_edited_text_witness :
  let text := js "foo foo" in
  let run := exampleRun true text in
  (1 < List.length (measured [] (fst run)))%nat /\
  exists pre w post lc m,
    nth_error (probedMatches text) 1 = Some (len pre, w) /\
    text = pre ++ w ++ post /\ isWord w /\ endsWord post /\
    beginsWord pre /\
    LineTable.get1BasedLineAndColumn (LineTable.new text) (len pre)
    = Some lc /\
    nth_error (measured [] (fst run)) 1 = Some m /\
    Measurement.line m = line lc /\ Measurement.column m = column lc /\
    nth_error (written [] (fst run)) 5
    = Some (requestAt true (exampleUri (js "a.ql")) 4
              (Position.create (line lc) (column lc))) /\
    nth_error (written [] (fst run)) 4
    = Some (DidChangeTextDocument (exampleUri (js "a.ql")) 4
              (pre ++ w ++ js " " ++ post)).
Proof.
  split; [vm_compute; lia |].
  apply (proj1 probe_carries_edited_text true nullServer stillClock
           (oneText (js "foo foo")) exampleUri (js "a.ql") [] [] 1%nat).
  vm_compute. lia.
Defined.

(** C4: a word whose line is a comment line (the first characters of the
    line after white space are "*", "/*" or "//") is left out: on it the
    body of the loop changes nothing, so it writes no message, leaves the
    version and reports no measurement; and no measurement of a run is for
    a word of a comment line.  The line of a word is the line that the
    body looks up, and it is the line of the text that holds the first
    character of the word.  For the text "// foo bar" the run of the
    file, in either mode and with any server, writes the [didOpen] alone
    and reports nothing. *)
Theorem comment_line_words_are_skipped :
  (forall (jumpToDef : bool) (server : list Message -> Response)
          (now : list Message -> list Measurement.t -> float)
          (file uri text : JsString)
          (matchIndex : Z) (replacedWord : JsString) (st : State)
          (lc : LineAndColumn1) (l : JsString),
      LineTable.get1BasedLineAndColumn (LineTable.new text) matchIndex = Some lc ->
      index (splitLines text) (line lc - 1) = Some l ->
      CommentLine l ->
      loopBody jumpToDef server now file uri text (splitLines text)
        (LineTable.new text) matchIndex replacedWord st = (st, None)) /\
  (forall (jumpToDef : bool) (server : list Message -> Response)
          (now : list Message -> list Measurement.t -> float)
          (file uri text : JsString)
          (matchIndex : Z) (replacedWord : JsString) (st : State)
          (before l after : JsString),
      len text < 2 ^ 31 ->
      LineAt text matchIndex before l after ->
      CommentLine l ->
      loopBody jumpToDef server now file uri text (splitLines text)
        (LineTable.new text) matchIndex replacedWord st = (st, None)) /\
  (forall (jumpToDef : bool) (server : list Message -> Response)
          (now : list Message -> list Measurement.t -> float)
          (readFileSync fileUri : JsString -> JsString) (file : JsString)
          (sent0 : list Message) (reported0 : list Measurement.t)
          (k : nat) (m : Measurement.t),
      let text := readFileSync file in
      let run := benchFile jumpToDef server now readFileSync fileUri file
                   sent0 reported0 in
      len text < 2 ^ 31 ->
      nth_error (measured reported0 (fst run)) k = Some m ->
      exists pre w post before l after,
        text = pre ++ w ++ post /\ isWord w /\
        nth_error (written sent0 (fst run)) (3 * k + 1)
        = Some (DidChangeTextDocument (fileUri file) (2 * Z.of_nat k + 2)
                  (probeText jumpToDef pre w post)) /\
        LineAt text (len pre) before l after /\
        ~ CommentLine l) /\
  (forall (jumpToDef : bool) (server : list Message -> Response)
          (now : list Message -> list Measurement.t -> float)
          (readFileSync fileUri : JsString -> JsString) (file : JsString)
          (sent0 : list Message) (reported0 : list Measurement.t),
      readFileSync file = js "// foo bar" ->
      let run := benchFile jumpToDef server now readFileSync fileUri file
                   sent0 reported0 in
      measured reported0 (fst run) = [] /\
      written sent0 (fst run)
      = [DidOpenTextDocument (fileUri file) (js "codeql") 1 (js "// foo bar")] /\
      versionNumber (fst run) = 1 /\
      snd run = Completed).
Proof.
  split; [| split; [| split]].
  - intros. eapply loopBody_comment; eassumption.
  - intros jumpToDef server now file uri text matchIndex replacedWord st
      before l after Hlen Hline Hcomment.
    destruct (get1BasedLineAndColumn_LineAt text matchIndex before l after
                Hlen Hline)
      as (lc & Hlc & _ & _ & Hl).
    eapply loopBody_comment; eassumption.
  - intros jumpToDef server now readFileSync fileUri file sent0 reported0 k m
      text run Hlen Hm.
    destruct (run_cycle jumpToDef server now readFileSync fileUri file sent0
                reported0 k m Hm)
      as (pre & w & post & lc & result & Htext & Hw & _ & Hlc & Htest & _
          & Hprobe & _).
    fold text in Htext, Hlc, Htest.
    destruct (LineAt_word pre w post Hw)
      as (before & head & rest & after & _ & Hline).
    rewrite <- Htext in Hline.
    destruct (get1BasedLineAndColumn_LineAt text (len pre) before _ after
                Hlen Hline)
      as (lc' & Hlc' & _ & _ & Hl).
    rewrite Hlc in Hlc'. injection Hlc' as <-.
    exists pre, w, post, before, (head ++ w ++ rest), after.
    split; [exact Htext |]. split; [exact Hw |]. split; [exact Hprobe |].
    split; [exact Hline |].
    intros Hcomment. apply commentRegex_match_iff in Hcomment.
    rewrite Hl in Htest. cbn [commentRegex_test] in Htest. congruence.
  - intros jumpToDef server now readFileSync fileUri file sent0 reported0
      Htext run.
    subst run. unfold benchFile. rewrite Htext.
    change (List.length (js "// foo bar")) with 10%nat.
    do 3 (cbn [wordLoop];
          match goal with
          | |- context [wordRegex_exec ?t ?i] =>
              let r := eval vm_compute in (wordRegex_exec t i) in
              change (wordRegex_exec t i) with r
          end;
          cbv iota beta;
          try (erewrite loopBody_comment;
               [| vm_compute; reflexivity | vm_compute; reflexivity
                | exists [], (js "// foo bar"), (js " foo bar");
                  repeat split; [constructor | right; right; reflexivity]];
               cbv iota beta; cbn [versionNumber sent reported lastIndex])).
    cbn [fst snd]. unfold measured, written. cbn [sent reported versionNumber].
    rewrite !skipn_app_exact, skipn_all. repeat split.
Qed.

Lemma comment_line_words_are_skipped_witness :
  (let text := js "  * foo" in
   len text < 2 ^ 31 /\
   LineTable.get1BasedLineAndColumn (LineTable.new text) 4
   = Some (mkLineAndColumn1 1 (Num 5)) /\
   index (splitLines text) (1 - 1) = Some text /\
   LineAt text 4 [] text [] /\
   CommentLine text /\
   forall st,
     loopBody true nullServer stillClock (js "a.ql") (exampleUri (js "a.ql"))
       text (splitLines text) (LineTable.new text) 4 (js "foo") st = (st, None) /\
     loopBody false nullServer stillClock (js "a.ql") (exampleUri (js "a.ql"))
       text (splitLines text) (LineTable.new text) 4 (js "foo") st = (st, None)) /\
  (let run := exampleRun true (js "foo bar") in
   let m := Measurement.mk (js "a.ql") 1 (Num 5) 0%float (JNumber 0) in
   len (oneText (js "foo bar") (js "a.ql")) < 2 ^ 31 /\
   nth_error (measured [] (fst run)) 1 = Some m /\
   exists pre w post before l after,
     js "foo bar" = pre ++ w ++ post /\ isWord w /\
     nth_error (written [] (fst run)) 4
     = Some (DidChangeTextDocument (exampleUri (js "a.ql")) 4
               (probeText true pre w post)) /\
     LineAt (js "foo bar") (len pre) before l after /\
     ~ CommentLine l) /\
  (oneText (js "// foo bar") (js "a.ql") = js "// foo bar" /\
   measured [] (fst (exampleRun true (js "// foo bar"))) = []).
Proof.
  destruct comment_line_words_are_skipped as (Hbody & Hline & Hmeasured & Hrun).
  assert (Hcomment : CommentLine (js "  * foo")).
  { exists (js "  "), (js "* foo"), (js " foo").
    repeat split; [repeat constructor | left; reflexivity]. }
  assert (Hat : LineAt (js "  * foo") 4 [] (js "  * foo") []).
  { split; [reflexivity |]. split; [unfold len; simpl; lia |].
    split; [repeat constructor |]. split; left; reflexivity. }
  split; [| split].
  - intros text. split; [reflexivity |]. split; [reflexivity |].
    split; [reflexivity |]. split; [exact Hat |]. split; [exact Hcomment |].
    intros st. split.
    + apply (Hbody true nullServer stillClock (js "a.ql") (exampleUri (js "a.ql"))
               text 4 (js "foo") st (mkLineAndColumn1 1 (Num 5)) text);
        [reflexivity | reflexivity | exact Hcomment].
    + apply (Hline false nullServer stillClock (js "a.ql") (exampleUri (js "a.ql"))
               text 4 (js "foo") st [] text []);
        [reflexivity | exact Hat | exact Hcomment].
  - intros run m. split; [reflexivity |].
    assert (Hm : nth_error (measured [] (fst run)) 1 = Some m) by reflexivity.
    split; [exact Hm |].
    apply (Hmeasured true nullServer stillClock (oneText (js "foo bar"))
             exampleUri (js "a.ql") [] [] 1%nat m); [reflexivity | exact Hm].
  - split; [reflexivity |].
    apply (Hrun true nullServer stillClock (oneText (js "// foo bar"))
             exampleUri (js "a.ql") [] []).
    reflexivity.
Defined.

(** C5: the [numberOfResults] of a result is 0 when the result is absent
    ([undefined]) or [null], the length of the result when it is an array,
    the [length] of its [items] when it is an object with that key (the
    number of items when [items] is an array), and 1 for any other
    object; the [numberOfResults] field of every measurement is that
    number for the result of the request of its cycle. *)
Theorem numberOfResults_of_result :
  numberOfResults JUndefined = Some (JNumber 0) /\
  numberOfResults JNull = Some (JNumber 0) /\
  (forall elems, numberOfResults (JArray elems) = Some (JNumber (len elems))) /\
  (forall fields items,
      lookup (js "items") fields = Some items ->
      numberOfResults (JObject fields) = getLength items) /\
  (forall fields items,
      lookup (js "items") fields = Some (JArray items) ->
      numberOfResults (JObject fields) = Some (JNumber (len items))) /\
  (forall fields,
      lookup (js "items") fields = None ->
      numberOfResults (JObject fields) = Some (JNumber 1)) /\
  (forall x y z, numberOfResults (JArray [x; y; z]) = Some (JNumber 3)) /\
  (forall x y,
      numberOfResults (JObject [(js "items", JArray [x; y])]) = Some (JNumber 2)) /\
  (forall (jumpToDef : bool) (server : list Message -> Response)
          (now : list Message -> list Measurement.t -> float)
          (readFileSync fileUri : JsString -> JsString) (file : JsString)
          (sent0 : list Message) (reported0 : list Measurement.t)
          (k : nat) (m : Measurement.t),
      let run := benchFile jumpToDef server now readFileSync fileUri file
                   sent0 reported0 in
      let msgs := written sent0 (fst run) in
      nth_error (measured reported0 (fst run)) k = Some m ->
      exists position result,
        nth_error msgs (3 * k + 2)
        = Some (requestAt jumpToDef (fileUri file) (2 * Z.of_nat k + 2) position) /\
        server (sent0 ++ firstn (3 * k + 3) msgs) = Result result /\
        numberOfResults result = Some (Measurement.numberOfResults m)).
Proof.
  split; [reflexivity |]. split; [reflexivity |]. split; [reflexivity |].
  assert (Hitems : forall fields items,
             lookup (js "items") fields = Some items ->
             numberOfResults (JObject fields) = getLength items).
  { intros fields items H. unfold numberOfResults.
    cbn [truthy negb isArray hasItems getItems]. rewrite H. reflexivity. }
  split; [exact Hitems |].
  split; [intros fields items H; rewrite (Hitems _ _ H); reflexivity |].
  split.
  { intros fields H. unfold numberOfResults.
    cbn [truthy negb isArray hasItems]. rewrite H. reflexivity. }
  split; [reflexivity |]. split; [reflexivity |].
  intros jumpToDef server now readFileSync fileUri file sent0 reported0 k m
    run msgs Hm.
  destruct (run_cycle jumpToDef server now readFileSync fileUri file sent0
              reported0 k m Hm)
    as (pre & w & post & lc & result & _ & _ & _ & _ & _ & _ & _ & Hrequest
        & _ & Hserver & Hn & _).
  eauto.
Qed.

Lemma numberOfResults_of_result_witness :
  let fields := [(js "isIncomplete", JBool false);
                 (js "items", JArray [JNull; JNull])] in
  lookup (js "items") fields = Some (JArray [JNull; JNull]) /\
  numberOfResults (JObject fields) = Some (JNumber 2) /\
  lookup (js "items") [(js "uri", JString (js "file:///a.ql"))] = None /\
  numberOfResults (JObject [(js "uri", JString (js "file:///a.ql"))])
  = Some (JNumber 1) /\
  forall m, nth_error (measured [] (fst (exampleRun true (js "foo bar")))) 1 = Some m ->
            Measurement.numberOfResults m = JNumber 0.
Proof.
  intros fields.
  destruct numberOfResults_of_result
    as (_ & _ & _ & _ & Hitems & Hsingle & _ & _ & Hmeasured).
  split; [reflexivity |].
  split; [apply (Hitems fields [JNull; JNull]); reflexivity |].
  split; [reflexivity |].
  split; [apply Hsingle; reflexivity |].
  intros m Hm.
  destruct (Hmeasured true nullServer stillClock (oneText (js "foo bar"))
              exampleUri (js "a.ql") [] [] 1%nat m Hm)
    as (position & result & _ & Hserver & Hn).
  unfold nullServer in Hserver. injection Hserver as <-.
  change (numberOfResults JNull) with (Some (JNumber 0)) in Hn.
  injection Hn as Hn. symmetry. exact Hn.
Defined.

(** C9: the request of the cycle of every measurement is sent at the
    position that [get1BasedLineAndColumn] returns for the offset of the
    measured word, and the measurement records the same line and column.
    Both are one more than what [getLineFromOffset] and
    [getColumnFromLineAndOffset] return for that offset.  On a text
    shorter than [2 ^ 31] the line is one more than the number of line
    breaks before the line of the word, and the column is one more than
    the number of characters between the start of that line and the
    word. *)
Theorem request_position_is_one_based (jumpToDef : bool)
  (server : list Message -> Response)
  (now : list Message -> list Measurement.t -> float)
  (readFileSync fileUri : JsString -> JsString) (file : JsString)
  (sent0 : list Message) (reported0 : list Measurement.t)
  (k : nat) (m : Measurement.t) :
  let text := readFileSync file in
  let table := LineTable.new text in
  let run := benchFile jumpToDef server now readFileSync fileUri file
               sent0 reported0 in
  nth_error (measured reported0 (fst run)) k = Some m ->
  exists pre w post lc line0,
    text = pre ++ w ++ post /\ isWord w /\
    LineTable.get1BasedLineAndColumn table (len pre) = Some lc /\
    nth_error (written sent0 (fst run)) (3 * k + 2)
    = Some ((if jumpToDef then DefinitionRequest else CompletionRequest)
              (fileUri file) (2 * Z.of_nat k + 2)
              (Position.create (line lc) (column lc))) /\
    Measurement.line m = line lc /\
    Measurement.column m = column lc /\
    LineTable.getLineFromOffset table (len pre) = Some line0 /\
    line lc = line0 + 1 /\
    column lc
    = addNum (LineTable.getColumnFromLineAndOffset table line0 (len pre)) 1 /\
    exists before head rest after,
      pre = before ++ head /\
      LineAt text (len pre) before (head ++ w ++ rest) after /\
      (len text < 2 ^ 31 ->
       line0 = Z.of_nat (List.length (lineBreaks before 0)) /\
       LineTable.getColumnFromLineAndOffset table line0 (len pre) = Num (len head) /\
       line lc = Z.of_nat (List.length (lineBreaks before 0)) + 1 /\
       column lc = Num (len head + 1)).
Proof.
  intros text table run Hm.
  destruct (run_cycle jumpToDef server now readFileSync fileUri file sent0
              reported0 k m Hm)
    as (pre & w & post & lc & result & Htext & Hw & _ & Hlc & _ & _ & _
        & Hrequest & _ & _ & _ & _ & Hline & Hcolumn & _).
  fold text in Htext, Hlc. fold table in Hlc. fold run in Hrequest.
  pose proof Hlc as Hlc'.
  unfold LineTable.get1BasedLineAndColumn in Hlc'.
  destruct (LineTable.getLineFromOffset table (len pre)) as [line0 |] eqn:Eline;
    [| discriminate].
  injection Hlc' as Hlc'.
  exists pre, w, post, lc, line0.
  split; [exact Htext |]. split; [exact Hw |]. split; [exact Hlc |].
  split; [unfold requestAt in Hrequest; destruct jumpToDef; exact Hrequest |].
  split; [exact Hline |]. split; [exact Hcolumn |]. split; [exact Eline |].
  split; [subst lc; reflexivity |]. split; [subst lc; reflexivity |].
  destruct (LineAt_word pre w post Hw)
    as (before & head & rest & after & Hpre & Hat).
  rewrite <- Htext in Hat.
  exists before, head, rest, after.
  split; [exact Hpre |]. split; [exact Hat |].
  intros Hlen.
  destruct (getLineFromOffset_LineAt text (len pre) before _ after Hlen Hat)
    as [Hline0 Hstart].
  fold table in Hline0, Hstart. rewrite Eline in Hline0. injection Hline0 as ->.
  assert (Hcol : LineTable.getColumnFromLineAndOffset table
                   (Z.of_nat (List.length (lineBreaks before 0))) (len pre)
                 = Num (len head)).
  { unfold LineTable.getColumnFromLineAndOffset.
    unfold LineTable.getStartOfLine in Hstart. rewrite Hstart.
    rewrite Hpre, len_app. f_equal. lia. }
  split; [reflexivity |]. split; [exact Hcol |].
  subst lc. cbn [line column]. rewrite Hcol. split; reflexivity.
Qed.

Lemma request_position_is_one_based_witness :
  let run := exampleRun false (js "foo bar") in
  let m := Measurement.mk (js "a.ql") 1 (Num 5) 0%float (JNumber 0) in
  nth_error (measured [] (fst run)) 1 = Some m /\
  exists pre w post lc line0,
    js "foo bar" = pre ++ w ++ post /\ isWord w /\
    LineTable.get1BasedLineAndColumn (LineTable.new (js "foo bar")) (len pre)
    = Some lc /\
    nth_error (written [] (fst run)) 5
    = Some (CompletionRequest (exampleUri (js "a.ql")) 4
              (Position.create (line lc) (column lc))) /\
    Measurement.line m = line lc /\
    Measurement.column m = column lc /\
    LineTable.getLineFromOffset (LineTable.new (js "foo bar")) (len pre)
    = Some line0 /\
    line lc = line0 + 1 /\
    exists before head,
      pre = before ++ head /\
      line lc = Z.of_nat (List.length (lineBreaks before 0)) + 1 /\
      column lc = Num (len head + 1).
Proof.
  intros run m.
  assert (Hm : nth_error (measured [] (fst run)) 1 = Some m) by reflexivity.
  split; [exact Hm |].
  destruct (request_position_is_one_based false nullServer stillClock
              (oneText (js "foo bar")) exampleUri (js "a.ql") [] [] 1%nat m Hm)
    as (pre & w & post & lc & line0 & H1 & H2 & H3 & H4 & H5 & H6 & H7 & H8 & _
        & before & head & rest & after & Hpre & _ & Hsmall).
  destruct (Hsmall eq_refl) as (_ & _ & Hl & Hc).
  exists pre, w, post, lc, line0.
  repeat split; try assumption.
  exists before, head. repeat split; assumption.
Defined.

(** * Further properties of the benchmark loop *)

(** ** The lines of a file and its line table *)

(** X6: the lines that [main] splits a text into agree with the line
    table of the text: line [k] of the split is the stretch of the text
    that begins at line start [k] of the table, it holds no line
    terminator, and the text ends after it or goes on with a terminator. *)
Theorem lines_begin_at_line_starts (text : JsString) (k : Z) (l : JsString) :
  index (splitLines text) k = Some l ->
  exists start,
    LineTable.getStartOfLine (LineTable.new text) k = Some start /\
    substring text start (start + len l) = l /\
    Forall (fun c => isTerminator c = false) l /\
    (start + len l = len text \/
     exists c, charCodeAt text (start + len l) = Some c /\ isTerminator c = true).
Proof.
  intros Hk. apply index_Some in Hk. destruct Hk as [Hk0 Hk].
  destruct (split_loop_lines (List.length text) text [] 0 (Z.to_nat k) l
              (le_n _) (Forall_nil _) Hk)
    as (st & a & b & Hst & Hl & Htext & Ha & Hb).
  change (len (@nil CodeUnit)) with 0 in Hst, Ha. cbn [app] in Htext.
  change (0 - 0) with 0 in Hst, Ha. rewrite Z.sub_0_r in Ha.
  exists st. split; [| split; [| split; [exact Hl |]]].
  - unfold LineTable.getStartOfLine. rewrite new_lineStarts. cbv zeta.
    assert (Hidx : index (0 :: lineBreaks text 0) k = Some st)
      by (apply index_Some; split; assumption).
    destruct (_ =? _); [exact Hidx | apply index_app_l; exact Hidx].
  - rewrite Htext, <- Ha. apply substring_middle.
  - destruct Hb as [-> | (c & b' & -> & Hc)].
    + left. rewrite Htext, !len_app, len_nil. lia.
    + right. exists c. split; [| exact Hc].
      rewrite Htext, <- Ha, app_assoc, <- len_app. apply charCodeAt_middle.
Qed.

Lemma lines_begin_at_line_starts_witness :
  exists start,
    LineTable.getStartOfLine (LineTable.new (js "ab" ++ [13; 10] ++ js "cd")%N) 1
    = Some start /\
    substring (js "ab" ++ [13; 10] ++ js "cd")%N start (start + len (js "cd"))
    = js "cd" /\
    Forall (fun c => isTerminator c = false) (js "cd") /\
    (start + len (js "cd") = len (js "ab" ++ [13; 10] ++ js "cd")%N \/
     exists c, charCodeAt (js "ab" ++ [13; 10] ++ js "cd")%N (start + len (js "cd"))
               = Some c /\ isTerminator c = true).
Proof.
  apply (lines_begin_at_line_starts (js "ab" ++ [13; 10] ++ js "cd")%N 1 (js "cd")).
  reflexivity.
Defined.

(** X7: for an offset inside a text shorter than [2 ^ 31], the line that
    the loop hands to the comment test is never [undefined]: the line
    number found in the table is the number of a line of the split, and
    that line begins at or before the offset.  The split has as many lines
    as the table has entries, or one fewer. *)
Theorem looked_up_line_exists (text : JsString) (offset : Z) :
  len text < 2 ^ 31 ->
  0 <= offset < len text ->
  exists lc l start,
    LineTable.get1BasedLineAndColumn (LineTable.new text) offset = Some lc /\
    index (splitLines text) (line lc - 1) = Some l /\
    LineTable.getStartOfLine (LineTable.new text) (line lc - 1) = Some start /\
    start <= offset /\
    substring text start (start + len l) = l /\
    len (splitLines text) <= len (LineTable.lineStarts (LineTable.new text))
                          <= len (splitLines text) + 1.
Proof.
  intros Hlen Hoff.
  destruct (getLineFromOffset_spec text offset Hlen)
    as (r & Hr & Hrange & _ & Hwithin).
  destruct (Hwithin ltac:(lia)) as [Hle Hgt].
  destruct (index_defined _ r Hrange) as [start Hstart].
  assert (Hcount : len (splitLines text)
                   = Z.of_nat (S (List.length (lineBreaks text 0)))).
  { unfold len, splitLines. f_equal.
    apply (split_loop_length (List.length text)). lia. }
  assert (Hstarts : len (LineTable.lineStarts (LineTable.new text))
                    = len (splitLines text) \/
                    LineTable.lineStarts (LineTable.new text)
                    = (0 :: lineBreaks text 0) ++ [len text]).
  { rewrite new_lineStarts. cbv zeta. destruct (_ =? _); [left | right; reflexivity].
    rewrite Hcount. unfold len. cbn [List.length]. reflexivity. }
  assert (Hr' : r < len (splitLines text)).
  { destruct Hstarts as [<- | Hs]; [lia |].
    destruct (Z.eq_dec r (len (splitLines text))) as [-> | Hne].
    - exfalso. unfold LineTable.getStartOfLine in Hle.
      rewrite Hs in Hstart.
      rewrite index_app_r in Hstart
        by (rewrite Hcount; unfold len; cbn [List.length]; lia).
      replace (len (splitLines text) - len (0 :: lineBreaks text 0)) with 0
        in Hstart by (rewrite Hcount; unfold len; cbn [List.length]; lia).
      injection Hstart as <-.
      specialize (Hle (len text)). rewrite Hs in Hle.
      rewrite index_app_r in Hle
        by (rewrite Hcount; unfold len; cbn [List.length]; lia).
      replace (len (splitLines text) - len (0 :: lineBreaks text 0)) with 0
        in Hle by (rewrite Hcount; unfold len; cbn [List.length]; lia).
      specialize (Hle eq_refl). lia.
    - rewrite Hs, len_app in Hrange. change (len [len text]) with 1 in Hrange.
      assert (len (0 :: lineBreaks text 0) = len (splitLines text))
        by (rewrite Hcount; unfold len; cbn [List.length]; lia).
      lia. }
  destruct (index_defined (splitLines text) r ltac:(lia)) as [l Hl].
  exists (mkLineAndColumn1 (r + 1) (Num (offset - start + 1))), l, start.
  cbn [line]. replace (r + 1 - 1) with r by lia.
  split.
  { unfold LineTable.get1BasedLineAndColumn, LineTable.getColumnFromLineAndOffset.
    rewrite Hr, Hstart. reflexivity. }
  split; [exact Hl |]. split; [exact Hstart |].
  split; [apply Hle; exact Hstart |].
  split.
  - apply index_Some in Hl. destruct Hl as [Hk0 Hk].
    destruct (split_loop_lines (List.length text) text [] 0 (Z.to_nat r) l
                (le_n _) (Forall_nil _) Hk)
      as (st & a & b & Hst & _ & Htext & Ha & _).
    change (len (@nil CodeUnit)) with 0 in Hst, Ha. cbn [app] in Htext.
    change (0 - 0) with 0 in Hst, Ha. rewrite Z.sub_0_r in Ha.
    assert (Hidx : index (LineTable.lineStarts (LineTable.new text)) r = Some st).
    { rewrite new_lineStarts. cbv zeta.
      assert (Hidx : index (0 :: lineBreaks text 0) r = Some st)
        by (apply index_Some; split; assumption).
      destruct (_ =? _); [exact Hidx | apply index_app_l; exact Hidx]. }
    assert (Hss : st = start) by congruence. rewrite Hss in Ha.
    rewrite Htext, <- Ha. apply substring_middle.
  - destruct Hstarts as [-> | ->]; [lia |].
    rewrite len_app. change (len [len text]) with 1.
    assert (len (0 :: lineBreaks text 0) = len (splitLines text))
      by (rewrite Hcount; unfold len; cbn [List.length]; lia).
    lia.
Qed.

Lemma looked_up_line_exists_witness :
  exists lc l start,
    LineTable.get1BasedLineAndColumn (LineTable.new (js "ab" ++ [13; 10] ++ js "cd")%N) 3
    = Some lc /\
    index (splitLines (js "ab" ++ [13; 10] ++ js "cd")%N) (line lc - 1) = Some l /\
    LineTable.getStartOfLine (LineTable.new (js "ab" ++ [13; 10] ++ js "cd")%N)
      (line lc - 1) = Some start /\
    start <= 3 /\
    substring (js "ab" ++ [13; 10] ++ js "cd")%N start (start + len l) = l /\
    len (splitLines (js "ab" ++ [13; 10] ++ js "cd")%N)
    <= len (LineTable.lineStarts (LineTable.new (js "ab" ++ [13; 10] ++ js "cd")%N))
    <= len (splitLines (js "ab" ++ [13; 10] ++ js "cd")%N) + 1.
Proof.
  apply (looked_up_line_exists (js "ab" ++ [13; 10] ++ js "cd")%N 3).
  - vm_compute. reflexivity.
  - vm_compute. split; [discriminate | reflexivity].
Defined.

(** ** The words that the loop visits *)

(** X8: the matches that the loop of [main] visits in a text are the
    words of the text: a match is a letter or underscore followed by
    letters, digits and underscores, as many as there are, and no letter
    or underscore comes before it with only word characters between (so
    a word that follows digits, as in "12ab", is matched without them).
    Every such word is visited, and the matches come in the order of the
    text, each beginning after the end of the one before with at least
    one character between. *)
Theorem matches_are_the_words (text : JsString) :
  (forall matchIndex w,
      In (matchIndex, w) (matchesOf text) <->
      exists pre post,
        text = pre ++ w ++ post /\ matchIndex = len pre /\
        isWord w /\ endsWord post /\ beginsWord pre) /\
  StronglySorted (fun m1 m2 => fst m1 + len (snd m1) < fst m2) (matchesOf text).
Proof.
  unfold matchesOf. split.
  - intros mi w.
    pose proof (matchesFrom_words (List.length text) [] text mi w (le_n _)) as H.
    cbn [app] in H. change (len (@nil CodeUnit)) with 0 in H.
    rewrite H. split; intros (pre & post & H1 & H2 & H3); exists pre, post;
      (split; [exact H1 | split; [lia | exact H3]]).
  - apply (matchesFrom_sorted (List.length text) [] text (le_n _)).
Qed.

(** X9: the measurements of a file follow the matches of its text that
    are not on a comment line, one measurement for one match and in the
    order of the text: the positions reported are those of the first
    matches, as far as the run gets, and of all of them when the run
    completes.  No match is measured twice and none is passed over. *)
Theorem measurements_follow_the_matches (jumpToDef : bool)
  (server : list Message -> Response)
  (now : list Message -> list Measurement.t -> float)
  (readFileSync fileUri : JsString -> JsString)
  (file : JsString) (sent0 : list Message) (reported0 : list Measurement.t) :
  let text := readFileSync file in
  let run := benchFile jumpToDef server now readFileSync fileUri file
               sent0 reported0 in
  let positions := map reportedPosition (measured reported0 (fst run)) in
  (exists k, positions = map (positionOf text) (firstn k (probedMatches text))) /\
  (snd run = Completed ->
   positions = map (positionOf text) (probedMatches text)).
Proof.
  intros text run positions. subst positions run. unfold benchFile. fold text.
  set (st0 := mkState _ _ _ _).
  destruct (loop_measured jumpToDef server now file (fileUri file) text
              (List.length text) st0) as (ms & k & Hrep & Hk & Hdone).
  assert (Hms : measured reported0
                  (fst (wordLoop jumpToDef server now file (fileUri file) text
                          (splitLines text) (LineTable.new text)
                          (List.length text) st0)) = ms).
  { unfold measured. rewrite Hrep. subst st0. cbn [reported].
    apply skipn_app_exact. }
  rewrite Hms. split; [exists k; exact Hk | exact Hdone].
Qed.

(** ** Runs that are rejected, and runs that are answered *)

(** X10: a run of a file that is rejected stops inside a cycle, after
    completed cycles: either the request of the cycle was rejected, and
    then the probe and the request are the last messages written, no
    revert follows, and the server is left with the edited text; or the
    result of the request could not be counted, and then the revert was
    written before the error.  In both cases the cycle reports no
    measurement. *)
Theorem rejected_run_stops_in_a_cycle (jumpToDef : bool)
  (server : list Message -> Response)
  (now : list Message -> list Measurement.t -> float)
  (readFileSync fileUri : JsString -> JsString)
  (file : JsString) (sent0 : list Message) (reported0 : list Measurement.t) :
  let text := readFileSync file in
  let uri := fileUri file in
  let opening := DidOpenTextDocument uri (js "codeql") 1 text in
  let run := benchFile jumpToDef server now readFileSync fileUri file
               sent0 reported0 in
  let ms := measured reported0 (fst run) in
  snd run = Rejected ->
  exists tr pre w post lc,
    Cycles jumpToDef server now file uri text (sent0 ++ [opening]) reported0
      tr ms /\
    text = pre ++ w ++ post /\ isWord w /\ endsWord post /\
    LineTable.get1BasedLineAndColumn (LineTable.new text) (len pre) = Some lc /\
    commentRegex_test (index (splitLines text) (line lc - 1)) = false /\
    let v := 1 + 2 * len ms in
    let probe :=
      DidChangeTextDocument uri (v + 1) (probeText jumpToDef pre w post) in
    let request :=
      requestAt jumpToDef uri (v + 1) (Position.create (line lc) (column lc)) in
    let revert := DidChangeTextDocument uri (v + 2) text in
    (written sent0 (fst run) = opening :: tr ++ [probe; request] /\
     server (sent0 ++ opening :: tr ++ [probe; request]) = ResponseError /\
     documentAfter (written sent0 (fst run)) None
     = Some (probeText jumpToDef pre w post)) \/
    (exists result,
       written sent0 (fst run) = opening :: tr ++ [probe; request; revert] /\
       server (sent0 ++ opening :: tr ++ [probe; request]) = Result result /\
       numberOfResults result = None /\
       documentAfter (written sent0 (fst run)) None = Some text).
Proof.
  intros text uri opening run ms Hrejected.
  destruct (benchFile_rejected jumpToDef server now readFileSync fileUri file
              sent0 reported0 Hrejected)
    as (tr & pre & w & post & lc & Hcycles & Htext & Hw & Hpost & Hlc & Hcomment
        & Hcases).
  fold text uri opening run ms in Hcycles, Htext, Hlc, Hcomment, Hcases.
  exists tr, pre, w, post, lc.
  split; [exact Hcycles |]. split; [exact Htext |]. split; [exact Hw |].
  split; [exact Hpost |]. split; [exact Hlc |]. split; [exact Hcomment |].
  cbv zeta in Hcases |- *.
  fold text uri opening run ms in Hcases.
  destruct Hcases as [(Hwritten & _ & Hserver) | (result & Hwritten & _ & Hserver & Hn)].
  - left. split; [exact Hwritten |]. split; [exact Hserver |].
    rewrite Hwritten. unfold opening. cbn [documentAfter].
    rewrite documentAfter_app.
    unfold requestAt. destruct jumpToDef; reflexivity.
  - right. exists result. split; [exact Hwritten |]. split; [exact Hserver |].
    split; [exact Hn |].
    rewrite Hwritten. unfold opening. cbn [documentAfter].
    rewrite documentAfter_app.
    unfold requestAt. destruct jumpToDef; reflexivity.
Qed.

Lemma rejected_run_stops_in_a_cycle_witness :
  let text := js "ab" in
  let uri := exampleUri (js "a.ql") in
  let opening := DidOpenTextDocument uri (js "codeql") 1 text in
  let run := benchFile false rejectingServer stillClock (oneText (js "ab"))
               exampleUri (js "a.ql") [] [] in
  let ms := measured [] (fst run) in
  snd run = Rejected /\
  exists tr pre w post lc,
    Cycles false rejectingServer stillClock (js "a.ql") uri text ([] ++ [opening]) []
      tr ms /\
    text = pre ++ w ++ post /\ isWord w /\ endsWord post /\
    LineTable.get1BasedLineAndColumn (LineTable.new text) (len pre) = Some lc /\
    commentRegex_test (index (splitLines text) (line lc - 1)) = false /\
    let v := 1 + 2 * len ms in
    let probe :=
      DidChangeTextDocument uri (v + 1) (probeText false pre w post) in
    let request :=
      requestAt false uri (v + 1) (Position.create (line lc) (column lc)) in
    let revert := DidChangeTextDocument uri (v + 2) text in
    (written [] (fst run) = opening :: tr ++ [probe; request] /\
     rejectingServer ([] ++ opening :: tr ++ [probe; request]) = ResponseError /\
     documentAfter (written [] (fst run)) None
     = Some (probeText false pre w post)) \/
    (exists result,
       written [] (fst run) = opening :: tr ++ [probe; request; revert] /\
       rejectingServer ([] ++ opening :: tr ++ [probe; request]) = Result result /\
       numberOfResults result = None /\
       documentAfter (written [] (fst run)) None = Some text).
Proof.
  split; [reflexivity |].
  apply (rejected_run_stops_in_a_cycle false rejectingServer stillClock
           (oneText (js "ab")) exampleUri (js "a.ql") [] []).
  reflexivity.
Defined.

(** X11: when the text of a file is shorter than [2 ^ 31] and the server
    answers every request with a result that can be counted, the run of
    the file completes: every match that is not on a comment line is
    measured, three messages are written for each after the [didOpen],
    the version counter ends at one plus twice their number, and the
    server is left with the text of the file. *)
Theorem answered_run_completes (jumpToDef : bool)
  (server : list Message -> Response)
  (now : list Message -> list Measurement.t -> float)
  (readFileSync fileUri : JsString -> JsString)
  (file : JsString) (sent0 : list Message) (reported0 : list Measurement.t) :
  let text := readFileSync file in
  let run := benchFile jumpToDef server now readFileSync fileUri file
               sent0 reported0 in
  len text < 2 ^ 31 ->
  (forall msgs, exists result n,
      server msgs = Result result /\ numberOfResults result = Some n) ->
  snd run = Completed /\
  map reportedPosition (measured reported0 (fst run))
  = map (positionOf text) (probedMatches text) /\
  len (written sent0 (fst run)) = 1 + 3 * len (probedMatches text) /\
  versionNumber (fst run) = 1 + 2 * len (probedMatches text) /\
  documentAfter (written sent0 (fst run)) None = Some text.
Proof.
  intros text run Hlen Hserver.
  destruct (benchFile_run jumpToDef server now readFileSync fileUri file
              sent0 reported0)
    as (tr & extra & Hwritten & Hcycles & Hdone & _ & _ & Hfuel).
  fold text run in Hwritten, Hcycles, Hdone, Hfuel.
  specialize (Hfuel Hlen).
  assert (Hcompleted : snd run = Completed)
    by (apply benchFile_answered; assumption).
  destruct (Hdone Hcompleted) as [-> Hversion].
  rewrite app_nil_r in Hwritten.
  assert (Hall : map reportedPosition (measured reported0 (fst run))
                 = map (positionOf text) (probedMatches text)).
  { revert Hcompleted. subst run. unfold benchFile. fold text.
    set (st0 := mkState _ _ _ _).
    destruct (loop_measured jumpToDef server now file (fileUri file) text
                (List.length text) st0) as (ms & k & Hrep & _ & Hall).
    unfold measured. rewrite Hrep. subst st0. cbn [reported].
    rewrite skipn_app_exact. exact Hall. }
  assert (Hcount : List.length (measured reported0 (fst run))
                   = List.length (probedMatches text)).
  { rewrite <- (length_map reportedPosition), Hall, length_map. reflexivity. }
  pose proof (Cycles_length _ _ _ _ _ _ _ _ _ _ Hcycles) as Htr.
  split; [exact Hcompleted |]. split; [exact Hall |].
  split; [| split].
  - rewrite Hwritten. unfold len. cbn [List.length]. rewrite Htr, Hcount. lia.
  - rewrite Hversion. unfold len. rewrite Hcount. reflexivity.
  - rewrite Hwritten. cbn [documentAfter].
    rewrite <- (firstn_all tr), Htr.
    apply (Cycles_document _ _ _ _ _ _ _ _ _ _ Hcycles). lia.
Qed.

Lemma answered_run_completes_witness :
  let text := js "foo // bar" in
  let run := exampleRun true text in
  snd run = Completed /\
  map reportedPosition (measured [] (fst run))
  = map (positionOf text) (probedMatches text) /\
  len (written [] (fst run)) = 1 + 3 * len (probedMatches text) /\
  versionNumber (fst run) = 1 + 2 * len (probedMatches text) /\
  documentAfter (written [] (fst run)) None = Some text.
Proof.
  apply (answered_run_completes true nullServer stillClock
           (oneText (js "foo // bar")) exampleUri (js "a.ql") [] []).
  - vm_compute. reflexivity.
  - intros msgs. exists JNull, (JNumber 0). split; reflexivity.
Defined.

(** X12: counting the results throws exactly when the result is a
    number other than 0, [true], a non-empty string, or an object whose
    [items] is [null] or [undefined]. *)
Theorem numberOfResults_throws_exactly (result : JsValue) :
  numberOfResults result = None <->
  (exists n, result = JNumber n /\ n <> 0) \/
  result = JBool true \/
  (exists c s, result = JString (c :: s)) \/
  (exists fields,
      result = JObject fields /\
      (lookup (js "items") fields = Some JNull \/
       lookup (js "items") fields = Some JUndefined)).
Proof.
  unfold numberOfResults. split.
  - destruct result as [| | [|] | n | [| c s] | elems | fields];
      cbn [truthy negb isArray hasItems getLength getItems]; try discriminate.
    + intros _. right. left. reflexivity.
    + destruct (Z.eqb_spec n 0) as [-> | Hn]; cbn [negb]; [discriminate |].
      intros _. left. exists n. split; [reflexivity | exact Hn].
    + intros _. right. right. left. exists c, s. reflexivity.
    + destruct (lookup (js "items") fields) as [items |] eqn:Eitems;
        [| discriminate].
      intros H. right. right. right. exists fields. split; [reflexivity |].
      destruct items; cbn [getLength] in H; try discriminate;
        [right | left]; exact Eitems.
  - intros [(n & -> & Hn) | [-> | [(c & s & ->) | (fields & -> & Hitems)]]];
      cbn [truthy negb isArray hasItems getLength getItems].
    + apply Z.eqb_neq in Hn. rewrite Hn. reflexivity.
    + reflexivity.
    + reflexivity.
    + destruct Hitems as [-> | ->]; reflexivity.
Qed.

(** ** The time of a measurement *)

(** X20: the time of a measurement spans its whole cycle: it is
    [Math.round] of the difference, taken in double precision, between
    the clock read after the revert of the cycle was written and the
    clock read before its probe was written, so it covers the two
    notifications as well as the request. *)
Theorem time_spans_the_cycle (jumpToDef : bool)
  (server : list Message -> Response)
  (now : list Message -> list Measurement.t -> float)
  (readFileSync fileUri : JsString -> JsString)
  (file : JsString) (sent0 : list Message) (reported0 : list Measurement.t)
  (k : nat) (m : Measurement.t) :
  let run := benchFile jumpToDef server now readFileSync fileUri file
               sent0 reported0 in
  let msgs := written sent0 (fst run) in
  let ms := measured reported0 (fst run) in
  nth_error ms k = Some m ->
  let startTime := now (sent0 ++ firstn (3 * k + 1) msgs) (reported0 ++ firstn k ms) in
  let endTime := now (sent0 ++ firstn (3 * k + 4) msgs) (reported0 ++ firstn k ms) in
  Measurement.time m = round (endTime - startTime)%float.
Proof.
  intros run msgs ms Hm startTime endTime.
  destruct (benchFile_run jumpToDef server now readFileSync fileUri file
              sent0 reported0)
    as (tr & extra & Hwritten & Hcycles & _).
  fold run in Hwritten, Hcycles. fold msgs in Hwritten. fold ms in Hcycles.
  pose proof (Cycles_length _ _ _ _ _ _ _ _ _ _ Hcycles) as Hlen.
  assert (Hk : (k < List.length ms)%nat) by (apply nth_error_Some; congruence).
  pose proof (Cycles_time _ _ _ _ _ _ _ _ _ _ Hcycles k m Hm) as Htime.
  assert (Hstart : sent0 ++ firstn (3 * k + 1) msgs
                   = (sent0 ++ [DidOpenTextDocument (fileUri file) (js "codeql") 1
                                  (readFileSync file)]) ++ firstn (3 * k) tr).
  { rewrite Hwritten. replace (3 * k + 1)%nat with (S (3 * k)) by lia.
    cbn [firstn]. rewrite firstn_app.
    replace (3 * k - List.length tr)%nat with 0%nat by lia.
    rewrite firstn_O, app_nil_r, <- app_assoc. reflexivity. }
  assert (Hend : sent0 ++ firstn (3 * k + 4) msgs
                 = (sent0 ++ [DidOpenTextDocument (fileUri file) (js "codeql") 1
                                (readFileSync file)]) ++ firstn (3 * k + 3) tr).
  { rewrite Hwritten. replace (3 * k + 4)%nat with (S (3 * k + 3)) by lia.
    cbn [firstn]. rewrite firstn_app.
    replace (3 * k + 3 - List.length tr)%nat with 0%nat by lia.
    rewrite firstn_O, app_nil_r, <- app_assoc. reflexivity. }
  subst startTime endTime. rewrite Hstart, Hend. exact Htime.
Qed.

Lemma time_spans_the_cycle_witness :
  let run := benchFile false nullServer exampleClock (oneText (js "foo"))
               exampleUri (js "a.ql") [] [] in
  let m := Measurement.mk (js "a.ql") 1 (Num 1) 1027%float (JNumber 0) in
  nth_error (measured [] (fst run)) 0 = Some m /\
  exampleClock (firstn 1 (written [] (fst run))) [] = 259.638%float /\
  exampleClock (firstn 4 (written [] (fst run))) [] = 1286.138%float /\
  (1286.138 - 259.638)%float = 1026.5%float /\
  Measurement.time m = round (1286.138 - 259.638)%float.
Proof.
  split; [reflexivity |]. split; [reflexivity |]. split; [reflexivity |].
  split; [reflexivity |].
  apply (time_spans_the_cycle false nullServer exampleClock (oneText (js "foo"))
           exampleUri (js "a.ql") [] [] 0
           (Measurement.mk (js "a.ql") 1 (Num 1) 1027%float (JNumber 0))).
  reflexivity.
Defined.

(** ** The order of the measurements *)

(** X23: the measurements of a file whose text is shorter than [2 ^ 31]
    come in the order of their positions: a later measurement is on a
    later line, or on the same line at a greater column.  So no position
    is reported twice, and no column is [NaN]. *)
Theorem measurements_are_in_position_order (jumpToDef : bool)
  (server : list Message -> Response)
  (now : list Message -> list Measurement.t -> float)
  (readFileSync fileUri : JsString -> JsString)
  (file : JsString) (sent0 : list Message) (reported0 : list Measurement.t)
  (i j : nat) (m1 m2 : Measurement.t) :
  let run := benchFile jumpToDef server now readFileSync fileUri file
               sent0 reported0 in
  len (readFileSync file) < 2 ^ 31 ->
  (i < j)%nat ->
  nth_error (measured reported0 (fst run)) i = Some m1 ->
  nth_error (measured reported0 (fst run)) j = Some m2 ->
  exists c1 c2,
    Measurement.column m1 = Num c1 /\ Measurement.column m2 = Num c2 /\
    (Measurement.line m1 < Measurement.line m2 \/
     (Measurement.line m1 = Measurement.line m2 /\ c1 < c2)).
Proof.
  intros run Hlen Hij. subst run. unfold benchFile.
  set (text := readFileSync file) in *.
  set (st0 := mkState _ _ _ _).
  destruct (loop_measured jumpToDef server now file (fileUri file) text
              (List.length text) st0) as (ms & k & Hrep & Hpos & _).
  unfold measured. rewrite Hrep. subst st0. cbn [reported lastIndex] in *.
  rewrite skipn_app_exact. intros Hm1 Hm2.
  set (probed := firstn k (filter (fun m => negb (onCommentLine text m))
                             (matchesFrom (List.length text) text 0))) in *.
  assert (Hsorted : StronglySorted (fun p q => fst p + len (snd p) < fst q) probed).
  { apply StronglySorted_firstn, StronglySorted_filter.
    apply (matchesFrom_sorted (List.length text) [] text (le_n _)). }
  assert (Hin : forall p, In p probed -> 0 <= fst p /\ 0 <= len (snd p)).
  { intros [mi w] Hp. cbn [fst snd]. split; [| apply len_nonneg].
    assert (Hp' : In (mi, w) (matchesFrom (List.length text) text 0)).
    { assert (Hf : In (mi, w)
                     (filter (fun m => negb (onCommentLine text m))
                        (matchesFrom (List.length text) text 0))).
      { rewrite <- (firstn_skipn k (filter _ _)).
        apply in_or_app. left. exact Hp. }
      apply filter_In in Hf. apply Hf. }
    apply (matchesFrom_words (List.length text) [] text mi w (le_n _)) in Hp'.
    destruct Hp' as (pre & post & _ & -> & _).
    change (len (@nil CodeUnit)) with 0. pose proof (len_nonneg pre). lia. }
  assert (Hnth : forall n m,
             nth_error ms n = Some m ->
             exists p, nth_error probed n = Some p /\
                       reportedPosition m = positionOf text p).
  { intros n m Hm.
    pose proof (map_nth_error reportedPosition n ms Hm) as Hn.
    rewrite Hpos in Hn.
    destruct (nth_error probed n) as [p |] eqn:Ep.
    - exists p. split; [reflexivity |].
      rewrite (map_nth_error (positionOf text) n probed Ep) in Hn. congruence.
    - exfalso. apply nth_error_None in Ep.
      assert (Hnone : nth_error (map (positionOf text) probed) n = None)
        by (apply nth_error_None; rewrite length_map; exact Ep).
      congruence. }
  destruct (Hnth i m1 Hm1) as (p1 & Hp1 & Hrow1).
  destruct (Hnth j m2 Hm2) as (p2 & Hp2 & Hrow2).
  pose proof (StronglySorted_nth _ _ Hsorted i j p1 p2 Hij Hp1 Hp2) as Hgap.
  cbv beta in Hgap.
  destruct (Hin p1 (nth_error_In _ _ Hp1)) as [H1 H1'].
  assert (Horder12 : 0 <= fst p1 < fst p2).
  { destruct p1 as [o1 w1], p2 as [o2 w2]. cbn [fst snd] in *.
    pose proof (len_nonneg w1). lia. }
  destruct (positions_ordered text (fst p1) (fst p2) Hlen ltac:(lia))
    as (l1 & c1 & l2 & c2 & Hlc1 & Hlc2 & Horder).
  unfold reportedPosition, positionOf in Hrow1, Hrow2.
  rewrite Hlc1 in Hrow1. rewrite Hlc2 in Hrow2.
  injection Hrow1 as -> ->. injection Hrow2 as -> ->.
  exists c1, c2. split; [reflexivity |]. split; [reflexivity |].
  destruct Horder as [Hlt | [-> Hcol]]; [left; exact Hlt | right].
  split; [reflexivity | lia].
Qed.

Lemma measurements_are_in_position_order_witness :
  let run := exampleRun false (js "foo bar") in
  let m1 := Measurement.mk (js "a.ql") 1 (Num 1) 0%float (JNumber 0) in
  let m2 := Measurement.mk (js "a.ql") 1 (Num 5) 0%float (JNumber 0) in
  nth_error (measured [] (fst run)) 0 = Some m1 /\
  nth_error (measured [] (fst run)) 1 = Some m2 /\
  exists c1 c2,
    Measurement.column m1 = Num c1 /\ Measurement.column m2 = Num c2 /\
    (Measurement.line m1 < Measurement.line m2 \/
     (Measurement.line m1 = Measurement.line m2 /\ c1 < c2)).
Proof.
  split; [reflexivity |]. split; [reflexivity |].
  apply (measurements_are_in_position_order false nullServer stillClock
           (oneText (js "foo bar")) exampleUri (js "a.ql") [] [] 0 1).
  - vm_compute. reflexivity.
  - lia.
  - reflexivity.
  - reflexivity.
Defined.

(** * Further properties of the position index *)

Lemma getLowerBound_loop_range (fuel : nat) (array : list Z) (value : Z) :
  forall low high r,
    low <= high -> high - low < 2 ^ 31 ->
    getLowerBound_loop fuel array value low high = Some r ->
    low <= r <= high.
Proof.
  induction fuel as [| fuel IH]; intros low high r Hlh Hd; cbn [getLowerBound_loop];
    destruct (Z.ltb_spec low high) as [Hlt | Hge]; intros Hr;
    try discriminate; try (injection Hr as <-; lia).
  pose proof (mid_bounds low high Hlt Hd) as Hmid.
  destruct (ltElem value (index array (high - sar (high - low) 1)));
    apply IH in Hr; lia.
Qed.

(** X1: whatever the array holds, sorted or not, [getLowerBound] never
    returns an index outside a non-empty array (of at most [2 ^ 31]
    elements); on the empty array it returns 0, which is no index of it. *)
Theorem getLowerBound_index_in_range (array : list Z) (value : Z) :
  (0 < len array <= 2 ^ 31 ->
   exists r, getLowerBound array value = Some r /\ 0 <= r < len array /\
             exists x, index array r = Some x) /\
  (array = [] -> getLowerBound array value = Some 0 /\ index array 0 = None).
Proof.
  split.
  - intros Hlen.
    destruct (getLowerBound_total array value ltac:(lia)) as [r Hr].
    exists r. split; [exact Hr |].
    assert (Hrange : 0 <= r < len array).
    { unfold getLowerBound in Hr.
      destruct (ltElem value (index array 0)); [injection Hr as <-; lia |].
      destruct (geElem value (index array (len array - 1)));
        [injection Hr as <-; lia |].
      apply getLowerBound_loop_range in Hr; lia. }
    split; [exact Hrange | apply index_defined; exact Hrange].
  - intros ->. split; reflexivity.
Qed.

Lemma getLowerBound_index_in_range_witness :
  0 < len [7; 3; 9; 1] <= 2 ^ 31 /\
  exists r, getLowerBound [7; 3; 9; 1] 5 = Some r /\ 0 <= r < len [7; 3; 9; 1] /\
            exists x, index [7; 3; 9; 1] r = Some x.
Proof.
  assert (H : 0 < len [7; 3; 9; 1] <= 2 ^ 31) by (unfold len; simpl; lia).
  split; [exact H |].
  apply (proj1 (getLowerBound_index_in_range [7; 3; 9; 1] 5)). exact H.
Defined.

(** X2: on a sorted, non-empty array (of at most [2 ^ 31] elements), where
    equal neighbours are allowed, [getLowerBound] returns the index of the
    last element that is less than or equal to the value, so the last of
    several equal ones, and index 0 when every element is greater. *)
Theorem getLowerBound_last_not_greater (array : list Z) (value : Z) :
  sorted array -> 0 < len array <= 2 ^ 31 ->
  exists r x,
    getLowerBound array value = Some r /\ index array r = Some x /\
    ((forall j y, index array j = Some y -> value < y) -> r = 0) /\
    ((exists j y, index array j = Some y /\ y <= value) ->
     x <= value /\
     forall j y, index array j = Some y -> y <= value -> j <= r).
Proof.
  intros Hsorted Hlen.
  destruct (getLowerBound_spec array value Hsorted Hlen)
    as (r & Hr & Hrange & Hbelow & Hwithin).
  destruct (index_defined array r Hrange) as [x Hx].
  destruct (index_defined array 0 ltac:(lia)) as [a0 H0].
  exists r, x. split; [exact Hr |]. split; [exact Hx |]. split.
  - intros Hall. apply (Hbelow a0 H0). apply (Hall 0). exact H0.
  - intros (j & y & Hj & Hy).
    assert (Ha0 : a0 <= value).
    { pose proof (index_in_range _ _ _ Hj).
      pose proof (Hsorted 0 j a0 y ltac:(lia) H0 Hj). lia. }
    destruct (Hwithin a0 H0 Ha0) as [Hle Hgt]. split; [apply Hle; exact Hx |].
    intros j' y' Hj' Hy'. destruct (Z_le_gt_dec j' r) as [? | Hjr]; [assumption |].
    pose proof (Hgt j' y' ltac:(lia) Hj'). lia.
Qed.

Lemma getLowerBound_last_not_greater_witness :
  sorted [1; 4; 4; 4; 9] /\ 0 < len [1; 4; 4; 4; 9] <= 2 ^ 31 /\
  exists r x,
    getLowerBound [1; 4; 4; 4; 9] 4 = Some r /\
    index [1; 4; 4; 4; 9] r = Some x /\
    x <= 4 /\ 3 <= r.
Proof.
  assert (Hs : sorted [1; 4; 4; 4; 9]).
  { apply StronglySorted_sorted. repeat constructor; lia. }
  assert (Hl : 0 < len [1; 4; 4; 4; 9] <= 2 ^ 31) by (unfold len; simpl; lia).
  split; [exact Hs |]. split; [exact Hl |].
  destruct (getLowerBound_last_not_greater [1; 4; 4; 4; 9] 4 Hs Hl)
    as (r & x & Hr & Hx & _ & Hlast).
  destruct Hlast as [Hle Hmax]; [exists 3, 4; split; [reflexivity | lia] |].
  exists r, x. split; [exact Hr |]. split; [exact Hx |]. split; [exact Hle |].
  apply (Hmax 3 4); [reflexivity | lia].
Defined.

(** X3: the last entry of the table of every text is the length of the
    text, every entry lies between 0 and that length, and the table has at
    most one entry more than the text has characters. *)
Theorem lineStarts_end_with_length (text : JsString) :
  let table := LineTable.new text in
  LineTable.getStartOfLine table (len (LineTable.lineStarts table) - 1)
  = Some (len text) /\
  Forall (fun s => 0 <= s <= len text) (LineTable.lineStarts table) /\
  1 <= len (LineTable.lineStarts table) <= len text + 1.
Proof.
  intros table. subst table.
  split; [| split; [apply new_sorted_bounds | pose proof (new_len text); lia]].
  unfold LineTable.getStartOfLine. rewrite new_lineStarts. cbv zeta.
  destruct (Z.eqb_spec (last (0 :: lineBreaks text 0) 0) (len text)) as [Heq | Hne].
  - rewrite (index_last _ 0) by discriminate. f_equal. exact Heq.
  - rewrite (index_last _ 0) by (destruct (lineBreaks text 0); discriminate).
    rewrite last_last. reflexivity.
Qed.

(** X4: an offset is in the table of a text exactly when it is 0, or the
    length of the text, or the offset after a line feed, or the offset
    after a carriage return that no line feed follows.  So a carriage
    return alone ends a line as a line feed does, and no other character
    does. *)
Theorem lineStarts_are_the_breaks (text : JsString) (s : Z) :
  In s (LineTable.lineStarts (LineTable.new text)) <->
  s = 0 \/ s = len text \/
  exists pre c post,
    text = pre ++ c :: post /\ s = len pre + 1 /\
    (c = Chars.lineFeed \/
     (c = Chars.carriageReturn /\ forall post', post <> Chars.lineFeed :: post')).
Proof.
  rewrite in_lineStarts. split.
  - intros [H | [H | H]]; [left; exact H | | right; left; exact H].
    right. right.
    destruct (lineBreaks_In (List.length text) text 0 s (Nat.le_refl _) H)
      as (pre & c & post & Htext & Hs & Hc).
    exists pre, c, post. split; [exact Htext |]. split; [lia | exact Hc].
  - intros [H | [H | (pre & c & post & -> & -> & Hc)]];
      [left; exact H | right; right; exact H |].
    right. left. apply (lineBreaks_In_conv pre c post 0 Hc).
Qed.

Lemma lineStarts_are_the_breaks_witness :
  let text := js "a" ++ [Chars.carriageReturn] ++ js "b" in
  In 2 (LineTable.lineStarts (LineTable.new text)) /\
  ~ In 1 (LineTable.lineStarts (LineTable.new text)).
Proof.
  intros text. split.
  - apply (proj2 (lineStarts_are_the_breaks text 2)). right. right.
    exists (js "a"), Chars.carriageReturn, (js "b").
    split; [reflexivity |]. split; [reflexivity |]. right.
    split; [reflexivity | discriminate].
  - intros Hin. apply (proj1 (lineStarts_are_the_breaks text 1)) in Hin.
    destruct Hin as [H | [H | (pre & c & post & Htext & Hs & Hc)]];
      [discriminate | discriminate |].
    assert (Hpre : pre = []).
    { destruct pre; [reflexivity |]. rewrite len_cons in Hs.
      pose proof (len_nonneg pre). lia. }
    subst pre. injection Htext as <- _.
    destruct Hc as [Hc | [Hc _]]; discriminate.
Defined.

(** X5: the position of an offset leads back to the offset.  On the table
    of a text (shorter than [2 ^ 31]) a non-negative offset gets a line and
    a column, both at least 1; the start of that line plus the column
    less one is the offset, and the offset lies before the start of the
    next line.  Two offsets with the same position are equal.  A negative
    offset gets line 1 and a column below 1. *)
Theorem position_leads_back_to_offset (text : JsString) (offset : Z) :
  len text < 2 ^ 31 ->
  let table := LineTable.new text in
  (0 <= offset ->
   exists l c start,
     LineTable.get1BasedLineAndColumn table offset
     = Some (mkLineAndColumn1 l (Num c)) /\
     1 <= l <= len (LineTable.lineStarts table) /\ 1 <= c /\
     LineTable.getStartOfLine table (l - 1) = Some start /\
     start + (c - 1) = offset /\
     (forall next, LineTable.getStartOfLine table l = Some next -> offset < next) /\
     (forall offset',
         0 <= offset' ->
         LineTable.get1BasedLineAndColumn table offset'
         = Some (mkLineAndColumn1 l (Num c)) ->
         offset' = offset)) /\
  (offset < 0 ->
   LineTable.get1BasedLineAndColumn table offset
   = Some (mkLineAndColumn1 1 (Num (offset + 1)))).
Proof.
  intros Hlen table.
  assert (Hback : forall o l c,
             LineTable.get1BasedLineAndColumn table o
             = Some (mkLineAndColumn1 l (Num c)) ->
             exists start,
               LineTable.getLineFromOffset table o = Some (l - 1) /\
               LineTable.getStartOfLine table (l - 1) = Some start /\
               start + (c - 1) = o).
  { intros o l c Ho.
    destruct (get1BasedLineAndColumn_defined text o Hlen)
      as (line0 & start & Hline0 & Hstart & Hlc).
    fold table in Hline0, Hstart, Hlc. rewrite Hlc in Ho.
    injection Ho as <- <-. replace (line0 + 1 - 1) with line0 by lia.
    exists start. split; [exact Hline0 |]. split; [exact Hstart | lia]. }
  split.
  - intros Hoff.
    destruct (get1BasedLineAndColumn_defined text offset Hlen)
      as (line0 & start & Hline0 & Hstart & Hlc).
    destruct (getLineFromOffset_spec text offset Hlen)
      as (r & Hr & Hrange & _ & Hpos).
    fold table in Hline0, Hstart, Hlc, Hr, Hrange, Hpos.
    rewrite Hline0 in Hr. injection Hr as <-.
    destruct (Hpos Hoff) as [Hle Hgt]. pose proof (Hle start Hstart) as Hstart_le.
    exists (line0 + 1), (offset - start + 1), start.
    replace (line0 + 1 - 1) with line0 by lia.
    split; [exact Hlc |]. split; [lia |]. split; [lia |].
    split; [exact Hstart |]. split; [lia |]. split.
    + intros next Hnext. apply (Hgt (line0 + 1)); [lia | exact Hnext].
    + intros offset' Hoff' Hsame.
      destruct (Hback offset' _ _ Hsame) as (start' & _ & Hstart' & Hsum).
      replace (line0 + 1 - 1) with line0 in Hstart' by lia.
      rewrite Hstart in Hstart'. injection Hstart' as <-. lia.
  - intros Hneg.
    destruct (get1BasedLineAndColumn_defined text offset Hlen)
      as (line0 & start & Hline0 & Hstart & Hlc).
    destruct (getLineFromOffset_spec text offset Hlen)
      as (r & Hr & _ & Hzero & _).
    fold table in Hline0, Hstart, Hlc, Hr.
    rewrite Hline0 in Hr. injection Hr as <-. rewrite (Hzero Hneg) in *.
    unfold LineTable.getStartOfLine in Hstart. fold table in Hstart.
    pose proof (new_first text) as H0. fold table in H0.
    rewrite H0 in Hstart. injection Hstart as <-.
    rewrite Hlc. replace (offset - 0 + 1) with (offset + 1) by lia.
    reflexivity.
Qed.

Lemma position_leads_back_to_offset_witness :
  let text := js "ab" ++ [Chars.lineFeed] ++ js "cd" in
  len text < 2 ^ 31 /\ 0 <= 4 /\
  LineTable.get1BasedLineAndColumn (LineTable.new text) 4
  = Some (mkLineAndColumn1 2 (Num 2)) /\
  (forall offset',
      0 <= offset' ->
      LineTable.get1BasedLineAndColumn (LineTable.new text) offset'
      = Some (mkLineAndColumn1 2 (Num 2)) ->
      offset' = 4) /\
  LineTable.get1BasedLineAndColumn (LineTable.new text) (-3)
  = Some (mkLineAndColumn1 1 (Num (-3 + 1))).
Proof.
  intros text.
  assert (Hlen : len text < 2 ^ 31) by reflexivity.
  split; [exact Hlen |]. split; [lia |].
  destruct (position_leads_back_to_offset text 4 Hlen) as [Hpos _].
  destruct (position_leads_back_to_offset text (-3) Hlen) as [_ Hneg].
  destruct (Hpos ltac:(lia)) as (l & c & start & Hlc & _ & _ & _ & _ & _ & Hinj).
  assert (Hvalue : LineTable.get1BasedLineAndColumn (LineTable.new text) 4
                   = Some (mkLineAndColumn1 2 (Num 2))) by reflexivity.
  split; [exact Hvalue |].
  rewrite Hvalue in Hlc. injection Hlc as <- <-.
  split; [exact Hinj | apply Hneg; lia].
Defined.

(** X22: positions keep the order of offsets.  On the table of a text
    shorter than [2 ^ 31], a later offset is never on an earlier line;
    two offsets are on the same line exactly when no line starts after
    the first and at or before the second, and then the columns differ
    as the offsets do. *)
Theorem positions_keep_the_order_of_offsets (text : JsString) (o1 o2 : Z) :
  let table := LineTable.new text in
  len text < 2 ^ 31 -> 0 <= o1 < o2 ->
  exists l1 c1 l2 c2,
    LineTable.get1BasedLineAndColumn table o1
    = Some (mkLineAndColumn1 l1 (Num c1)) /\
    LineTable.get1BasedLineAndColumn table o2
    = Some (mkLineAndColumn1 l2 (Num c2)) /\
    l1 <= l2 /\
    (l1 = l2 -> c2 - c1 = o2 - o1) /\
    (l1 = l2 <->
     forall j s, LineTable.getStartOfLine table j = Some s -> ~ o1 < s <= o2).
Proof.
  intros table Hlen Ho. subst table.
  destruct (get1BasedLineAndColumn_defined text o1 Hlen)
    as (r1 & s1 & Hr1 & Hs1 & Hlc1).
  destruct (get1BasedLineAndColumn_defined text o2 Hlen)
    as (r2 & s2 & Hr2 & Hs2 & Hlc2).
  exists (r1 + 1), (o1 - s1 + 1), (r2 + 1), (o2 - s2 + 1).
  split; [exact Hlc1 |]. split; [exact Hlc2 |].
  pose proof (getLineFromOffset_mono text o1 o2 r1 r2 Hlen ltac:(lia) Hr1 Hr2)
    as Hmono.
  destruct (getLineFromOffset_spec text o1 Hlen)
    as (r1' & Hr1' & Hrange1 & _ & Hpos1).
  destruct (getLineFromOffset_spec text o2 Hlen)
    as (r2' & Hr2' & Hrange2 & _ & Hpos2).
  assert (r1' = r1) by congruence. assert (r2' = r2) by congruence.
  subst r1' r2'.
  destruct (Hpos1 ltac:(lia)) as [Hle1 Hgt1].
  destruct (Hpos2 ltac:(lia)) as [Hle2 Hgt2].
  pose proof (increasing_sorted _ (new_increasing text)) as Hsorted.
  split; [lia |]. split.
  - intros Heq. assert (r1 = r2) by lia. subst r2.
    assert (s1 = s2) by congruence. lia.
  - split.
    + intros Heq j s Hs [Hlo Hhi]. assert (r1 = r2) by lia. subst r2.
      destruct (Z.le_gt_cases j r1) as [Hj | Hj].
      * pose proof (Hsorted j r1 s s1 Hj Hs Hs1). specialize (Hle1 s1 Hs1). lia.
      * specialize (Hgt2 j s Hj Hs). lia.
    + intros Hnone. destruct (Z.eq_dec r1 r2) as [-> | Hne]; [reflexivity |].
      exfalso. apply (Hnone r2 s2 Hs2). split.
      * apply (Hgt1 r2 s2); [lia | exact Hs2].
      * apply Hle2, Hs2.
Qed.

Lemma positions_keep_the_order_of_offsets_witness :
  let table := LineTable.new (js "ab" ++ [10%N] ++ js "cd") in
  exists l1 c1 l2 c2,
    LineTable.get1BasedLineAndColumn table 1
    = Some (mkLineAndColumn1 l1 (Num c1)) /\
    LineTable.get1BasedLineAndColumn table 4
    = Some (mkLineAndColumn1 l2 (Num c2)) /\
    l1 <= l2 /\
    (l1 = l2 -> c2 - c1 = 4 - 1) /\
    (l1 = l2 <->
     forall j s, LineTable.getStartOfLine table j = Some s -> ~ 1 < s <= 4).
Proof.
  apply (positions_keep_the_order_of_offsets (js "ab" ++ [10%N] ++ js "cd") 1 4).
  - vm_compute. reflexivity.
  - lia.
Defined.

(** * The whole run of lsp-bench *)




(** * The command line of lsp-bench *)

(** X14: [parseOptions] prints the usage and exits exactly when no
    argument after the first two is "--", whatever else the command line
    holds. *)
Theorem help_exactly_without_separator (existsSync isDirectory : JsString -> bool)
  (cwd : JsString) (argv : list JsString) :
  parseOptions existsSync isDirectory cwd argv = Exits Help <->
  ~ In (js "--") (skipn 2 argv).
Proof.
  split; [| apply parseOptions_help].
  intros Hhelp Hin.
  destruct (in_first _ _ Hin) as (optionArgs & command & Hargs & Hno).
  rewrite (parseOptions_dash existsSync isDirectory cwd argv optionArgs command
             Hargs Hno) in Hhelp.
  pose proof (optionLoop_spec optionArgs
                (mkLocals [] false (js "codeql") [] (Some Reporters.human)))
    as Hloop.
  destruct (optionLoop optionArgs _) as [st | exit].
  - pose proof (checkFiles_spec existsSync isDirectory (files st)) as Hfiles.
    destruct (checkFiles existsSync isDirectory (files st)) as [exit |];
      [| discriminate].
    destruct Hfiles as (good & f & rest & _ & _ & _ & ->). discriminate.
  - destruct Hloop as (before & bad & after & _ & _ & _ & ->). discriminate.
Qed.

(** X15: the command of the server is what follows the first "--", word
    for word: nothing after the first "--" is read as a flag or a file,
    and the files, the options, the reporter or the failure of
    [parseOptions] are the same whatever the command. *)
Theorem command_is_taken_verbatim (existsSync isDirectory : JsString -> bool)
  (cwd node script : JsString) (optionArgs command : list JsString) :
  ~ In (js "--") optionArgs ->
  let run command :=
    parseOptions existsSync isDirectory cwd
      (node :: script :: optionArgs ++ js "--" :: command) in
  (forall cfg r, run command = Returns cfg r -> Config.command cfg = command) /\
  (forall command',
      match run command, run command' with
      | Returns cfg r, Returns cfg' r' =>
          Config.files cfg' = Config.files cfg /\
          Config.options cfg' = Config.options cfg /\ r' = r
      | Exits exit, Exits exit' => exit' = exit
      | _, _ => False
      end).
Proof.
  intros Hno run.
  assert (Hrun : forall c,
             run c
             = match optionLoop optionArgs
                       (mkLocals [] false (js "codeql") [] (Some Reporters.human)) with
               | inr exit => Exits exit
               | inl st =>
                   match checkFiles existsSync isDirectory (files st) with
                   | Some exit => Exits exit
                   | None =>
                       Returns
                         (Config.mk (files st) c
                            (Options.mk (jumpToDef st) (language st)
                               (if len (workspaceFolders st) =? 0
                                then workspaceFolders st ++ [cwd]
                                else workspaceFolders st)))
                         (reporter st)
                   end
               end).
  { intros c. apply parseOptions_dash; [reflexivity | exact Hno]. }
  split.
  - intros cfg r. rewrite Hrun. destruct (optionLoop optionArgs _) as [st | exit];
      [| discriminate].
    destruct (checkFiles existsSync isDirectory (files st)); [discriminate |].
    intros [= <- _]. reflexivity.
  - intros command'. rewrite !Hrun.
    destruct (optionLoop optionArgs _) as [st | exit]; [| reflexivity].
    destruct (checkFiles existsSync isDirectory (files st)); [reflexivity |].
    repeat split.
Qed.

Lemma command_is_taken_verbatim_witness :
  let run command :=
    parseOptions everyFile noDirectory (js "/home")
      (js "node" :: js "lsp-bench" :: [js "--jump"; js "a.ql"]
         ++ js "--" :: command) in
  (forall cfg r,
      run [js "server"; js "--jump"; js "--"; js "b.ql"] = Returns cfg r ->
      Config.command cfg = [js "server"; js "--jump"; js "--"; js "b.ql"]) /\
  (forall command',
      match run [js "server"; js "--jump"; js "--"; js "b.ql"], run command' with
      | Returns cfg r, Returns cfg' r' =>
          Config.files cfg' = Config.files cfg /\
          Config.options cfg' = Config.options cfg /\ r' = r
      | Exits exit, Exits exit' => exit' = exit
      | _, _ => False
      end).
Proof.
  apply (command_is_taken_verbatim everyFile noDirectory (js "/home")
           (js "node") (js "lsp-bench") [js "--jump"; js "a.ql"]
           [js "server"; js "--jump"; js "--"; js "b.ql"]).
  intros [H | [H | []]]; discriminate H.
Defined.

(** X16: a configuration that [parseOptions] returns reads the arguments
    before the first "--", all of which are accepted: its files are the
    arguments that do not begin with "-", in their order, and each exists
    and is not a directory; [jumpToDef] tells whether "--jump" is among
    the arguments; the workspace folders are the values of the
    "--workspace=" arguments in their order, or the current directory
    alone when there is none; the language is the value of the last
    "--language=" argument, or "codeql"; and the reporter is the one
    named by the last "--format=" argument, or [human], never
    [undefined]. *)
Theorem returned_config_reads_the_arguments
  (existsSync isDirectory : JsString -> bool) (cwd : JsString)
  (argv : list JsString) (cfg : Config.t) (r : option Reporters.t) :
  parseOptions existsSync isDirectory cwd argv = Returns cfg r ->
  exists optionArgs,
    skipn 2 argv = optionArgs ++ js "--" :: Config.command cfg /\
    ~ In (js "--") optionArgs /\
    Forall (fun a => accepted a = true) optionArgs /\
    Config.files cfg = filter isFileArg optionArgs /\
    Forall (fun f => existsSync f = true /\ isDirectory f = false)
      (Config.files cfg) /\
    Options.jumpToDef (Config.options cfg) = includes optionArgs (js "--jump") /\
    Options.workspaceFolders (Config.options cfg)
    = match filter (startsWith (js "--workspace=")) optionArgs with
      | [] => [cwd]
      | given => map (valueOf (js "--workspace=")) given
      end /\
    LastOf (js "--language=") optionArgs (js "codeql")
      (Options.language (Config.options cfg)) /\
    exists key,
      LastOf (js "--format=") optionArgs (js "human") key /\
      r = Reporters.get key /\
      (r = Some Reporters.human \/ r = Some Reporters.csv).
Proof.
  intros Hreturns.
  destruct (in_dec (list_eq_dec N.eq_dec) (js "--") (skipn 2 argv)) as [Hin | Hno].
  2:{ rewrite (parseOptions_help existsSync isDirectory cwd argv Hno) in Hreturns.
      discriminate. }
  destruct (in_first _ _ Hin) as (optionArgs & command & Hargs & Hno).
  rewrite (parseOptions_dash existsSync isDirectory cwd argv optionArgs command
             Hargs Hno) in Hreturns.
  pose proof (optionLoop_spec optionArgs
                (mkLocals [] false (js "codeql") [] (Some Reporters.human)))
    as Hloop.
  destruct (optionLoop optionArgs _) as [st | exit]; [| discriminate].
  destruct Hloop as (Hall & Hfiles & Hjump & Hwork & Hlang & Hrep).
  cbn [files jumpToDef workspaceFolders language reporter app orb] in *.
  pose proof (checkFiles_spec existsSync isDirectory (files st)) as Hcheck.
  destruct (checkFiles existsSync isDirectory (files st)) as [exit |];
    [discriminate |].
  injection Hreturns as <- <-. cbn [Config.files Config.command Config.options
                                      Options.jumpToDef Options.language
                                      Options.workspaceFolders].
  exists optionArgs.
  split; [exact Hargs |]. split; [exact Hno |]. split; [exact Hall |].
  split; [exact Hfiles |].
  split.
  { eapply Forall_impl; [| exact Hcheck]. intros f Hf. unfold usable in Hf.
    apply andb_true_iff in Hf. destruct Hf as [He Hd].
    apply negb_true_iff in Hd. split; assumption. }
  split; [exact Hjump |].
  split.
  { rewrite Hwork.
    destruct (filter (startsWith (js "--workspace=")) optionArgs); reflexivity. }
  split; [exact Hlang |].
  destruct Hrep as [[Hv Hnone] | (key & Hlast & Hkey & Hget)].
  - exists (js "human"). split; [left; split; [reflexivity | exact Hnone] |].
    rewrite Hv. split; [reflexivity | left; reflexivity].
  - exists key. split; [right; exact Hlast |]. split; [exact Hget |].
    apply includes_In in Hkey. rewrite Hget.
    destruct Hkey as [<- | [<- | []]]; [left | right]; reflexivity.
Qed.

Lemma returned_config_reads_the_arguments_witness :
  exists optionArgs,
    skipn 2 exampleArgv = optionArgs ++ js "--" :: Config.command exampleConfig /\
    ~ In (js "--") optionArgs /\
    Forall (fun a => accepted a = true) optionArgs /\
    Config.files exampleConfig = filter isFileArg optionArgs /\
    Forall (fun f => everyFile f = true /\ noDirectory f = false)
      (Config.files exampleConfig) /\
    Options.jumpToDef (Config.options exampleConfig)
    = includes optionArgs (js "--jump") /\
    Options.workspaceFolders (Config.options exampleConfig)
    = match filter (startsWith (js "--workspace=")) optionArgs with
      | [] => [js "/home"]
      | given => map (valueOf (js "--workspace=")) given
      end /\
    LastOf (js "--language=") optionArgs (js "codeql")
      (Options.language (Config.options exampleConfig)) /\
    exists key,
      LastOf (js "--format=") optionArgs (js "human") key /\
      Some Reporters.csv = Reporters.get key /\
      (Some Reporters.csv = Some Reporters.human \/
       Some Reporters.csv = Some Reporters.csv).
Proof.
  apply (returned_config_reads_the_arguments everyFile noDirectory (js "/home")
           exampleArgv exampleConfig (Some Reporters.csv)).
  reflexivity.
Defined.

(** X17: [parseOptions] fails on the first argument before the "--" that
    it does not accept, with the message for that argument, before any
    file is looked at: the failure is the same whatever the file system
    holds. *)
Theorem first_unaccepted_argument_fails
  (existsSync isDirectory : JsString -> bool) (cwd : JsString)
  (argv before : list JsString) (bad : JsString) (after command : list JsString) :
  skipn 2 argv = (before ++ bad :: after) ++ js "--" :: command ->
  ~ In (js "--") (before ++ bad :: after) ->
  Forall (fun a => accepted a = true) before ->
  accepted bad = false ->
  parseOptions existsSync isDirectory cwd argv = Exits (Fail (complaint bad)).
Proof.
  intros Hargs Hno Hbefore Hbad.
  rewrite (parseOptions_dash existsSync isDirectory cwd argv _ command Hargs Hno).
  rewrite (optionLoop_rejects before bad after Hbefore Hbad). reflexivity.
Qed.

Lemma first_unaccepted_argument_fails_witness :
  parseOptions everyFile noDirectory (js "/home")
    [js "node"; js "lsp-bench"; js "missing.ql"; js "--format=xml"; js "-x";
     js "--"; js "server"]
  = Exits (Fail (js "Unrecognized format: xml")).
Proof.
  apply (first_unaccepted_argument_fails everyFile noDirectory (js "/home")
           [js "node"; js "lsp-bench"; js "missing.ql"; js "--format=xml";
            js "-x"; js "--"; js "server"]
           [js "missing.ql"] (js "--format=xml") [js "-x"] [js "server"]).
  - reflexivity.
  - intros [H | [H | [H | []]]]; discriminate H.
  - repeat constructor.
  - reflexivity.
Defined.

(** X18: when every argument before the "--" is accepted, [parseOptions]
    fails on the first file that does not exist or is a directory, with
    "File not found" for the one and "Input must be a file, not a
    directory" for the other. *)
Theorem first_unusable_file_fails
  (existsSync isDirectory : JsString -> bool) (cwd : JsString)
  (argv optionArgs command good : list JsString) (f : JsString)
  (rest : list JsString) :
  skipn 2 argv = optionArgs ++ js "--" :: command ->
  Forall (fun a => accepted a = true) optionArgs ->
  filter isFileArg optionArgs = good ++ f :: rest ->
  Forall (fun f => usable existsSync isDirectory f = true) good ->
  usable existsSync isDirectory f = false ->
  parseOptions existsSync isDirectory cwd argv
  = Exits (Fail (fileComplaint existsSync f)).
Proof.
  intros Hargs Hall Hfiles Hgood Hf.
  assert (Hno : ~ In (js "--") optionArgs).
  { intros Hin. rewrite Forall_forall in Hall. specialize (Hall _ Hin).
    discriminate Hall. }
  rewrite (parseOptions_dash existsSync isDirectory cwd argv optionArgs command
             Hargs Hno).
  pose proof (optionLoop_spec optionArgs
                (mkLocals [] false (js "codeql") [] (Some Reporters.human)))
    as Hloop.
  destruct (optionLoop optionArgs _) as [st | exit].
  - destruct Hloop as (_ & Hst & _). cbn [files app] in Hst.
    rewrite Hst, Hfiles.
    rewrite (checkFiles_fails existsSync isDirectory good f rest Hgood Hf).
    reflexivity.
  - exfalso. destruct Hloop as (before & bad & after & -> & _ & Hbad & _).
    apply Forall_app in Hall. destruct Hall as [_ Hall].
    inversion Hall; subst. congruence.
Qed.

Lemma first_unusable_file_fails_witness :
  parseOptions (fun f => strEq f (js "a.ql")) noDirectory (js "/home")
    [js "node"; js "lsp-bench"; js "a.ql"; js "--jump"; js "b.ql"; js "c.ql";
     js "--"; js "server"]
  = Exits (Fail (js "File not found: b.ql")).
Proof.
  apply (first_unusable_file_fails (fun f => strEq f (js "a.ql")) noDirectory
           (js "/home")
           [js "node"; js "lsp-bench"; js "a.ql"; js "--jump"; js "b.ql";
            js "c.ql"; js "--"; js "server"]
           [js "a.ql"; js "--jump"; js "b.ql"; js "c.ql"] [js "server"]
           [js "a.ql"] (js "b.ql") [js "c.ql"]).
  - reflexivity.
  - repeat constructor.
  - reflexivity.
  - repeat constructor.
  - reflexivity.
Defined.

(** X19: [parseOptions] returns a configuration exactly when there is a
    "--" after the first two arguments, every argument before the first
    "--" is accepted, and every file among them exists and is not a
    directory. *)
Theorem returns_exactly_when_all_is_accepted
  (existsSync isDirectory : JsString -> bool) (cwd : JsString)
  (argv : list JsString) :
  (exists cfg r, parseOptions existsSync isDirectory cwd argv = Returns cfg r) <->
  exists optionArgs command,
    skipn 2 argv = optionArgs ++ js "--" :: command /\
    Forall (fun a => accepted a = true) optionArgs /\
    Forall (fun f => usable existsSync isDirectory f = true)
      (filter isFileArg optionArgs).
Proof.
  split.
  - intros (cfg & r & Hreturns).
    destruct (in_dec (list_eq_dec N.eq_dec) (js "--") (skipn 2 argv)) as [Hin | Hno].
    2:{ rewrite (parseOptions_help existsSync isDirectory cwd argv Hno) in Hreturns.
        discriminate. }
    destruct (in_first _ _ Hin) as (optionArgs & command & Hargs & Hno).
    rewrite (parseOptions_dash existsSync isDirectory cwd argv optionArgs command
               Hargs Hno) in Hreturns.
    pose proof (optionLoop_spec optionArgs
                  (mkLocals [] false (js "codeql") [] (Some Reporters.human)))
      as Hloop.
    destruct (optionLoop optionArgs _) as [st | exit]; [| discriminate].
    destruct Hloop as (Hall & Hfiles & _). cbn [files app] in Hfiles.
    pose proof (checkFiles_spec existsSync isDirectory (files st)) as Hcheck.
    destruct (checkFiles existsSync isDirectory (files st)) as [exit |];
      [discriminate |].
    exists optionArgs, command. rewrite <- Hfiles.
    split; [exact Hargs |]. split; [exact Hall | exact Hcheck].
  - intros (optionArgs & command & Hargs & Hall & Hfiles).
    assert (Hno : ~ In (js "--") optionArgs).
    { intros Hin. rewrite Forall_forall in Hall. specialize (Hall _ Hin).
      discriminate Hall. }
    rewrite (parseOptions_dash existsSync isDirectory cwd argv optionArgs command
               Hargs Hno).
    pose proof (optionLoop_spec optionArgs
                  (mkLocals [] false (js "codeql") [] (Some Reporters.human)))
      as Hloop.
    destruct (optionLoop optionArgs _) as [st | exit].
    + destruct Hloop as (_ & Hst & _). cbn [files app] in Hst.
      pose proof (checkFiles_spec existsSync isDirectory (files st)) as Hcheck.
      destruct (checkFiles existsSync isDirectory (files st)) as [exit |].
      * exfalso. destruct Hcheck as (good & f & rest & Hsplit & _ & Hf & _).
        rewrite <- Hst, Hsplit in Hfiles. apply Forall_app in Hfiles.
        destruct Hfiles as [_ Hfiles]. inversion Hfiles; subst. congruence.
      * eexists. eexists. reflexivity.
    + exfalso. destruct Hloop as (before & bad & after & -> & _ & Hbad & _).
      apply Forall_app in Hall. destruct Hall as [_ Hall].
      inversion Hall; subst. congruence.
Qed.
